(** * OpenWebUI bulk model updater: a shallow embedding of the three scripts

    The repository holds three variants of one script:
    - [update-models.py]                       (module [UpdateModels], sequential),
    - [update-remotely/batch-model-updater.py] (module [Remote], worker pool or sequential),
    - [serverside-script/batch-model-updater.py] (module [Serverside], worker pool).

    The scripts talk to an HTTP service, print to the console, drive a
    progress bar and may leave through [sys.exit] or an uncaught exception.
    They are embedded as effect trees ([prog]) that an interpreter ([run])
    executes against an arbitrary deterministic server. *)

From Stdlib Require Import List String Ascii ZArith Bool Arith Lia Permutation.
Import ListNotations.
Local Open Scope string_scope.
Local Open Scope list_scope.
Set Warnings "-register-all".

(** ** Python values

    What [response.json()] can return, and what the scripts build from it.
    JSON numbers are restricted to integers (floats are outside the model).
    A [dict] keeps its insertion order, as in Python. *)

Inductive pyval : Type :=
| PNone
| PBool (b : bool)
| PInt (n : Z)
| PStr (s : string)
| PList (xs : list pyval)
| PDict (kvs : list (string * pyval)).

Definition dict : Type := list (string * pyval).

(** [d.get(k)], as an option: [None] when the key is absent. *)
Fixpoint dict_get (k : string) (d : dict) : option pyval :=
  match d with
  | [] => None
  | (k', v) :: rest => if String.eqb k k' then Some v else dict_get k rest
  end.

(** [d.get(k, default)] *)
Definition get_default (k : string) (default : pyval) (d : dict) : pyval :=
  match dict_get k d with
  | Some v => v
  | None => default
  end.

(** [k in d] *)
Definition dict_mem (k : string) (d : dict) : bool :=
  match dict_get k d with
  | Some _ => true
  | None => false
  end.

(** [d[k] = v]: overwrites in place when the key exists, appends otherwise. *)
Fixpoint dict_set (k : string) (v : pyval) (d : dict) : dict :=
  match d with
  | [] => [(k, v)]
  | (k', v') :: rest =>
      if String.eqb k k' then (k, v) :: rest else (k', v') :: dict_set k v rest
  end.

(** [bool(v)] *)
Definition truthy (v : pyval) : bool :=
  match v with
  | PNone => false
  | PBool b => b
  | PInt n => negb (n =? 0)%Z
  | PStr s => negb (String.eqb s "")
  | PList xs => match xs with [] => false | _ :: _ => true end
  | PDict kvs => match kvs with [] => false | _ :: _ => true end
  end.

(** [isinstance(v, list)] and [isinstance(v, dict)] *)
Definition is_list (v : pyval) : bool :=
  match v with PList _ => true | _ => false end.

Definition is_dict (v : pyval) : bool :=
  match v with PDict _ => true | _ => false end.

(** [a == b]: booleans compare equal to the integers 0 and 1, lists
    element by element, dicts key by key whatever the order. *)
Fixpoint py_eq (a b : pyval) {struct a} : bool :=
  match a, b with
  | PNone, PNone => true
  | PBool x, PBool y => Bool.eqb x y
  | PBool x, PInt n => (n =? Z.b2z x)%Z
  | PInt n, PBool x => (n =? Z.b2z x)%Z
  | PInt m, PInt n => (m =? n)%Z
  | PStr s, PStr t => String.eqb s t
  | PList xs, PList ys =>
      (fix all2 (xs ys : list pyval) {struct xs} : bool :=
         match xs, ys with
         | [], [] => true
         | x :: xs', y :: ys' => py_eq x y && all2 xs' ys'
         | _, _ => false
         end) xs ys
  | PDict d, PDict e =>
      Nat.eqb (List.length d) (List.length e) &&
      (fix sub (d : list (string * pyval)) {struct d} : bool :=
         match d with
         | [] => true
         | (k, v) :: d' =>
             match dict_get k e with
             | Some w => py_eq v w
             | None => false
             end && sub d'
         end) d
  | _, _ => false
  end.

(** [type(v).__name__], for the text of an [AttributeError]. *)
Definition type_name (v : pyval) : string :=
  match v with
  | PNone => "NoneType"
  | PBool _ => "bool"
  | PInt _ => "int"
  | PStr _ => "str"
  | PList _ => "list"
  | PDict _ => "dict"
  end.

(** Text is modelled as a string of 8-bit characters, which is what a
    Python [str] of ASCII characters is.  On text outside ASCII the
    functions that look inside a string ([upper], [substring], the length
    and the characters of a string) are not Python's; the statements that
    depend on them take the text to be ASCII. *)
Fixpoint ascii_only (s : string) : bool :=
  match s with
  | EmptyString => true
  | String c rest => (nat_of_ascii c <? 128)%nat && ascii_only rest
  end.

(** [s.upper()] for ASCII text: the letters a to z become A to Z and
    nothing else changes.  The scripts call [make_api_call] with the
    literals GET and POST. *)
Definition upper_ascii (c : ascii) : ascii :=
  let n := nat_of_ascii c in
  if ((97 <=? n) && (n <=? 122))%nat then ascii_of_nat (n - 32) else c.

Fixpoint upper (s : string) : string :=
  match s with
  | EmptyString => EmptyString
  | String c rest => String (upper_ascii c) (upper rest)
  end.

(** ** Effects *)

Inductive level : Type := INFO | SUCCESS | WARNING | ERROR | DEBUG.

Inductive http_verb : Type := GET | POST.

(** One call of [requests.get] or [requests.post]. *)
Record request : Type := mk_request {
  rq_verb : http_verb;
  rq_url : string;
  rq_headers : list (string * string);
  rq_json : option pyval;
  rq_params : option dict
}.

(** What comes back: a [RequestException] (with its text), or a response
    with its body and what [response.json()] makes of it ([None] when it
    raises [JSONDecodeError]). *)
Inductive reply : Type :=
| NoReply (err : string)
| Reply (text : string) (json : option pyval).

Inductive exn : Type :=
| AttributeError (msg : string)
| TypeError (msg : string)
| ValueError (msg : string).

Definition exn_str (e : exn) : string :=
  match e with
  | AttributeError msg => msg
  | TypeError msg => msg
  | ValueError msg => msg
  end.

(** The progress bar ([tqdm] or the script's [SimpleTqdm]): creation with
    a total, [update(n)], [close()]. *)
Inductive bar_event : Type :=
| BarNew (total : nat)
| BarUpdate (n : nat)
| BarClose.

(** Effect trees.  [Exit] is [sys.exit], [Raise] a Python exception on its
    way up, [Sleep] is [time.sleep] (in milliseconds). *)
Inductive prog (A : Type) : Type :=
| Ret (a : A)
| Http (rq : request) (k : reply -> prog A)
| Print (lv : level) (msg : string) (k : prog A)
| Bar (ev : bar_event) (k : prog A)
| Sleep (ms : nat) (k : prog A)
| Exit (code : Z)
| Raise (e : exn).

Arguments Ret {A} a.
Arguments Http {A} rq k.
Arguments Print {A} lv msg k.
Arguments Bar {A} ev k.
Arguments Sleep {A} ms k.
Arguments Exit {A} code.
Arguments Raise {A} e.

Fixpoint bind {A B : Type} (p : prog A) (f : A -> prog B) : prog B :=
  match p with
  | Ret a => f a
  | Http rq k => Http rq (fun r => bind (k r) f)
  | Print lv msg k => Print lv msg (bind k f)
  | Bar ev k => Bar ev (bind k f)
  | Sleep ms k => Sleep ms (bind k f)
  | Exit code => Exit code
  | Raise e => Raise e
  end.

(** [try: p except Exception as e: handler e].  [sys.exit] raises
    [SystemExit], which is not an [Exception] and passes through. *)
Fixpoint try_except {A : Type} (p : prog A) (handler : exn -> prog A) : prog A :=
  match p with
  | Ret a => Ret a
  | Http rq k => Http rq (fun r => try_except (k r) handler)
  | Print lv msg k => Print lv msg (try_except k handler)
  | Bar ev k => Bar ev (try_except k handler)
  | Sleep ms k => Sleep ms (try_except k handler)
  | Exit code => Exit code
  | Raise e => handler e
  end.

Declare Scope prog_scope.
Delimit Scope prog_scope with prog.
Notation "x <- p ;; q" := (bind p (fun x => q))
  (at level 61, p at next level, right associativity) : prog_scope.
Notation "p ;; q" := (bind p (fun _ => q))
  (at level 61, right associativity) : prog_scope.
Local Open Scope prog_scope.

(** ** Running a program against a server *)

Inductive outcome (A : Type) : Type :=
| Returned (a : A)
| Exited (code : Z)
| Raised (e : exn).

Arguments Returned {A} a.
Arguments Exited {A} code.
Arguments Raised {A} e.

(** The exit status of the process: an uncaught exception ends it with
    status 1, falling off the end of the script with status 0. *)
Definition exit_code {A : Type} (o : outcome A) : Z :=
  match o with
  | Returned _ => 0%Z
  | Exited code => code
  | Raised _ => 1%Z
  end.

Record world : Type := mk_world {
  sent : list request;
  console : list (level * string);
  bar_total : nat;
  bar_n : nat;
  bar_closed : bool;
  slept : nat
}.

Definition world0 : world :=
  {| sent := []; console := []; bar_total := 0; bar_n := 0;
     bar_closed := false; slept := 0 |}.

(** A server answers a request knowing the requests it has seen before. *)
Definition server : Type := list request -> request -> reply.

Definition do_http (srv : server) (rq : request) (w : world) : reply * world :=
  (srv (sent w) rq,
   {| sent := sent w ++ [rq]; console := console w; bar_total := bar_total w;
      bar_n := bar_n w; bar_closed := bar_closed w; slept := slept w |}).

Definition do_print (lv : level) (msg : string) (w : world) : world :=
  {| sent := sent w; console := console w ++ [(lv, msg)];
     bar_total := bar_total w; bar_n := bar_n w; bar_closed := bar_closed w;
     slept := slept w |}.

Definition do_bar (ev : bar_event) (w : world) : world :=
  match ev with
  | BarNew total =>
      {| sent := sent w; console := console w; bar_total := total; bar_n := 0;
         bar_closed := false; slept := slept w |}
  | BarUpdate n =>
      {| sent := sent w; console := console w; bar_total := bar_total w;
         bar_n := bar_n w + n; bar_closed := bar_closed w; slept := slept w |}
  | BarClose =>
      {| sent := sent w; console := console w; bar_total := bar_total w;
         bar_n := bar_n w; bar_closed := true; slept := slept w |}
  end.

Definition do_sleep (ms : nat) (w : world) : world :=
  {| sent := sent w; console := console w; bar_total := bar_total w;
     bar_n := bar_n w; bar_closed := bar_closed w; slept := slept w + ms |}.

Fixpoint run {A : Type} (srv : server) (p : prog A) (w : world)
  : outcome A * world :=
  match p with
  | Ret a => (Returned a, w)
  | Http rq k => let (r, w') := do_http srv rq w in run srv (k r) w'
  | Print lv msg k => run srv k (do_print lv msg w)
  | Bar ev k => run srv k (do_bar ev w)
  | Sleep ms k => run srv k (do_sleep ms w)
  | Exit code => (Exited code, w)
  | Raise e => (Raised e, w)
  end.

(** ** What the three scripts share

    [repr] and [json_dumps] stand for Python's [repr] and [json.dumps]:
    library code whose output only reaches log lines and the default
    description of a payload. *)

Record configuration : Type := mk_config {
  openwebui_url : string;
  api_base_path : string;
  target_model : string;
  api_key : string;
  cf_access_client_id : string;
  cf_access_client_secret : string;
  debug : bool;
  batch_mode : bool;
  max_workers : Z
}.

(** [obj.get(k, default)]: only a dict has the method. *)
Definition py_get (obj : pyval) (k : string) (default : pyval) : prog pyval :=
  match obj with
  | PDict d => Ret (get_default k default d)
  | _ => Raise (AttributeError
                  ("'" ++ type_name obj ++ "' object has no attribute 'get'")%string)
  end.

(** [obj.copy()] of a record. *)
Definition py_copy (obj : pyval) : prog dict :=
  match obj with
  | PDict d => Ret d
  | _ => Raise (AttributeError
                  ("'" ++ type_name obj ++ "' object has no attribute 'copy'")%string)
  end.

Definition is_none (v : pyval) : bool :=
  match v with PNone => true | _ => false end.

(** [model_id == 'unknown' or model_id is None] *)
Definition invalid_id (model_id : pyval) : bool :=
  py_eq model_id (PStr "unknown") || is_none model_id.

(** [update_response and isinstance(update_response, dict) and
    update_response.get('id') == model_id], with the value Python's [and]
    gives it. *)
Definition update_check (update_response model_id : pyval) : pyval :=
  if truthy update_response then
    match update_response with
    | PDict d => PBool (py_eq (get_default "id" PNone d) model_id)
    | _ => PBool false
    end
  else update_response.

(** [response.get('models', response.get('data', []))] *)
Definition models_or_data (response : dict) : pyval :=
  get_default "models" (get_default "data" (PList []) response) response.

(** [response and (isinstance(response, list) or (isinstance(response, dict)
    and ('models' in response or 'data' in response)))] *)
Definition looks_like_models (response : pyval) : bool :=
  truthy response &&
  match response with
  | PList _ => true
  | PDict d => dict_mem "models" d || dict_mem "data" d
  | _ => false
  end.

Section PythonLibrary.

Variable repr : pyval -> string.

(** [str(v)], as an f-string renders a value. *)
Definition py_str (v : pyval) : string :=
  match v with
  | PStr s => s
  | _ => repr v
  end.

Definition str_of_nat (n : nat) : string := py_str (PInt (Z.of_nat n)).

(** The payload of an update: a copy of the record with [base_model_id]
    overwritten and [name], [meta], [params] supplied when absent.  The
    same statements stand in the three scripts. *)
Definition default_meta (model_name : pyval) (target : string) : pyval :=
  PDict [ ("profile_image_url", PStr "/static/favicon.png");
          ("description", PStr (py_str model_name ++ " using " ++ target)%string);
          ("capabilities", PDict []) ].

Definition build_payload (model : dict) (model_name : pyval) (target : string)
  : dict :=
  let update_payload := model in
  let update_payload := dict_set "base_model_id" (PStr target) update_payload in
  let update_payload :=
    if dict_mem "name" update_payload then update_payload
    else dict_set "name" model_name update_payload in
  let update_payload :=
    if dict_mem "meta" update_payload then update_payload
    else dict_set "meta" (default_meta model_name target) update_payload in
  let update_payload :=
    if dict_mem "params" update_payload then update_payload
    else dict_set "params" (PDict []) update_payload in
  update_payload.

End PythonLibrary.

(** ** [update-models.py] *)

Module UpdateModels.
Section Script.

Variable repr : pyval -> string.
Variable json_dumps : pyval -> string.
Variable config : configuration.

Definition log (lv : level) (message : string) : prog unit :=
  match lv with
  | DEBUG => if debug config then Print DEBUG message (Ret tt) else Ret tt
  | _ => Print lv message (Ret tt)
  end.

Definition headers : list (string * string) :=
  [ ("Authorization", ("Bearer " ++ api_key config)%string);
    ("CF-Access-Client-Id", cf_access_client_id config);
    ("CF-Access-Client-Secret", cf_access_client_secret config);
    ("Content-Type", "application/json") ].

Definition decode (r : reply) : prog pyval :=
  match r with
  | Reply _ (Some j) => Ret j
  | Reply text None =>
      log DEBUG ("Response is not JSON: " ++ substring 0 500 text)%string ;;
      Ret (PStr text)
  | NoReply err =>
      log ERROR ("API call failed: " ++ err)%string ;;
      Ret PNone
  end.

Definition make_api_call (method endpoint : string)
    (data : option pyval) (params : option dict) : prog pyval :=
  let url := (openwebui_url config ++ api_base_path config ++ endpoint)%string in
  log DEBUG ("Executing API call: " ++ method ++ " "
             ++ api_base_path config ++ endpoint)%string ;;
  if String.eqb (upper method) "GET" then
    Http (mk_request GET url headers None params) decode
  else if String.eqb (upper method) "POST" then
    Http (mk_request POST url headers data params) decode
  else
    log ERROR ("Unsupported HTTP method: " ++ method)%string ;;
    Ret PNone.

Definition endpoints : list string :=
  ["/models"; "/models/"; "/models/list"; "/v1/models"].

(** The [for endpoint in endpoints] loop; its value is [models_response]
    when the loop is left. *)
Fixpoint fetch_loop (endpoints : list string) : prog pyval :=
  match endpoints with
  | [] => Ret PNone
  | endpoint :: rest =>
      log INFO ("Trying to fetch models from endpoint: " ++ endpoint)%string ;;
      response <- make_api_call "GET" endpoint None None ;;
      if truthy response && is_list response then
        log SUCCESS
          ("Successfully fetched models from endpoint: " ++ endpoint)%string ;;
        Ret response
      else
        match response with
        | PDict d =>
            if truthy response && (dict_mem "models" d || dict_mem "data" d) then
              log SUCCESS
                ("Successfully fetched models from endpoint: " ++ endpoint)%string ;;
              Ret (models_or_data d)
            else fetch_loop rest
        | _ => fetch_loop rest
        end
  end.

(** [models = models_response if isinstance(models_response, list) else []] *)
Definition extract_models (models_response : pyval) : list pyval :=
  match models_response with
  | PList xs => xs
  | _ => []
  end.

Definition update_endpoints : list string :=
  ["/models/model/update"; "/models/update"].

Definition show_response (update_response : pyval) : string :=
  if is_dict update_response || is_list update_response
  then json_dumps update_response
  else py_str repr update_response.

(** The [for update_endpoint in update_endpoints] loop; it returns the
    counter and [update_success]. *)
Fixpoint try_update (update_endpoints : list string) (update_payload : dict)
    (model_id model_name : pyval) (successful_updates : nat)
  : prog (nat * bool) :=
  match update_endpoints with
  | [] => Ret (successful_updates, false)
  | update_endpoint :: rest =>
      update_response <-
        make_api_call "POST" update_endpoint (Some (PDict update_payload))
          (Some [("id", model_id)]) ;;
      log DEBUG ("Update response: " ++ show_response update_response)%string ;;
      if truthy (update_check update_response model_id) then
        log SUCCESS
          ("Successfully updated model: " ++ py_str repr model_name)%string ;;
        Ret (S successful_updates, true)
      else try_update rest update_payload model_id model_name successful_updates
  end.

(** The [for model in models] loop. *)
Fixpoint update_loop (models : list pyval) (successful_updates : nat)
  : prog nat :=
  match models with
  | [] => Ret successful_updates
  | model :: rest =>
      model_id <- py_get model "id" (PStr "unknown") ;;
      model_name <- py_get model "name" (PStr "unknown") ;;
      current_base_model <- py_get model "base_model_id" (PStr "unknown") ;;
      if invalid_id model_id then
        log WARNING ("Skipping model with missing ID. Model data: "
                     ++ json_dumps model)%string ;;
        update_loop rest successful_updates
      else
        log INFO ("Processing model: " ++ py_str repr model_name ++ " (ID: "
                  ++ py_str repr model_id ++ ")")%string ;;
        log INFO ("Current base model: "
                  ++ py_str repr current_base_model)%string ;;
        copy <- py_copy model ;;
        let update_payload :=
          build_payload repr copy model_name (target_model config) in
        log DEBUG ("Update payload: "
                   ++ json_dumps (PDict update_payload))%string ;;
        log INFO ("Updating model " ++ py_str repr model_name ++ " to use "
                  ++ target_model config ++ "...")%string ;;
        res <- try_update update_endpoints update_payload model_id model_name
                 successful_updates ;;
        (if snd res then Ret tt
         else log ERROR ("Failed to update model: "
                         ++ py_str repr model_name)%string) ;;
        Sleep 1000 (Ret tt) ;;
        update_loop rest (fst res)
  end.

(** From the loop over the listing paths to "Found ... models to update":
    the value is the records the updates run over. *)
Definition fetch_models : prog (list pyval) :=
  models_response <- fetch_loop endpoints ;;
  if negb (truthy models_response) then
    log ERROR "Failed to fetch models from any endpoint" ;;
    Exit 1
  else
    log DEBUG ("Raw models response: "
               ++ substring 0 500 (json_dumps models_response) ++ "...")%string ;;
    let models := extract_models models_response in
    let model_count := List.length models in
    if Nat.eqb model_count 0 then
      log ERROR "No models found in the API response" ;;
      Exit 1
    else
      log INFO ("Found " ++ str_of_nat repr model_count
                ++ " models to update")%string ;;
      Ret models.

(** The summary at the end. *)
Definition summary (successful_updates model_count : nat) : prog unit :=
  log INFO "Model update process completed" ;;
  log INFO ("Successfully updated " ++ str_of_nat repr successful_updates
            ++ " out of " ++ str_of_nat repr model_count
            ++ " models to use " ++ target_model config)%string ;;
  if Nat.ltb successful_updates model_count then
    log WARNING
      "Some models could not be updated. Please check the logs above for details"
  else
    log SUCCESS ("All models have been successfully updated to use "
                 ++ target_model config)%string.

Definition banner : prog unit :=
  log INFO "Starting model update process..." ;;
  log INFO ("Target model: " ++ target_model config)%string ;;
  log INFO ("Using OpenWebUI URL: " ++ openwebui_url config
            ++ api_base_path config)%string.

Definition update_models : prog unit :=
  banner ;;
  models <- fetch_models ;;
  successful_updates <- update_loop models 0 ;;
  summary successful_updates (List.length models).

End Script.
End UpdateModels.

(** ** The worker pool of the batch scripts

    [ThreadPoolExecutor(max_workers)] with every record submitted at once.
    Workers take the queued tasks in submission order, so the tasks that
    can move are the first [workers] unfinished ones.  A schedule names,
    step by step, the task that moves next: one step performs one effect
    of that task, or marks it finished once it has returned or raised.
    Every interleaving of the workers is a schedule. *)

Record pool : Type := mk_pool {
  tasks : list (prog pyval);
  finished : list nat;
  pworld : world
}.

Definition is_finished (i : nat) (st : pool) : bool :=
  existsb (Nat.eqb i) (finished st).

Definition busy_before (i : nat) (st : pool) : nat :=
  List.length (filter (fun j => negb (is_finished j st)) (seq 0 i)).

Definition may_run (workers i : nat) (st : pool) : bool :=
  negb (is_finished i st) && (busy_before i st <? workers)%nat.

Definition task_step {A : Type} (srv : server) (p : prog A) (w : world)
  : option (prog A * world) :=
  match p with
  | Http rq k => let (r, w') := do_http srv rq w in Some (k r, w')
  | Print lv msg k => Some (k, do_print lv msg w)
  | Bar ev k => Some (k, do_bar ev w)
  | Sleep ms k => Some (k, do_sleep ms w)
  | Ret _ | Exit _ | Raise _ => None
  end.

Fixpoint set_nth {A : Type} (i : nat) (x : A) (l : list A) : list A :=
  match l, i with
  | [], _ => []
  | _ :: rest, O => x :: rest
  | y :: rest, S j => y :: set_nth j x rest
  end.

Definition pool_step (srv : server) (workers : nat) (st : pool) (i : nat) : pool :=
  if may_run workers i st then
    match nth_error (tasks st) i with
    | None => st
    | Some p =>
        match task_step srv p (pworld st) with
        | Some (p', w') =>
            {| tasks := set_nth i p' (tasks st); finished := finished st;
               pworld := w' |}
        | None =>
            {| tasks := tasks st; finished := finished st ++ [i];
               pworld := pworld st |}
        end
    end
  else st.

Definition pool_run (srv : server) (workers : nat) (sched : list nat) (st : pool)
  : pool :=
  fold_left (pool_step srv workers) sched st.

(** Leaving the [with] block waits for every future. *)
Definition drained (st : pool) : bool :=
  Nat.eqb (List.length (finished st)) (List.length (tasks st)).

Definition outcome_of {A : Type} (p : prog A) : option (outcome A) :=
  match p with
  | Ret a => Some (Returned a)
  | Exit code => Some (Exited code)
  | Raise e => Some (Raised e)
  | _ => None
  end.

(** The futures in the order they completed, each with the record it was
    submitted for ([future_to_model]). *)
Definition future_of (models : list pyval) (st : pool) (i : nat)
  : list (pyval * outcome pyval) :=
  match nth_error models i, nth_error (tasks st) i with
  | Some model, Some p =>
      match outcome_of p with
      | Some o => [(model, o)]
      | None => []
      end
  | _, _ => []
  end.

Definition as_completed (models : list pyval) (st : pool)
  : list (pyval * outcome pyval) :=
  flat_map (future_of models st) (finished st).

(** [future.result()] *)
Definition future_result (o : outcome pyval) : prog pyval :=
  match o with
  | Returned v => Ret v
  | Exited code => Exit code
  | Raised e => Raise e
  end.

(** Sequencing at the level of runs. *)
Definition and_then {A B : Type} (r : outcome A * world)
    (f : A -> world -> outcome B * world) : outcome B * world :=
  match r with
  | (Returned a, w) => f a w
  | (Exited code, w) => (Exited code, w)
  | (Raised e, w) => (Raised e, w)
  end.

(** ** What a program can do, whatever the server answers *)

Inductive event : Type :=
| EvHttp (rq : request) (r : reply)
| EvPrint (lv : level) (msg : string)
| EvBar (ev : bar_event)
| EvSleep (ms : nat).

Inductive exec {A : Type} : prog A -> list event -> outcome A -> Prop :=
| exec_ret a : exec (Ret a) [] (Returned a)
| exec_exit code : exec (Exit code) [] (Exited code)
| exec_raise e : exec (Raise e) [] (Raised e)
| exec_http rq k r evs o :
    exec (k r) evs o -> exec (Http rq k) (EvHttp rq r :: evs) o
| exec_print lv msg k evs o :
    exec k evs o -> exec (Print lv msg k) (EvPrint lv msg :: evs) o
| exec_bar ev k evs o :
    exec k evs o -> exec (Bar ev k) (EvBar ev :: evs) o
| exec_sleep ms k evs o :
    exec k evs o -> exec (Sleep ms k) (EvSleep ms :: evs) o.

(** The exchanges with the server in a trace, its requests, and how far
    it moves the progress bar. *)
Definition exchanges_of (evs : list event) : list (request * reply) :=
  flat_map (fun e => match e with EvHttp rq r => [(rq, r)] | _ => [] end) evs.

Definition requests_of (evs : list event) : list request :=
  map fst (exchanges_of evs).

Definition bar_advance (evs : list event) : nat :=
  list_sum (map (fun e => match e with EvBar (BarUpdate n) => n | _ => 0 end) evs).

(** ** The batch scripts: what the two of them share

    [update-remotely/batch-model-updater.py] and
    [serverside-script/batch-model-updater.py] differ in the request
    headers, in where the target model comes from, in the debug lines of
    [update_single_model] and in the sequential mode, which only the first
    has.  The rest is the same text. *)

Record counters : Type := mk_counters {
  successful_updates : nat;
  failed_updates : nat;
  skipped_updates : nat
}.

Definition no_updates : counters :=
  {| successful_updates := 0; failed_updates := 0; skipped_updates := 0 |}.

Definition total (c : counters) : nat :=
  successful_updates c + skipped_updates c + failed_updates c.

(** [len(models)] and [for model in models], whatever [models] is; for
    a string, the characters of ASCII text. *)
Definition no_len (v : pyval) : exn :=
  TypeError ("object of type '" ++ type_name v ++ "' has no len()")%string.

Fixpoint chars (s : string) : list pyval :=
  match s with
  | EmptyString => []
  | String c rest => PStr (String c EmptyString) :: chars rest
  end.

Definition py_len (v : pyval) : prog nat :=
  match v with
  | PList xs => Ret (List.length xs)
  | PDict d => Ret (List.length d)
  | PStr s => Ret (String.length s)
  | _ => Raise (no_len v)
  end.

Definition py_iter (v : pyval) : list pyval :=
  match v with
  | PList xs => xs
  | PDict d => map (fun kv => PStr (fst kv)) d
  | PStr s => chars s
  | _ => []
  end.

Module Batch.
Section Script.

Variable repr : pyval -> string.
Variable json_dumps : pyval -> string.
Variable config : configuration.
Variable headers : list (string * string).
Variable target : string.

Definition log (lv : level) (message : string) : prog unit :=
  match lv with
  | DEBUG => if debug config then Print DEBUG message (Ret tt) else Ret tt
  | _ => Print lv message (Ret tt)
  end.

Definition decode (r : reply) : prog pyval :=
  match r with
  | Reply _ (Some j) => Ret j
  | Reply text None =>
      (if debug config
       then log DEBUG ("Response is not JSON: " ++ substring 0 500 text)%string
       else Ret tt) ;;
      Ret (PStr text)
  | NoReply err =>
      log ERROR ("API call failed: " ++ err)%string ;;
      Ret PNone
  end.

Definition make_api_call (method endpoint : string)
    (data : option pyval) (params : option dict) : prog pyval :=
  let url := (openwebui_url config ++ api_base_path config ++ endpoint)%string in
  (if debug config
   then log DEBUG ("Executing API call: " ++ method ++ " "
                   ++ api_base_path config ++ endpoint)%string
   else Ret tt) ;;
  if String.eqb (upper method) "GET" then
    Http (mk_request GET url headers None params) decode
  else if String.eqb (upper method) "POST" then
    Http (mk_request POST url headers data params) decode
  else
    log ERROR ("Unsupported HTTP method: " ++ method)%string ;;
    Ret PNone.

(** The alternatives tried when the first listing is not a non-empty
    list; its argument is [models_response] so far. *)
Fixpoint try_alternatives (endpoints : list string) (models_response : pyval)
  : prog pyval :=
  match endpoints with
  | [] => Ret models_response
  | endpoint :: rest =>
      models_response <- make_api_call "GET" endpoint None None ;;
      if looks_like_models models_response then Ret models_response
      else try_alternatives rest models_response
  end.

Definition alternatives : list string :=
  ["/models/"; "/models/list"; "/v1/models"].

(** From "Fetching models..." to [models_response] as the extraction
    finds it. *)
Definition fetch_response : prog pyval :=
  log INFO "Fetching models..." ;;
  models_response <- make_api_call "GET" "/models" None None ;;
  if negb (truthy models_response && is_list models_response)
  then try_alternatives alternatives models_response
  else Ret models_response.

(** "Extract models from response" *)
Definition extract_models (models_response : pyval) : pyval :=
  match models_response with
  | PDict d => models_or_data d
  | PList _ => models_response
  | _ => PList []
  end.

(** Fetching, extraction, the count and the progress bar: the value is
    the records the updates run over. *)
Definition fetch_models : prog (list pyval) :=
  models_response <- fetch_response ;;
  let models := extract_models models_response in
  model_count <- py_len models ;;
  if Nat.eqb model_count 0 then
    log ERROR "No models found in the API response" ;;
    Exit 1
  else
    log INFO ("Found " ++ str_of_nat repr model_count
              ++ " models to update")%string ;;
    Bar (BarNew model_count) (Ret (py_iter models)).

(** The body of the [try] once [success] is known. *)
Definition tally (model success : pyval) (c : counters) : prog counters :=
  if truthy success then
    Ret {| successful_updates := successful_updates c + 1;
           failed_updates := failed_updates c;
           skipped_updates := skipped_updates c |}
  else
    current_base_model <- py_get model "base_model_id" (PStr "unknown") ;;
    if py_eq current_base_model (PStr target) then
      Ret {| successful_updates := successful_updates c;
             failed_updates := failed_updates c;
             skipped_updates := skipped_updates c + 1 |}
    else
      Ret {| successful_updates := successful_updates c;
             failed_updates := failed_updates c + 1;
             skipped_updates := skipped_updates c |}.

(** The [except Exception as e] branch. *)
Definition on_exception (model_name : pyval) (c : counters) (e : exn)
  : prog counters :=
  log ERROR ("Exception updating model " ++ py_str repr model_name ++ ": "
             ++ exn_str e)%string ;;
  Ret {| successful_updates := successful_updates c;
         failed_updates := failed_updates c + 1;
         skipped_updates := skipped_updates c |}.

(** [for future in concurrent.futures.as_completed(future_to_model)] *)
Fixpoint collect (futures : list (pyval * outcome pyval)) (c : counters)
  : prog counters :=
  match futures with
  | [] => Ret c
  | (model, result) :: rest =>
      model_name <- py_get model "name" (PStr "unknown") ;;
      c' <- try_except
              (success <- future_result result ;; tally model success c)
              (on_exception model_name c) ;;
      collect rest c'
  end.

(** From [progress_bar.close()] to the end; the counters are handed back
    so that statements can name them. *)
Definition summary (c : counters) : prog counters :=
  Bar BarClose (Ret tt) ;;
  log INFO "Model update process completed" ;;
  log INFO ("Successfully updated: " ++ str_of_nat repr (successful_updates c)
            ++ " models")%string ;;
  log INFO ("Skipped (already using target model): "
            ++ str_of_nat repr (skipped_updates c) ++ " models")%string ;;
  log INFO ("Failed to update: " ++ str_of_nat repr (failed_updates c)
            ++ " models")%string ;;
  (if (0 <? failed_updates c)%nat then
     log WARNING "Some models could not be updated"
   else
     log SUCCESS ("All applicable models have been successfully updated to use "
                  ++ target)%string) ;;
  Ret c.

(** The [with ThreadPoolExecutor(...)] block for workers [worker]: the
    pool runs under the schedule, then the futures are collected.  [None]
    when the schedule ends before every future is done. *)
Definition thread_pool (worker : pyval -> prog pyval) (srv : server)
    (sched : list nat) (models : list pyval) (w : world)
  : option (outcome counters * world) :=
  if (max_workers config <=? 0)%Z then
    Some (Raised (ValueError "max_workers must be greater than 0"), w)
  else
    let st :=
      pool_run srv (Z.to_nat (max_workers config)) sched
        {| tasks := map worker models; finished := []; pworld := w |} in
    if drained st
    then Some (run srv (collect (as_completed models st) no_updates) (pworld st))
    else None.

End Script.
End Batch.

(** ** [update-remotely/batch-model-updater.py] *)

Module Remote.
Section Script.

Variable repr : pyval -> string.
Variable json_dumps : pyval -> string.
Variable config : configuration.

Definition headers : list (string * string) :=
  [ ("Authorization", ("Bearer " ++ api_key config)%string);
    ("CF-Access-Client-Id", cf_access_client_id config);
    ("CF-Access-Client-Secret", cf_access_client_secret config);
    ("Content-Type", "application/json") ].

Definition log : level -> string -> prog unit := Batch.log config.

Definition make_api_call
  : string -> string -> option pyval -> option dict -> prog pyval :=
  Batch.make_api_call config headers.

(** [update_single_model(model, progress_bar)]; the progress bar is
    always handed over and is truthy, its total being positive. *)
Definition update_single_model (model : pyval) : prog pyval :=
  model_id <- py_get model "id" (PStr "unknown") ;;
  model_name <- py_get model "name" (PStr "unknown") ;;
  current_base_model <- py_get model "base_model_id" (PStr "unknown") ;;
  let target_model := target_model config in
  if invalid_id model_id then
    Bar (BarUpdate 1) (Ret (PBool false))
  else if py_eq current_base_model (PStr target_model) then
    Bar (BarUpdate 1) (Ret (PBool true))
  else
    (if debug config then
       log DEBUG ("Processing model: " ++ py_str repr model_name ++ " (ID: "
                  ++ py_str repr model_id ++ ")")%string ;;
       log DEBUG ("Current base model: "
                  ++ py_str repr current_base_model)%string
     else Ret tt) ;;
    copy <- py_copy model ;;
    let update_payload := build_payload repr copy model_name target_model in
    (if debug config then
       log DEBUG ("Update payload: "
                  ++ json_dumps (PDict update_payload))%string
     else Ret tt) ;;
    update_response <-
      make_api_call "POST" "/models/model/update" (Some (PDict update_payload))
        (Some [("id", model_id)]) ;;
    update_response <-
      (if negb (truthy (update_check update_response model_id)) then
         make_api_call "POST" "/models/update" (Some (PDict update_payload))
           (Some [("id", model_id)])
       else Ret update_response) ;;
    let success := update_check update_response model_id in
    Bar (BarUpdate 1) (Ret success).

(** The [for model in models] loop of the sequential mode. *)
Fixpoint sequential_loop (models : list pyval) (c : counters) : prog counters :=
  match models with
  | [] => Ret c
  | model :: rest =>
      model_name <- py_get model "name" (PStr "unknown") ;;
      c' <- try_except
              (success <- update_single_model model ;;
               Batch.tally (target_model config) model success c)
              (Batch.on_exception repr config model_name c) ;;
      (if negb (batch_mode config) then Sleep 500 (Ret tt) else Ret tt) ;;
      sequential_loop rest c'
  end.

Definition banner : prog unit :=
  log INFO "Starting model update process..." ;;
  log INFO ("Target model: " ++ target_model config)%string ;;
  log INFO ("Using OpenWebUI URL: " ++ openwebui_url config
            ++ api_base_path config)%string.

(** Up to the progress bar: the value is the fetched records. *)
Definition prologue : prog (list pyval) :=
  banner ;;
  Batch.fetch_models repr config headers.

(** [update_models()], run from world [w] under a schedule for the
    worker pool; [None] when the schedule leaves futures pending. *)
Definition update_models (srv : server) (sched : list nat) (w : world)
  : option (outcome counters * world) :=
  match run srv prologue w with
  | (Returned models, w1) =>
      let counted :=
        if batch_mode config then
          let w2 :=
            snd (run srv
                   (log INFO ("Using parallel processing with "
                              ++ py_str repr (PInt (max_workers config))
                              ++ " workers")%string) w1) in
          Batch.thread_pool repr config (target_model config)
            update_single_model srv sched models w2
        else
          Some (run srv (log INFO "Using sequential processing" ;;
                         sequential_loop models no_updates) w1) in
      match counted with
      | Some r =>
          Some (and_then r
                  (fun c w3 =>
                     run srv (Batch.summary repr config (target_model config) c) w3))
      | None => None
      end
  | (Exited code, w1) => Some (Exited code, w1)
  | (Raised e, w1) => Some (Raised e, w1)
  end.

End Script.
End Remote.

(** ** [serverside-script/batch-model-updater.py] *)

Module Serverside.
Section Script.

Variable repr : pyval -> string.
Variable config : configuration.

Definition headers : list (string * string) :=
  [ ("Authorization", ("Bearer " ++ api_key config)%string);
    ("Content-Type", "application/json") ].

Definition log : level -> string -> prog unit := Batch.log config.

Definition make_api_call
  : string -> string -> option pyval -> option dict -> prog pyval :=
  Batch.make_api_call config headers.

(** [update_single_model(model, target_model, progress_bar)] *)
Definition update_single_model (target_model : string) (model : pyval)
  : prog pyval :=
  model_id <- py_get model "id" (PStr "unknown") ;;
  model_name <- py_get model "name" (PStr "unknown") ;;
  current_base_model <- py_get model "base_model_id" (PStr "unknown") ;;
  if invalid_id model_id then
    Bar (BarUpdate 1) (Ret (PBool false))
  else if py_eq current_base_model (PStr target_model) then
    Bar (BarUpdate 1) (Ret (PBool true))
  else
    copy <- py_copy model ;;
    let update_payload := build_payload repr copy model_name target_model in
    update_response <-
      make_api_call "POST" "/models/model/update" (Some (PDict update_payload))
        (Some [("id", model_id)]) ;;
    update_response <-
      (if negb (truthy (update_check update_response model_id)) then
         make_api_call "POST" "/models/update" (Some (PDict update_payload))
           (Some [("id", model_id)])
       else Ret update_response) ;;
    let success := update_check update_response model_id in
    Bar (BarUpdate 1) (Ret success).

(** "Use hardcoded target model" *)
Definition hardcoded_target : string :=
  "openrouter.google/gemini-2.5-pro-exp-03-25:free".

Definition banner : prog unit :=
  log INFO "Starting model update process..." ;;
  log INFO ("Using target model: " ++ hardcoded_target)%string ;;
  log INFO ("Using OpenWebUI URL: " ++ openwebui_url config
            ++ api_base_path config)%string.

(** Up to the progress bar: the value is the fetched records. *)
Definition prologue : prog (list pyval) :=
  banner ;;
  Batch.fetch_models repr config headers.

Definition update_models (srv : server) (sched : list nat) (w : world)
  : option (outcome counters * world) :=
  match run srv prologue w with
  | (Returned models, w1) =>
      match Batch.thread_pool repr config hardcoded_target
              (update_single_model hardcoded_target) srv sched models w1 with
      | Some r =>
          Some (and_then r
                  (fun c w2 =>
                     run srv (Batch.summary repr config hardcoded_target c) w2))
      | None => None
      end
  | (Exited code, w1) => Some (Exited code, w1)
  | (Raised e, w1) => Some (Raised e, w1)
  end.

End Script.
End Serverside.

(** * Notions the statements use *)

(** What [make_api_call] hands back for a reply. *)
Definition returned (r : reply) : pyval :=
  match r with
  | Reply _ (Some j) => j
  | Reply text None => PStr text
  | NoReply _ => PNone
  end.

(** The world after a trace. *)
Definition replay_event (w : world) (e : event) : world :=
  match e with
  | EvHttp rq r => snd (do_http (fun _ _ => r) rq w)
  | EvPrint lv msg => do_print lv msg w
  | EvBar ev => do_bar ev w
  | EvSleep ms => do_sleep ms w
  end.

Definition replay (evs : list event) (w : world) : world :=
  fold_left replay_event evs w.

(** [if k not in p: p[k] = v] *)
Definition ensure (k : string) (v : pyval) (p : dict) : dict :=
  if dict_mem k p then p else dict_set k v p.

(** The request of an update and of a listing, as [make_api_call] builds
    them. *)
Definition update_request (config : configuration) (headers : list (string * string))
    (endpoint : string) (update_payload : dict) (model_id : pyval) : request :=
  mk_request POST
    (openwebui_url config ++ api_base_path config ++ endpoint)%string headers
    (Some (PDict update_payload)) (Some [("id", model_id)]).

Definition listing_request (config : configuration) (headers : list (string * string))
    (endpoint : string) : request :=
  mk_request GET
    (openwebui_url config ++ api_base_path config ++ endpoint)%string headers
    None None.

(** What an update of one record exchanges with the server, and the value
    [update_single_model] returns: the first path alone when its answer
    passes the check, the first and then the second otherwise, both with
    the same payload and the same query. *)
Definition dispatch_trace (config : configuration) (headers : list (string * string))
    (update_payload : dict) (model_id : pyval)
    (xs : list (request * reply)) (result : pyval) : Prop :=
  let first :=
    update_request config headers "/models/model/update" update_payload model_id in
  let second :=
    update_request config headers "/models/update" update_payload model_id in
  exists r1,
    (truthy (update_check (returned r1) model_id) = true /\
     xs = [(first, r1)] /\
     result = update_check (returned r1) model_id)
    \/
    (truthy (update_check (returned r1) model_id) = false /\
     exists r2,
       xs = [(first, r1); (second, r2)] /\
       result = update_check (returned r2) model_id).

(** What holds of a pool at every step of every schedule, [init] being
    the tasks as submitted: the finished tasks are distinct, in range and
    have returned or raised, and whatever a task does from where it stands
    is the end of something it could do from the start. *)
Record pool_ok (init : list (prog pyval)) (st : pool) : Prop := mk_pool_ok {
  ok_length : List.length (tasks st) = List.length init;
  ok_nodup : NoDup (finished st);
  ok_bound : forall i, In i (finished st) -> i < List.length init;
  ok_done : forall i p,
      In i (finished st) -> nth_error (tasks st) i = Some p ->
      outcome_of p <> None;
  ok_exec : forall i p p0 evs o,
      nth_error (tasks st) i = Some p -> nth_error init i = Some p0 ->
      exec p evs o -> exists before, exec p0 (before ++ evs) o
}.

(** The two tests [update_single_model] makes on a record. *)
Definition has_invalid_id (model : pyval) : bool :=
  match model with
  | PDict d => invalid_id (get_default "id" (PStr "unknown") d)
  | _ => false
  end.

Definition at_target (target : string) (model : pyval) : bool :=
  match model with
  | PDict d => py_eq (get_default "base_model_id" (PStr "unknown") d) (PStr target)
  | _ => false
  end.

(** The counter a record ends in. *)
Inductive verdict : Type := Updated | Skipped | Failed.

Definition bump (v : verdict) (c : counters) : counters :=
  match v with
  | Updated =>
      {| successful_updates := successful_updates c + 1;
         failed_updates := failed_updates c;
         skipped_updates := skipped_updates c |}
  | Skipped =>
      {| successful_updates := successful_updates c;
         failed_updates := failed_updates c;
         skipped_updates := skipped_updates c + 1 |}
  | Failed =>
      {| successful_updates := successful_updates c;
         failed_updates := failed_updates c + 1;
         skipped_updates := skipped_updates c |}
  end.

Definition classify (target : string) (model success : pyval) : verdict :=
  if truthy success then Updated
  else if at_target target model then Skipped
  else Failed.

Definition count {A : Type} (f : A -> bool) (l : list A) : nat :=
  List.length (filter f l).

(** What the collecting loop relies on: for a record that is a mapping a
    worker returns, with [False] when the id is unusable and [True] when
    the id is usable and the record is at the target. *)
Definition worker_sound (target : string) (worker : pyval -> prog pyval) : Prop :=
  forall d evs o,
    exec (worker (PDict d)) evs o ->
    exists v,
      o = Returned v /\
      (has_invalid_id (PDict d) = true -> v = PBool false) /\
      (has_invalid_id (PDict d) = false -> at_target target (PDict d) = true ->
       v = PBool true).

(** The two batch scripts under one name. *)
Inductive batch_script : Type := RemoteScript | ServersideScript.

Definition batch_update_models (s : batch_script) (repr json_dumps : pyval -> string)
    (config : configuration)
  : server -> list nat -> world -> option (outcome counters * world) :=
  match s with
  | RemoteScript => Remote.update_models repr json_dumps config
  | ServersideScript => Serverside.update_models repr config
  end.

Definition batch_prologue (s : batch_script) (repr : pyval -> string)
    (config : configuration) : prog (list pyval) :=
  match s with
  | RemoteScript => Remote.prologue repr config
  | ServersideScript => Serverside.prologue repr config
  end.

Definition batch_target (s : batch_script) (config : configuration) : string :=
  match s with
  | RemoteScript => target_model config
  | ServersideScript => Serverside.hardcoded_target
  end.

(** What the counters of a finished run say about the records. *)
Definition counters_describe (target : string) (models : list pyval) (c : counters)
  : Prop :=
  Forall (fun m => is_dict m = true) models
  /\ total c = List.length models
  /\ skipped_updates c =
       count (fun m => has_invalid_id m && at_target target m) models
  /\ count (fun m => negb (has_invalid_id m) && at_target target m) models
     <= successful_updates c
  /\ count (fun m => has_invalid_id m && negb (at_target target m)) models
     <= failed_updates c.

(** The trace of a run. *)
Fixpoint trace {A : Type} (srv : server) (p : prog A) (w : world) : list event :=
  match p with
  | Http rq k =>
      let (r, w') := do_http srv rq w in EvHttp rq r :: trace srv (k r) w'
  | Print lv msg k => EvPrint lv msg :: trace srv k (do_print lv msg w)
  | Bar ev k => EvBar ev :: trace srv k (do_bar ev w)
  | Sleep ms k => EvSleep ms :: trace srv k (do_sleep ms w)
  | Ret _ | Exit _ | Raise _ => []
  end.

Definition result {A : Type} (r : option (outcome A * world)) : option (outcome A) :=
  option_map fst r.

Definition batch_worker (s : batch_script) (repr json_dumps : pyval -> string)
    (config : configuration) : pyval -> prog pyval :=
  match s with
  | RemoteScript => Remote.update_single_model repr json_dumps config
  | ServersideScript =>
      Serverside.update_single_model repr config Serverside.hardcoded_target
  end.

Definition batch_headers (s : batch_script) (config : configuration)
  : list (string * string) :=
  match s with
  | RemoteScript => Remote.headers config
  | ServersideScript => Serverside.headers config
  end.

(** C3 as the claim words it: a record whose id is missing (the scripts
    test [model_id == 'unknown' or model_id is None] on the id they looked
    up with that default) causes no request, moves the progress bar by one,
    and is left out of the three totals, which then count the other
    records only. *)
Definition C3_as_stated : Prop :=
  (forall (s : batch_script) (repr json_dumps : pyval -> string)
          (config : configuration) (d : dict) evs o,
      has_invalid_id (PDict d) = true ->
      exec (batch_worker s repr json_dumps config (PDict d)) evs o ->
      exchanges_of evs = [] /\ bar_advance evs = 1)
  /\
  (forall (s : batch_script) (repr json_dumps : pyval -> string)
          (config : configuration) (srv : server) (sched : list nat) (w : world)
          (c : counters),
      result (batch_update_models s repr json_dumps config srv sched w)
        = Some (Returned c) ->
      exists models w1,
        run srv (batch_prologue s repr config) w = (Returned models, w1) /\
        total c = count (fun m => negb (has_invalid_id m)) models).

(** In the words of the specification: the response "parses as a JSON
    object and contains an id field equal to the record id". *)
Definition judged_success (r : reply) (model_id : pyval) : Prop :=
  exists text d v,
    r = Reply text (Some (PDict d)) /\
    dict_get "id" d = Some v /\
    py_eq v model_id = true.

(** The exchanges of one update: the first path alone when its response
    is judged a success, and otherwise one retry on the second path with
    the same payload and query; [ok] tells whether the update succeeded. *)
Definition judged_exchanges (config : configuration) (headers : list (string * string))
    (update_payload : dict) (model_id : pyval)
    (xs : list (request * reply)) (ok : bool) : Prop :=
  let first :=
    update_request config headers "/models/model/update" update_payload model_id in
  let second :=
    update_request config headers "/models/update" update_payload model_id in
  exists r1,
    (judged_success r1 model_id /\ xs = [(first, r1)] /\ ok = true)
    \/
    (~ judged_success r1 model_id /\
     exists r2,
       xs = [(first, r1); (second, r2)] /\
       (ok = true <-> judged_success r2 model_id)).

(** What the payload holds under a key the record does not have. *)
Definition payload_default (repr : pyval -> string) (model_name : pyval)
    (target k : string) : option pyval :=
  if String.eqb "name" k then Some model_name
  else if String.eqb "meta" k then Some (default_meta repr model_name target)
  else if String.eqb "params" k then Some (PDict [])
  else None.

(** ** Discovery *)


(** What the scripts accept: a list that is not empty, or a mapping with
    a models or data key, whatever its value. *)
Definition code_recognised (r : reply) : Prop :=
  exists text j,
    r = Reply text (Some j) /\
    ((exists x xs, j = PList (x :: xs)) \/
     exists d,
       j = PDict d /\ (dict_mem "models" d = true \/ dict_mem "data" d = true)).


Definition final {A : Type} (l : list A) : option A :=
  nth_error l (pred (List.length l)).

(** A search over [requests] that stops at the first recognised response:
    the requests go out in order, none follows a recognised response, and
    the search ends early only on a recognised response. *)
Definition stops_at_first (recognised : reply -> Prop) (requests : list request)
    (xs : list (request * reply)) : Prop :=
  map fst xs = firstn (List.length xs) requests
  /\ (forall i rq r,
        nth_error xs i = Some (rq, r) -> recognised r -> S i = List.length xs)
  /\ (List.length xs < List.length requests ->
      exists rq r, final xs = Some (rq, r) /\ recognised r).


(** What a recognised response contributes in [update-models.py]. *)
Definition picked (response : pyval) : pyval :=
  match response with
  | PDict d => models_or_data d
  | _ => response
  end.

(** [models_response] after the loop of [update-models.py], from the
    exchanges it made. *)
Definition found (xs : list (request * reply)) : pyval :=
  match final xs with
  | Some (_, r) =>
      if looks_like_models (returned r) then picked (returned r) else PNone
  | None => PNone
  end.

(** [models_response] after the alternatives of the batch scripts. *)
Definition last_response (before : pyval) (xs : list (request * reply)) : pyval :=
  match final xs with
  | Some (_, r) => returned r
  | None => before
  end.


(** How fetching ends on a listing of the records [xs]. *)
Definition fetched (xs : list pyval) : outcome (list pyval) :=
  match xs with
  | [] => Exited 1
  | _ :: _ => Returned xs
  end.

(** ** Whole runs *)

Definition batch_banner (s : batch_script) (config : configuration) : prog unit :=
  match s with
  | RemoteScript => Remote.banner config
  | ServersideScript => Serverside.banner config
  end.

(** The three scripts. *)
Inductive script : Type :=
| SequentialScript
| BatchScript (s : batch_script).

(** The exit status of a run and the world it leaves. *)
Definition script_run (sc : script) (repr json_dumps : pyval -> string)
    (config : configuration) (srv : server) (sched : list nat) (w : world)
  : option (Z * world) :=
  match sc with
  | SequentialScript =>
      let r := run srv (UpdateModels.update_models repr json_dumps config) w in
      Some (exit_code (fst r), snd r)
  | BatchScript s =>
      option_map (fun r => (exit_code (fst r), snd r))
        (batch_update_models s repr json_dumps config srv sched w)
  end.

(** C5 as the claim words it, for the batch scripts: the exit status is 1
    exactly on a fatal fetch failure, that is when discovery ends the run
    for want of records, and 0 in every other case. *)
Definition C5_as_stated : Prop :=
  forall (s : batch_script) (repr json_dumps : pyval -> string)
         (config : configuration) (srv : server) (sched : list nat) (w : world)
         (code : Z) (w' : world),
    script_run (BatchScript s) repr json_dumps config srv sched w
      = Some (code, w') ->
    ((exists w1, run srv (batch_prologue s repr config) w = (Exited 1, w1)) ->
     code = 1%Z)
    /\ ((forall w1, run srv (batch_prologue s repr config) w <> (Exited 1, w1)) ->
        code = 0%Z).

Definition no_models_found : level * string :=
  (ERROR, "No models found in the API response").

Definition failed_to_fetch : level * string :=
  (ERROR, "Failed to fetch models from any endpoint").


(** * Concrete inputs for the examples *)

Definition sample_repr (v : pyval) : string :=
  match v with
  | PNone => "None"
  | PBool true => "True"
  | PBool false => "False"
  | PInt _ => "<int>"
  | PStr s => s
  | PList _ => "[...]"
  | PDict _ => "{...}"
  end.

Definition sample_config : configuration :=
  {| openwebui_url := "https://chat.example.com";
     api_base_path := "/api/v1";
     target_model := "phi-4";
     api_key := "key";
     cf_access_client_id := "client";
     cf_access_client_secret := "secret";
     debug := false;
     batch_mode := true;
     max_workers := 5 |}.

Definition sequential_config : configuration :=
  {| openwebui_url := "https://chat.example.com";
     api_base_path := "/api/v1";
     target_model := "phi-4";
     api_key := "key";
     cf_access_client_id := "client";
     cf_access_client_secret := "secret";
     debug := true;
     batch_mode := false;
     max_workers := 5 |}.

Definition record_of (id name base : string) : pyval :=
  PDict [ ("id", PStr id); ("name", PStr name); ("base_model_id", PStr base);
          ("access_control", PNone) ].

(** A server that answers every listing with [body] and accepts an update,
    on either path, when the id is one of [accepted]. *)
Definition listing_server (body : pyval) (accepted : list string) : server :=
  fun _ rq =>
    match rq_verb rq with
    | GET => Reply "" (Some body)
    | POST =>
        match rq_params rq with
        | Some [(_, PStr id)] =>
            if existsb (String.eqb id) accepted
            then Reply "" (Some (PDict [("id", PStr id)]))
            else Reply "Not Found" None
        | _ => Reply "Not Found" None
        end
    end.

(** A server whose every answer is a page of text. *)
Definition text_server : server := fun _ _ => Reply "Bad Gateway" None.

(** Every task in turn, [rounds] times over. *)
Definition round_robin (n rounds : nat) : list nat :=
  List.concat (repeat (seq 0 n) rounds).

Definition three_records : pyval :=
  PList [ record_of "a" "Alpha" "phi-4";
          record_of "b" "Beta" "gpt-4o";
          record_of "c" "Gamma" "gpt-4o" ].

(** A record whose id is there and is [null]. *)
Definition null_id_record : pyval :=
  PDict [ ("id", PNone); ("name", PStr "Orphan"); ("base_model_id", PStr "phi-4") ].

(** A record without an id. *)
Definition no_id_record : pyval :=
  PDict [ ("name", PStr "Nameless"); ("base_model_id", PStr "gpt-4o") ].

(** A record already at the target of [sample_config]. *)
Definition at_target_record : pyval := record_of "a" "Alpha" "phi-4".

(** * The rest of the scripts *)

(** ** The [__main__] blocks: the configuration a run starts with

    [os.environ] is a lookup; [parser.parse_args()] hands over a namespace
    in which a flag that was not given is [None] and a [store_true] flag
    is a boolean. *)

Definition environ_get (environ : string -> option string) (k default : string)
  : string :=
  match environ k with
  | Some v => v
  | None => default
  end.

(** [if args.x: config[k] = args.x]: [None], the empty string and the
    number 0 are falsy and leave the key as it was. *)
Definition given (arg : option string) (current : string) : string :=
  match arg with
  | Some s => if String.eqb s "" then current else s
  | None => current
  end.

Definition given_int (arg : option Z) (current : Z) : Z :=
  match arg with
  | Some n => if (n =? 0)%Z then current else n
  | None => current
  end.

(** [update-models.py].  Its configuration has no [batch_mode] and no
    [max_workers] key; the script reads neither, and the two fields of the
    record are left at [false] and [0]. *)
Module UpdateModelsMain.

Record arguments : Type := mk_arguments {
  arg_url : option string;
  arg_api_path : option string;
  arg_target_model : option string;
  arg_api_key : option string;
  arg_cf_id : option string;
  arg_cf_secret : option string;
  arg_debug : bool
}.

Definition DEFAULT_CONFIG (environ : string -> option string) : configuration :=
  {| openwebui_url := "https://chat.example.com";
     api_base_path := "/api/v1";
     target_model := "openrouter.microsoft/phi-4-multimodal-instruct";
     api_key := environ_get environ "OPENWEBUI_API_KEY" "default_api_key";
     cf_access_client_id :=
       environ_get environ "CF_ACCESS_CLIENT_ID" "default_client_id";
     cf_access_client_secret :=
       environ_get environ "CF_ACCESS_CLIENT_SECRET" "default_client_secret";
     debug := false;
     batch_mode := false;
     max_workers := 0 |}.

Definition config (environ : string -> option string) (args : arguments)
  : configuration :=
  let config := DEFAULT_CONFIG environ in
  {| openwebui_url := given (arg_url args) (openwebui_url config);
     api_base_path := given (arg_api_path args) (api_base_path config);
     target_model := given (arg_target_model args) (target_model config);
     api_key := given (arg_api_key args) (api_key config);
     cf_access_client_id := given (arg_cf_id args) (cf_access_client_id config);
     cf_access_client_secret :=
       given (arg_cf_secret args) (cf_access_client_secret config);
     debug := if arg_debug args then true else debug config;
     batch_mode := batch_mode config;
     max_workers := max_workers config |}.

Definition main (repr json_dumps : pyval -> string)
    (environ : string -> option string) (args : arguments) : prog unit :=
  UpdateModels.update_models repr json_dumps (config environ args).

End UpdateModelsMain.

(** [update-remotely/batch-model-updater.py] *)
Module RemoteMain.

Record arguments : Type := mk_arguments {
  arg_url : option string;
  arg_api_path : option string;
  arg_api_key : option string;
  arg_cf_id : option string;
  arg_cf_secret : option string;
  arg_target_model : option string;
  arg_debug : bool;
  arg_no_batch : bool;
  arg_workers : option Z
}.

Definition DEFAULT_CONFIG (environ : string -> option string) : configuration :=
  {| openwebui_url := "https://chat.example.com";
     api_base_path := "/api/v1";
     target_model := "openrouter.microsoft/phi-4-multimodal-instruct";
     api_key := environ_get environ "OPENWEBUI_API_KEY" "default_api_key";
     cf_access_client_id :=
       environ_get environ "CF_ACCESS_CLIENT_ID" "default_client_id";
     cf_access_client_secret :=
       environ_get environ "CF_ACCESS_CLIENT_SECRET" "default_client_secret";
     debug := false;
     batch_mode := true;
     max_workers := 5 |}.

Definition config (environ : string -> option string) (args : arguments)
  : configuration :=
  let config := DEFAULT_CONFIG environ in
  {| openwebui_url := given (arg_url args) (openwebui_url config);
     api_base_path := given (arg_api_path args) (api_base_path config);
     target_model := given (arg_target_model args) (target_model config);
     api_key := given (arg_api_key args) (api_key config);
     cf_access_client_id := given (arg_cf_id args) (cf_access_client_id config);
     cf_access_client_secret :=
       given (arg_cf_secret args) (cf_access_client_secret config);
     debug := if arg_debug args then true else debug config;
     batch_mode := if arg_no_batch args then false else batch_mode config;
     max_workers := given_int (arg_workers args) (max_workers config) |}.

Definition main (repr json_dumps : pyval -> string)
    (environ : string -> option string) (args : arguments)
  : server -> list nat -> world -> option (outcome counters * world) :=
  Remote.update_models repr json_dumps (config environ args).

End RemoteMain.

(** [serverside-script/batch-model-updater.py].  Its configuration has no
    [target_model] key (the key is [default_target_model], and nothing
    reads it) and no [cf_access_*] keys; the fields of the record hold the
    default target and empty strings. *)
Module ServersideMain.

Record arguments : Type := mk_arguments {
  arg_url : option string;
  arg_api_path : option string;
  arg_api_key : option string;
  arg_debug : bool;
  arg_no_batch : bool;
  arg_workers : option Z
}.

Definition DEFAULT_CONFIG : configuration :=
  {| openwebui_url := "http://docker-ip-address-for-db-container-or-owui:8080";
     api_base_path := "/api/v1";
     target_model := "openrouter.google/gemini-2.5-pro-exp-03-25:free";
     api_key := "replace-with-your-key";
     cf_access_client_id := "";
     cf_access_client_secret := "";
     debug := false;
     batch_mode := true;
     max_workers := 10 |}.

Definition config (args : arguments) : configuration :=
  let config := DEFAULT_CONFIG in
  {| openwebui_url := given (arg_url args) (openwebui_url config);
     api_base_path := given (arg_api_path args) (api_base_path config);
     target_model := target_model config;
     api_key := given (arg_api_key args) (api_key config);
     cf_access_client_id := cf_access_client_id config;
     cf_access_client_secret := cf_access_client_secret config;
     debug := if arg_debug args then true else debug config;
     batch_mode := if arg_no_batch args then false else batch_mode config;
     max_workers := given_int (arg_workers args) (max_workers config) |}.

Definition main (repr : pyval -> string) (args : arguments)
  : server -> list nat -> world -> option (outcome counters * world) :=
  Serverside.update_models repr (config args).

End ServersideMain.

(** ** What a trace leaves on the console, and how long it pauses *)

Definition prints_of (evs : list event) : list (level * string) :=
  flat_map (fun e => match e with EvPrint lv msg => [(lv, msg)] | _ => [] end) evs.

Definition sleep_of (evs : list event) : nat :=
  list_sum (map (fun e => match e with EvSleep ms => ms | _ => 0 end) evs).

(** [P] holds of every effect a program can perform, whatever the server
    answers. *)
Fixpoint every {A : Type} (P : event -> Prop) (p : prog A) : Prop :=
  match p with
  | Ret _ | Exit _ | Raise _ => True
  | Http rq k => forall r, P (EvHttp rq r) /\ every P (k r)
  | Print lv msg k => P (EvPrint lv msg) /\ every P k
  | Bar ev k => P (EvBar ev) /\ every P k
  | Sleep ms k => P (EvSleep ms) /\ every P k
  end.

(** The reply in an exchange is what the server gives for the request. *)
Definition answered_by (srv : server) (e : event) : Prop :=
  match e with
  | EvHttp rq r => exists h, r = srv h rq
  | _ => True
  end.

(** What a pool has done so far, [init] being the tasks as submitted and
    [w0] the world they were submitted in: [trs] holds, task by task, the
    effects performed, [hist] the same effects in the order they happened. *)
Record pool_log (srv : server) (init : list (prog pyval)) (w0 : world)
    (st : pool) (trs : list (list event)) (hist : list event) : Prop :=
  mk_pool_log {
  log_length : List.length trs = List.length init;
  log_world : pworld st = replay hist w0;
  log_perm : Permutation hist (List.concat trs);
  log_answered : Forall (answered_by srv) hist;
  log_exec : forall i p p0 t evs o,
      nth_error (tasks st) i = Some p -> nth_error init i = Some p0 ->
      nth_error trs i = Some t ->
      exec p evs o -> exec p0 (t ++ evs) o
}.

(** ** The requests of a run *)

Definition listing_paths : list string :=
  ["/models"; "/models/"; "/models/list"; "/v1/models"].

Definition update_paths : list string :=
  ["/models/model/update"; "/models/update"].

Definition url_of (config : configuration) (endpoint : string) : string :=
  (openwebui_url config ++ api_base_path config ++ endpoint)%string.

(** A listing: a GET on a listing path, without body or query.  An update:
    a POST on an update path whose body is a record with the target as
    base model and whose query names the id of that record. *)
Definition well_formed (config : configuration) (headers : list (string * string))
    (target : string) (rq : request) : Prop :=
  rq_headers rq = headers /\
  match rq_verb rq with
  | GET =>
      In (rq_url rq) (map (url_of config) listing_paths)
      /\ rq_json rq = None /\ rq_params rq = None
  | POST =>
      In (rq_url rq) (map (url_of config) update_paths)
      /\ exists body model_id,
           rq_json rq = Some (PDict body)
           /\ rq_params rq = Some [("id", model_id)]
           /\ dict_get "id" body = Some model_id
           /\ invalid_id model_id = false
           /\ dict_get "base_model_id" body = Some (PStr target)
  end.

Definition is_get (rq : request) : bool :=
  match rq_verb rq with GET => true | POST => false end.

Definition is_post (rq : request) : bool :=
  match rq_verb rq with POST => true | GET => false end.

Definition script_headers (sc : script) (config : configuration)
  : list (string * string) :=
  match sc with
  | SequentialScript => UpdateModels.headers config
  | BatchScript s => batch_headers s config
  end.

Definition script_target (sc : script) (config : configuration) : string :=
  match sc with
  | SequentialScript => target_model config
  | BatchScript s => batch_target s config
  end.

(** A server that answers on one address only. *)
Definition only_at (url : string) (body : pyval) : server :=
  fun _ rq =>
    if String.eqb (rq_url rq) url then Reply "" (Some body)
    else NoReply "Connection refused".


(** A server that never answers. *)
Definition unreachable : server := fun _ _ => NoReply "Connection refused".

(** A server whose answer depends on the request alone. *)
Definition stateless (srv : server) : Prop :=
  forall h h' rq, srv h rq = srv h' rq.

(** ** [make_api_call], seen from outside

    What a call exchanges with the server and what it hands back: nothing
    and [None] for a method that is neither GET nor POST, one request and
    what came back for it otherwise. *)
Definition api_call_result (config : configuration) (headers : list (string * string))
    (method endpoint : string) (data : option pyval) (params : option dict)
    (xs : list (request * reply)) (o : outcome pyval) : Prop :=
  match xs with
  | [] =>
      upper method <> "GET" /\ upper method <> "POST" /\ o = Returned PNone
  | [(rq, r)] =>
      o = Returned (returned r)
      /\ rq_url rq = url_of config endpoint
      /\ rq_headers rq = headers
      /\ rq_params rq = params
      /\ ((upper method = "GET" /\ rq_verb rq = GET /\ rq_json rq = None)
          \/ (upper method = "POST" /\ rq_verb rq = POST /\ rq_json rq = data))
  | _ => False
  end.

(** The bodies that are not JSON are ASCII text. *)
Definition ascii_replies (xs : list (request * reply)) : bool :=
  forallb (fun x => match snd x with
                    | Reply text None => ascii_only text
                    | _ => true
                    end) xs.

(** A configuration with debug output on, as [--debug] gives it. *)
Definition debug_config : configuration :=
  RemoteMain.config (fun _ => None)
    (RemoteMain.mk_arguments None None None None None None true false None).

(** What a call prints: of a body that is not JSON, the first 500
    characters ([response.text[:500]]). *)
Definition api_call_console (config : configuration) (method endpoint : string)
    (xs : list (request * reply)) : list (level * string) :=
  (if debug config
   then [(DEBUG, ("Executing API call: " ++ method ++ " "
                  ++ api_base_path config ++ endpoint)%string)]
   else [])
  ++ match xs with
     | [] => [(ERROR, ("Unsupported HTTP method: " ++ method)%string)]
     | [(_, NoReply err)] => [(ERROR, ("API call failed: " ++ err)%string)]
     | [(_, Reply text None)] =>
         if debug config
         then [(DEBUG, ("Response is not JSON: " ++ substring 0 500 text)%string)]
         else []
     | _ => []
     end.

(** What every effect of a run is like: a request is well formed, a line
    at DEBUG level is printed only when the configuration asks for debug
    output, the progress bar is used in one of the ways [bar] allows, and
    a pause has one of the lengths [pause] allows. *)
Definition tidy (config : configuration) (headers : list (string * string))
    (target : string) (bar : bar_event -> Prop) (pause : nat -> Prop) (e : event)
  : Prop :=
  match e with
  | EvHttp rq _ => well_formed config headers target rq
  | EvPrint lv _ => lv = DEBUG -> debug config = true
  | EvBar ev => bar ev
  | EvSleep ms => pause ms
  end.

(** Uses of the progress bar: any, one step forward, none. *)
Definition any_use (ev : bar_event) : Prop := True.
Definition one_step (ev : bar_event) : Prop := ev = BarUpdate 1.
Definition no_use (ev : bar_event) : Prop := False.

Definition never (ms : nat) : Prop := False.

(** The pauses of the scripts: a second after an update in
    [update-models.py], half a second after a record in the sequential
    mode of [update-remotely], none elsewhere. *)
Definition batch_pause (s : batch_script) (config : configuration) (ms : nat)
  : Prop :=
  match s with
  | RemoteScript => batch_mode config = false /\ ms = 500
  | ServersideScript => False
  end.

Definition script_pause (sc : script) (config : configuration) (ms : nat) : Prop :=
  match sc with
  | SequentialScript => ms = 1000
  | BatchScript s => batch_pause s config ms
  end.

(** ** Sample runs *)

(** The run of a script on the three sample records, the update of the
    second alone being accepted, with the workers taking turns. *)
Definition sample_run (sc : script) (config : configuration) : option (Z * world) :=
  script_run sc sample_repr sample_repr config
    (listing_server three_records ["b"]) (round_robin 3 8) world0.

Definition end_of (r : option (Z * world)) : world :=
  match r with
  | Some (_, w') => w'
  | None => world0
  end.

(** ** The report at the end of a batch run *)

Definition summary_lines (repr : pyval -> string) (target : string) (c : counters)
  : list (level * string) :=
  [ (INFO, "Model update process completed");
    (INFO, ("Successfully updated: " ++ str_of_nat repr (successful_updates c)
            ++ " models")%string);
    (INFO, ("Skipped (already using target model): "
            ++ str_of_nat repr (skipped_updates c) ++ " models")%string);
    (INFO, ("Failed to update: " ++ str_of_nat repr (failed_updates c)
            ++ " models")%string);
    if (0 <? failed_updates c)%nat
    then (WARNING, "Some models could not be updated")
    else (SUCCESS, ("All applicable models have been successfully updated to use "
                    ++ target)%string) ].

Definition sample_records : list pyval :=
  [ record_of "a" "Alpha" "phi-4";
    record_of "b" "Beta" "gpt-4o";
    record_of "c" "Gamma" "gpt-4o" ].

Definition sample_server : server := listing_server three_records ["b"].

Definition sample_batch (s : batch_script) (config : configuration)
  : option (outcome counters * world) :=
  batch_update_models s sample_repr sample_repr config sample_server
    (round_robin 3 8) world0.

Definition world_of {A : Type} (r : option (A * world)) : world :=
  match r with
  | Some (_, w') => w'
  | None => world0
  end.

(** ** A record on its own

    The verdict on a record when its update runs alone against the
    server, and the counters that the verdicts of a collection add up to. *)
Definition verdict_alone (srv : server) (worker : pyval -> prog pyval)
    (target : string) (model : pyval) : verdict :=
  match fst (run srv (worker model) world0) with
  | Returned success => classify target model success
  | _ => Failed
  end.

Definition is_verdict (v v' : verdict) : bool :=
  match v, v' with
  | Updated, Updated | Skipped, Skipped | Failed, Failed => true
  | _, _ => false
  end.

Definition counters_of (verdict_of : pyval -> verdict) (models : list pyval)
  : counters :=
  {| successful_updates := count (fun m => is_verdict (verdict_of m) Updated) models;
     failed_updates := count (fun m => is_verdict (verdict_of m) Failed) models;
     skipped_updates := count (fun m => is_verdict (verdict_of m) Skipped) models |}.

(** ** The progress bar

    An effect that leaves the bar as it is or moves it forward. *)
Definition moves_only (e : event) : Prop :=
  match e with
  | EvBar (BarUpdate _) => True
  | EvBar _ => False
  | _ => True
  end.

(** An effect that is neither a request nor a use of the progress bar. *)
Definition aside (e : event) : Prop :=
  match e with
  | EvPrint _ _ | EvSleep _ => True
  | _ => False
  end.

(** A record that [update_single_model] sends to the server: one with a
    usable id whose base model is not the target. *)
Definition needs_update (target : string) (model : pyval) : bool :=
  negb (has_invalid_id model) && negb (at_target target model).

(** ** The records of a run, one by one

    What became of one record: the effects of its worker and what the
    worker returned. *)
Record record_run : Type := mk_record_run {
  rr_model : pyval;
  rr_trace : list event;
  rr_success : pyval
}.

(** The counter the collecting loop puts the record in. *)
Definition rr_verdict (target : string) (r : record_run) : verdict :=
  classify target (rr_model r) (rr_success r).

(** The counters that a collection of verdicts adds up to. *)
Definition tally_of (vs : list verdict) : counters :=
  {| successful_updates := count (fun v => is_verdict v Updated) vs;
     failed_updates := count (fun v => is_verdict v Failed) vs;
     skipped_updates := count (fun v => is_verdict v Skipped) vs |}.

(** [rs] holds the records [models], in some order, each with a complete
    run of [worker] on it, answered by [srv]. *)
Definition runs_of (srv : server) (worker : pyval -> prog pyval)
    (models : list pyval) (rs : list record_run) : Prop :=
  Permutation (map rr_model rs) models
  /\ Forall (fun r =>
               exec (worker (rr_model r)) (rr_trace r) (Returned (rr_success r))
               /\ Forall (answered_by srv) (rr_trace r)) rs.

(** * Dictionaries *)

Lemma dict_get_set_same (k : string) (v : pyval) (d : dict) :
  dict_get k (dict_set k v d) = Some v.
Proof.
  induction d as [|[k' v'] d IH]; simpl.
  - now rewrite String.eqb_refl.
  - destruct (String.eqb k k') eqn:E; simpl.
    + now rewrite String.eqb_refl.
    + now rewrite E.
Qed.

Lemma dict_get_set_other (k k' : string) (v : pyval) (d : dict) :
  k <> k' -> dict_get k' (dict_set k v d) = dict_get k' d.
Proof.
  intros Hne. induction d as [|[k0 v0] d IH]; simpl.
  - destruct (String.eqb k' k) eqn:E; [|reflexivity].
    apply String.eqb_eq in E. congruence.
  - destruct (String.eqb k k0) eqn:E; simpl.
    + apply String.eqb_eq in E. subst k0.
      destruct (String.eqb k' k) eqn:E'; [|reflexivity].
      apply String.eqb_eq in E'. congruence.
    + now rewrite IH.
Qed.

Lemma dict_mem_false (k : string) (d : dict) :
  dict_mem k d = false <-> dict_get k d = None.
Proof. unfold dict_mem. destruct (dict_get k d); split; congruence. Qed.

Lemma dict_mem_true (k : string) (d : dict) :
  dict_mem k d = true <-> exists v, dict_get k d = Some v.
Proof.
  unfold dict_mem. destruct (dict_get k d); split; try congruence; eauto.
  intros [v Hv]. discriminate.
Qed.

(** * Effect trees *)

Lemma run_bind {A B : Type} (srv : server) (p : prog A) (f : A -> prog B) (w : world) :
  run srv (bind p f) w = and_then (run srv p w) (fun a w' => run srv (f a) w').
Proof.
  revert w. induction p as [a|rq k IH|lv msg k IH|ev k IH|ms k IH|code|e];
    intros w; simpl; auto.
Qed.

Lemma exec_bind_inv {A B : Type} (p : prog A) (f : A -> prog B) evs o :
  exec (bind p f) evs o ->
  (exists a e1 e2, exec p e1 (Returned a) /\ exec (f a) e2 o /\ evs = e1 ++ e2)
  \/ (exists code, exec p evs (Exited code) /\ o = Exited code)
  \/ (exists e, exec p evs (Raised e) /\ o = Raised e).
Proof.
  revert evs. induction p as [a|rq k IH|lv msg k IH|ev k IH|ms k IH|code|e];
    intros evs H; simpl in H.
  - left. exists a, [], evs. repeat split; auto. constructor.
  - inversion H; subst.
    match goal with Hk : exec (bind (k ?r) f) _ _ |- _ =>
      destruct (IH r _ Hk) as [(a & e1 & e2 & H1 & H2 & ->)|[(c & H1 & ->)|(e & H1 & ->)]]
    end.
    + left. exists a, (EvHttp rq r :: e1), e2. repeat split; auto. now constructor.
    + right; left. exists c. split; auto. now constructor.
    + right; right. exists e. split; auto. now constructor.
  - inversion H; subst.
    match goal with Hk : exec (bind k f) _ _ |- _ =>
      destruct (IH _ Hk) as [(a & e1 & e2 & H1 & H2 & ->)|[(c & H1 & ->)|(e & H1 & ->)]]
    end.
    + left. exists a, (EvPrint lv msg :: e1), e2. repeat split; auto. now constructor.
    + right; left. exists c. split; auto. now constructor.
    + right; right. exists e. split; auto. now constructor.
  - inversion H; subst.
    match goal with Hk : exec (bind k f) _ _ |- _ =>
      destruct (IH _ Hk) as [(a & e1 & e2 & H1 & H2 & ->)|[(c & H1 & ->)|(e & H1 & ->)]]
    end.
    + left. exists a, (EvBar ev :: e1), e2. repeat split; auto. now constructor.
    + right; left. exists c. split; auto. now constructor.
    + right; right. exists e. split; auto. now constructor.
  - inversion H; subst.
    match goal with Hk : exec (bind k f) _ _ |- _ =>
      destruct (IH _ Hk) as [(a & e1 & e2 & H1 & H2 & ->)|[(c & H1 & ->)|(e & H1 & ->)]]
    end.
    + left. exists a, (EvSleep ms :: e1), e2. repeat split; auto. now constructor.
    + right; left. exists c. split; auto. now constructor.
    + right; right. exists e. split; auto. now constructor.
  - inversion H; subst. right; left. exists code. split; auto. constructor.
  - inversion H; subst. right; right. exists e. split; auto. constructor.
Qed.

Lemma run_exec {A : Type} (srv : server) (p : prog A) (w : world) :
  exists evs, exec p evs (fst (run srv p w)) /\ snd (run srv p w) = replay evs w.
Proof.
  revert w. induction p as [a|rq k IH|lv msg k IH|ev k IH|ms k IH|code|e];
    intros w; simpl.
  - exists []. split; [constructor|reflexivity].
  - destruct (IH (srv (sent w) rq) (snd (do_http srv rq w))) as (evs & H1 & H2).
    exists (EvHttp rq (srv (sent w) rq) :: evs). split; [now constructor|].
    simpl. exact H2.
  - destruct (IH (do_print lv msg w)) as (evs & H1 & H2).
    exists (EvPrint lv msg :: evs). split; [now constructor|exact H2].
  - destruct (IH (do_bar ev w)) as (evs & H1 & H2).
    exists (EvBar ev :: evs). split; [now constructor|exact H2].
  - destruct (IH (do_sleep ms w)) as (evs & H1 & H2).
    exists (EvSleep ms :: evs). split; [now constructor|exact H2].
  - exists []. split; [constructor|reflexivity].
  - exists []. split; [constructor|reflexivity].
Qed.

Lemma exchanges_of_app (e1 e2 : list event) :
  exchanges_of (e1 ++ e2) = exchanges_of e1 ++ exchanges_of e2.
Proof. unfold exchanges_of. now rewrite flat_map_app. Qed.

Lemma requests_of_app (e1 e2 : list event) :
  requests_of (e1 ++ e2) = requests_of e1 ++ requests_of e2.
Proof. unfold requests_of. now rewrite exchanges_of_app, map_app. Qed.

Lemma bar_advance_app (e1 e2 : list event) :
  bar_advance (e1 ++ e2) = bar_advance e1 + bar_advance e2.
Proof. unfold bar_advance. now rewrite map_app, list_sum_app. Qed.

Lemma exchanges_of_cons (e : event) (evs : list event) :
  exchanges_of (e :: evs) =
  match e with EvHttp rq r => [(rq, r)] | _ => [] end ++ exchanges_of evs.
Proof. reflexivity. Qed.

Lemma bar_advance_cons (e : event) (evs : list event) :
  bar_advance (e :: evs) =
  match e with EvBar (BarUpdate n) => n | _ => 0 end + bar_advance evs.
Proof. reflexivity. Qed.

Lemma exchanges_of_nil : exchanges_of [] = [].
Proof. reflexivity. Qed.

Lemma bar_advance_nil : bar_advance [] = 0.
Proof. reflexivity. Qed.

Arguments exchanges_of evs : simpl never.
Arguments bar_advance evs : simpl never.

Ltac trace_simpl :=
  repeat (rewrite exchanges_of_app || rewrite bar_advance_app
          || rewrite exchanges_of_cons || rewrite bar_advance_cons
          || rewrite exchanges_of_nil || rewrite bar_advance_nil);
  cbn [app Nat.add].

(** Inversion of a run on the head constructor of the program. *)
Ltac exec_step :=
  match goal with
  | H : exec (Ret _) _ _ |- _ => inversion H; subst; clear H
  | H : exec (Exit _) _ _ |- _ => inversion H; subst; clear H
  | H : exec (Raise _) _ _ |- _ => inversion H; subst; clear H
  | H : exec (Http _ _) _ _ |- _ => inversion H; subst; clear H
  | H : exec (Print _ _ _) _ _ |- _ => inversion H; subst; clear H
  | H : exec (Bar _ _) _ _ |- _ => inversion H; subst; clear H
  | H : exec (Sleep _ _) _ _ |- _ => inversion H; subst; clear H
  end.

Ltac exec_inv := repeat (exec_step; cbn beta iota in *).

(** * The payload of an update *)

Lemma dict_get_ensure (k k' : string) (v : pyval) (p : dict) :
  dict_get k' (ensure k v p) =
  match dict_get k' p with
  | Some x => Some x
  | None => if String.eqb k k' then Some v else None
  end.
Proof.
  unfold ensure. destruct (dict_mem k p) eqn:M.
  - destruct (dict_get k' p) eqn:G; [reflexivity|].
    destruct (String.eqb k k') eqn:E; [|reflexivity].
    apply String.eqb_eq in E. subst k'.
    apply dict_mem_true in M. destruct M as [x Hx]. congruence.
  - apply dict_mem_false in M.
    destruct (String.eqb k k') eqn:E.
    + apply String.eqb_eq in E. subst k'.
      now rewrite dict_get_set_same, M.
    + apply String.eqb_neq in E.
      rewrite (dict_get_set_other k k' v p E). now destruct (dict_get k' p).
Qed.

Lemma build_payload_ensure repr (d : dict) (model_name : pyval) (target : string) :
  build_payload repr d model_name target =
  ensure "params" (PDict [])
    (ensure "meta" (default_meta repr model_name target)
       (ensure "name" model_name (dict_set "base_model_id" (PStr target) d))).
Proof. reflexivity. Qed.

(** Every lookup in the payload, in terms of the record. *)
Lemma build_payload_lookup repr (d : dict) (model_name : pyval) (target k : string) :
  dict_get k (build_payload repr d model_name target) =
  if String.eqb "base_model_id" k then Some (PStr target) else
  match dict_get k d with
  | Some v => Some v
  | None =>
      if String.eqb "name" k then Some model_name
      else if String.eqb "meta" k then Some (default_meta repr model_name target)
      else if String.eqb "params" k then Some (PDict [])
      else None
  end.
Proof.
  rewrite build_payload_ensure, !dict_get_ensure.
  destruct (String.eqb "base_model_id" k) eqn:E.
  - apply String.eqb_eq in E. subst k. now rewrite dict_get_set_same.
  - apply String.eqb_neq in E.
    rewrite (dict_get_set_other _ _ (PStr target) d E).
    destruct (dict_get k d); [reflexivity|].
    destruct (String.eqb "name" k); [reflexivity|].
    destruct (String.eqb "meta" k); [reflexivity|].
    destruct (String.eqb "params" k); reflexivity.
Qed.

(** * [make_api_call] *)

Lemma upper_POST : upper "POST" = "POST".
Proof. reflexivity. Qed.

Lemma upper_GET : upper "GET" = "GET".
Proof. reflexivity. Qed.

Lemma exec_decode_batch config (r : reply) evs o :
  exec (Batch.decode config r) evs o ->
  o = Returned (returned r) /\ exchanges_of evs = [] /\ bar_advance evs = 0.
Proof.
  unfold Batch.decode, Batch.log.
  destruct r as [err|text [j|]]; simpl; [| |destruct (debug config); simpl];
    intros H; exec_inv; trace_simpl; auto.
Qed.

Lemma exec_make_api_call_post config hs endpoint data params evs o :
  exec (Batch.make_api_call config hs "POST" endpoint data params) evs o ->
  exists r,
    o = Returned (returned r) /\
    exchanges_of evs =
      [(mk_request POST
          (openwebui_url config ++ api_base_path config ++ endpoint)%string hs
          data params, r)] /\
    bar_advance evs = 0.
Proof.
  unfold Batch.make_api_call. rewrite upper_POST.
  change (String.eqb "POST" "GET") with false.
  change (String.eqb "POST" "POST") with true.
  unfold Batch.log. cbv iota.
  destruct (debug config); simpl; intros H; exec_inv;
    match goal with Hd : exec (Batch.decode _ ?r) _ _ |- _ =>
      apply exec_decode_batch in Hd; destruct Hd as (-> & Hx & Hb); exists r
    end; trace_simpl; rewrite ?Hx, ?Hb; auto.
Qed.

Lemma exec_make_api_call_get config hs endpoint evs o :
  exec (Batch.make_api_call config hs "GET" endpoint None None) evs o ->
  exists r,
    o = Returned (returned r) /\
    exchanges_of evs = [(listing_request config hs endpoint, r)] /\
    bar_advance evs = 0.
Proof.
  unfold Batch.make_api_call. rewrite upper_GET.
  change (String.eqb "GET" "GET") with true.
  unfold Batch.log. cbv iota.
  destruct (debug config); simpl; intros H; exec_inv;
    match goal with Hd : exec (Batch.decode _ ?r) _ _ |- _ =>
      apply exec_decode_batch in Hd; destruct Hd as (-> & Hx & Hb); exists r
    end; trace_simpl; rewrite ?Hx, ?Hb; auto.
Qed.

Lemma exec_trace {A : Type} (srv : server) (p : prog A) (w : world) :
  exec p (trace srv p w) (fst (run srv p w)).
Proof.
  revert w. induction p as [a|rq k IH|lv msg k IH|ev k IH|ms k IH|code|e];
    intros w; simpl; try constructor; auto.
Qed.

Lemma sent_replay (evs : list event) (w : world) :
  sent (replay evs w) = sent w ++ requests_of evs.
Proof.
  revert w. induction evs as [|e evs IH]; intros w; simpl.
  - now rewrite app_nil_r.
  - unfold replay in IH. rewrite IH.
    unfold requests_of. rewrite exchanges_of_cons.
    destruct e as [rq r|lv msg|[total|n|]|ms]; simpl; auto.
    now rewrite <- app_assoc.
Qed.

(** * One record in the batch scripts *)

Arguments Batch.make_api_call : simpl never.

Lemma exec_dispatch config hs (update_payload : dict) (model_id : pyval) evs o :
  exec (update_response <-
          Batch.make_api_call config hs "POST" "/models/model/update"
            (Some (PDict update_payload)) (Some [("id", model_id)]) ;;
        update_response <-
          (if negb (truthy (update_check update_response model_id)) then
             Batch.make_api_call config hs "POST" "/models/update"
               (Some (PDict update_payload)) (Some [("id", model_id)])
           else Ret update_response) ;;
        Bar (BarUpdate 1) (Ret (update_check update_response model_id))) evs o ->
  exists result,
    o = Returned result /\
    dispatch_trace config hs update_payload model_id (exchanges_of evs) result /\
    bar_advance evs = 1.
Proof.
  intros H.
  apply exec_bind_inv in H.
  destruct H as [(a & e1 & e2 & H1 & H2 & ->)|[(c & H1 & _)|(e & H1 & _)]];
    apply exec_make_api_call_post in H1; destruct H1 as (r1 & Ho & Hx1 & Hb1);
    try discriminate.
  injection Ho as ->.
  destruct (truthy (update_check (returned r1) model_id)) eqn:Hok; cbn [negb] in H2.
  - cbn [bind] in H2. exec_inv.
    exists (update_check (returned r1) model_id). split; [reflexivity|].
    trace_simpl. rewrite Hx1, Hb1. split; [|reflexivity].
    exists r1. left. auto.
  - apply exec_bind_inv in H2.
    destruct H2 as [(a & e3 & e4 & H3 & H4 & ->)|[(c & H3 & _)|(e & H3 & _)]];
      apply exec_make_api_call_post in H3; destruct H3 as (r2 & Ho & Hx2 & Hb2);
      try discriminate.
    injection Ho as ->. exec_inv.
    exists (update_check (returned r2) model_id). split; [reflexivity|].
    trace_simpl. rewrite Hx1, Hb1, Hx2, Hb2. split; [|reflexivity].
    exists r1. right. split; [assumption|]. exists r2. auto.
Qed.

Section RemoteWorker.

Variable repr : pyval -> string.
Variable json_dumps : pyval -> string.
Variable config : configuration.

Let usm := Remote.update_single_model repr json_dumps config.

(** A record without a usable id: the bar moves, nothing else happens. *)
Lemma remote_worker_invalid (d : dict) :
  invalid_id (get_default "id" (PStr "unknown") d) = true ->
  usm (PDict d) = Bar (BarUpdate 1) (Ret (PBool false)).
Proof.
  intros H. unfold usm, Remote.update_single_model. cbn [py_get bind].
  now rewrite H.
Qed.

(** A record with an id that is already at the target. *)
Lemma remote_worker_at_target (d : dict) :
  invalid_id (get_default "id" (PStr "unknown") d) = false ->
  py_eq (get_default "base_model_id" (PStr "unknown") d)
        (PStr (target_model config)) = true ->
  usm (PDict d) = Bar (BarUpdate 1) (Ret (PBool true)).
Proof.
  intros H1 H2. unfold usm, Remote.update_single_model. cbn [py_get bind].
  now rewrite H1, H2.
Qed.

(** Any other record is dispatched. *)
Lemma remote_worker_dispatch (d : dict) evs o :
  invalid_id (get_default "id" (PStr "unknown") d) = false ->
  py_eq (get_default "base_model_id" (PStr "unknown") d)
        (PStr (target_model config)) = false ->
  exec (usm (PDict d)) evs o ->
  exists result,
    o = Returned result /\
    dispatch_trace config (Remote.headers config)
      (build_payload repr d (get_default "name" (PStr "unknown") d)
         (target_model config))
      (get_default "id" (PStr "unknown") d) (exchanges_of evs) result /\
    bar_advance evs = 1.
Proof.
  intros H1 H2. unfold usm, Remote.update_single_model, Remote.make_api_call,
    Remote.log, Batch.log.
  cbn [py_get py_copy bind]. rewrite H1, H2.
  destruct (debug config); cbn [py_copy bind]; intros H.
  - exec_inv.
    match goal with Hd : exec _ _ _ |- _ =>
      apply exec_dispatch in Hd; destruct Hd as (result & -> & Ht & Hb)
    end.
    exists result. trace_simpl. auto.
  - apply exec_dispatch in H. exact H.
Qed.

(** A record that is not a mapping makes the worker raise. *)
Lemma remote_worker_not_dict (model : pyval) :
  is_dict model = false ->
  exists e, usm model = Raise e.
Proof.
  intros H. unfold usm, Remote.update_single_model.
  destruct model; try discriminate; cbn [py_get bind]; eauto.
Qed.

End RemoteWorker.

Section ServersideWorker.

Variable repr : pyval -> string.
Variable config : configuration.
Variable target : string.

Let usm := Serverside.update_single_model repr config target.

Lemma serverside_worker_invalid (d : dict) :
  invalid_id (get_default "id" (PStr "unknown") d) = true ->
  usm (PDict d) = Bar (BarUpdate 1) (Ret (PBool false)).
Proof.
  intros H. unfold usm, Serverside.update_single_model. cbn [py_get bind].
  now rewrite H.
Qed.

Lemma serverside_worker_at_target (d : dict) :
  invalid_id (get_default "id" (PStr "unknown") d) = false ->
  py_eq (get_default "base_model_id" (PStr "unknown") d) (PStr target) = true ->
  usm (PDict d) = Bar (BarUpdate 1) (Ret (PBool true)).
Proof.
  intros H1 H2. unfold usm, Serverside.update_single_model. cbn [py_get bind].
  now rewrite H1, H2.
Qed.

Lemma serverside_worker_dispatch (d : dict) evs o :
  invalid_id (get_default "id" (PStr "unknown") d) = false ->
  py_eq (get_default "base_model_id" (PStr "unknown") d) (PStr target) = false ->
  exec (usm (PDict d)) evs o ->
  exists result,
    o = Returned result /\
    dispatch_trace config (Serverside.headers config)
      (build_payload repr d (get_default "name" (PStr "unknown") d) target)
      (get_default "id" (PStr "unknown") d) (exchanges_of evs) result /\
    bar_advance evs = 1.
Proof.
  intros H1 H2. unfold usm, Serverside.update_single_model,
    Serverside.make_api_call.
  cbn [py_get py_copy bind]. rewrite H1, H2. cbn [py_copy bind].
  apply exec_dispatch.
Qed.

Lemma serverside_worker_not_dict (model : pyval) :
  is_dict model = false ->
  exists e, usm model = Raise e.
Proof.
  intros H. unfold usm, Serverside.update_single_model.
  destruct model; try discriminate; cbn [py_get bind]; eauto.
Qed.

End ServersideWorker.

(** * One record in [update-models.py] *)

Section SequentialScript.

Variable repr : pyval -> string.
Variable json_dumps : pyval -> string.
Variable config : configuration.

Lemma exec_decode_seq (r : reply) evs o :
  exec (UpdateModels.decode config r) evs o ->
  o = Returned (returned r) /\ exchanges_of evs = [] /\ bar_advance evs = 0.
Proof.
  unfold UpdateModels.decode, UpdateModels.log.
  destruct r as [err|text [j|]]; simpl; [| |destruct (debug config); simpl];
    intros H; exec_inv; trace_simpl; auto.
Qed.

Lemma exec_seq_post endpoint data params evs o :
  exec (UpdateModels.make_api_call config "POST" endpoint data params) evs o ->
  exists r,
    o = Returned (returned r) /\
    exchanges_of evs =
      [(mk_request POST
          (openwebui_url config ++ api_base_path config ++ endpoint)%string
          (UpdateModels.headers config) data params, r)] /\
    bar_advance evs = 0.
Proof.
  unfold UpdateModels.make_api_call. rewrite upper_POST.
  change (String.eqb "POST" "GET") with false.
  change (String.eqb "POST" "POST") with true.
  unfold UpdateModels.log. cbv iota.
  destruct (debug config); simpl; intros H; exec_inv;
    match goal with Hd : exec (UpdateModels.decode _ ?r) _ _ |- _ =>
      apply exec_decode_seq in Hd; destruct Hd as (-> & Hx & Hb); exists r
    end; trace_simpl; rewrite ?Hx, ?Hb; auto.
Qed.

Lemma exec_seq_get endpoint evs o :
  exec (UpdateModels.make_api_call config "GET" endpoint None None) evs o ->
  exists r,
    o = Returned (returned r) /\
    exchanges_of evs =
      [(listing_request config (UpdateModels.headers config) endpoint, r)] /\
    bar_advance evs = 0.
Proof.
  unfold UpdateModels.make_api_call. rewrite upper_GET.
  change (String.eqb "GET" "GET") with true.
  unfold UpdateModels.log. cbv iota.
  destruct (debug config); simpl; intros H; exec_inv;
    match goal with Hd : exec (UpdateModels.decode _ ?r) _ _ |- _ =>
      apply exec_decode_seq in Hd; destruct Hd as (-> & Hx & Hb); exists r
    end; trace_simpl; rewrite ?Hx, ?Hb; auto.
Qed.

Lemma exec_log (lv : level) (msg : string) evs (o : outcome unit) :
  exec (UpdateModels.log config lv msg) evs o ->
  o = Returned tt /\ exchanges_of evs = [] /\ bar_advance evs = 0.
Proof.
  unfold UpdateModels.log.
  destruct lv; try destruct (debug config); intros H; exec_inv; trace_simpl; auto.
Qed.

Arguments UpdateModels.make_api_call : simpl never.
Arguments UpdateModels.log : simpl never.

(** The loop over the two update paths. *)
Lemma exec_try_update (update_payload : dict) (model_id model_name : pyval)
    (n : nat) evs o :
  exec (UpdateModels.try_update repr json_dumps config
          UpdateModels.update_endpoints update_payload model_id model_name n)
       evs o ->
  exists result,
    dispatch_trace config (UpdateModels.headers config) update_payload model_id
      (exchanges_of evs) result /\
    o = Returned (if truthy result then S n else n, truthy result).
Proof.
  unfold UpdateModels.update_endpoints. cbn [UpdateModels.try_update].
  intros H.
  apply exec_bind_inv in H.
  destruct H as [(a & e1 & e2 & H1 & H2 & ->)|[(c & H1 & _)|(e & H1 & _)]];
    apply exec_seq_post in H1; destruct H1 as (r1 & Ho & Hx1 & Hb1);
    try discriminate.
  injection Ho as ->.
  apply exec_bind_inv in H2.
  destruct H2 as [(a & e3 & e4 & H3 & H4 & ->)|[(c & H3 & _)|(e & H3 & _)]];
    apply exec_log in H3; destruct H3 as (? & Hx3 & Hb3); try discriminate.
  destruct (truthy (update_check (returned r1) model_id)) eqn:Hok.
  - apply exec_bind_inv in H4.
    destruct H4 as [(? & e5 & e6 & H5 & H6 & ->)|[(c & H5 & _)|(e & H5 & _)]];
      apply exec_log in H5; destruct H5 as (? & Hx5 & Hb5); try discriminate.
    exec_inv. exists (update_check (returned r1) model_id).
    rewrite Hok. split; [|reflexivity].
    trace_simpl. rewrite Hx1, Hx3, Hx5. exists r1. left. auto.
  - apply exec_bind_inv in H4.
    destruct H4 as [(? & e5 & e6 & H5 & H6 & ->)|[(c & H5 & _)|(e & H5 & _)]];
      apply exec_seq_post in H5; destruct H5 as (r2 & Ho' & Hx5 & Hb5);
      try discriminate.
    injection Ho' as ->.
    apply exec_bind_inv in H6.
    destruct H6 as [(? & e7 & e8 & H7 & H8 & ->)|[(c & H7 & _)|(e & H7 & _)]];
      apply exec_log in H7; destruct H7 as (? & Hx7 & Hb7); try discriminate.
    exists (update_check (returned r2) model_id).
    assert (Hx : exchanges_of (e1 ++ e3 ++ e5 ++ e7 ++ e8) =
                 [(update_request config (UpdateModels.headers config)
                     "/models/model/update" update_payload model_id, r1);
                  (update_request config (UpdateModels.headers config)
                     "/models/update" update_payload model_id, r2)]
                 ++ exchanges_of e8).
    { trace_simpl. rewrite Hx1, Hx3, Hx5, Hx7. reflexivity. }
    destruct (truthy (update_check (returned r2) model_id)) eqn:Hok2.
    + apply exec_bind_inv in H8.
      destruct H8 as [(? & e9 & e10 & H9 & H10 & ->)|[(c & H9 & _)|(e & H9 & _)]];
        apply exec_log in H9; destruct H9 as (? & Hx9 & Hb9); try discriminate.
      exec_inv. split; [|reflexivity].
      rewrite Hx. trace_simpl. rewrite Hx9.
      exists r1. right. split; [assumption|]. exists r2. auto.
    + exec_inv. split; [|reflexivity].
      rewrite Hx. trace_simpl.
      exists r1. right. split; [assumption|]. exists r2. auto.
Qed.

End SequentialScript.

(** * The worker pool *)

Lemma set_nth_length {A : Type} (i : nat) (x : A) (l : list A) :
  List.length (set_nth i x l) = List.length l.
Proof.
  revert i. induction l as [|y l IH]; intros [|i]; simpl; auto.
Qed.

Lemma nth_error_set_nth_same {A : Type} (i : nat) (x y : A) (l : list A) :
  nth_error l i = Some y -> nth_error (set_nth i x l) i = Some x.
Proof.
  revert i. induction l as [|z l IH]; intros [|i]; simpl; try discriminate; auto.
Qed.

Lemma nth_error_set_nth_other {A : Type} (i j : nat) (x : A) (l : list A) :
  i <> j -> nth_error (set_nth i x l) j = nth_error l j.
Proof.
  revert i j. induction l as [|z l IH]; intros [|i] [|j] H; simpl; auto;
    try congruence.
Qed.

Lemma is_finished_In (i : nat) (st : pool) :
  is_finished i st = true <-> In i (finished st).
Proof.
  unfold is_finished. rewrite existsb_exists. split.
  - intros (j & Hj & E). apply Nat.eqb_eq in E. now subst.
  - intros H. exists i. split; [assumption|apply Nat.eqb_refl].
Qed.

Lemma task_step_exec {A : Type} (srv : server) (p p' : prog A) (w w' : world) evs o :
  task_step srv p w = Some (p', w') -> exec p' evs o ->
  exists e, exec p (e :: evs) o.
Proof.
  destruct p; simpl; intros H; try discriminate; injection H as <- <-; intros H.
  - exists (EvHttp rq (srv (sent w) rq)). now apply exec_http.
  - exists (EvPrint lv msg). now apply exec_print.
  - exists (EvBar ev). now apply exec_bar.
  - exists (EvSleep ms). now apply exec_sleep.
Qed.

Lemma task_step_none {A : Type} (srv : server) (p : prog A) (w : world) :
  task_step srv p w = None -> outcome_of p <> None.
Proof. destruct p; simpl; intros H; discriminate. Qed.

Lemma outcome_of_exec {A : Type} (p : prog A) (o : outcome A) :
  outcome_of p = Some o -> exec p [] o.
Proof.
  destruct p; simpl; intros H; try discriminate; injection H as <-; constructor.
Qed.

Lemma pool_ok_init (init : list (prog pyval)) (w : world) :
  pool_ok init {| tasks := init; finished := []; pworld := w |}.
Proof.
  constructor; simpl.
  - reflexivity.
  - constructor.
  - intros i [].
  - intros i p [].
  - intros i p p0 evs o H1 H2 H. exists []. rewrite H1 in H2.
    injection H2 as <-. exact H.
Qed.

Lemma pool_step_ok (srv : server) (workers : nat) (init : list (prog pyval))
    (st : pool) (i : nat) :
  pool_ok init st -> pool_ok init (pool_step srv workers st i).
Proof.
  intros [Hlen Hnd Hbd Hdone Hexec]. unfold pool_step.
  destruct (may_run workers i st) eqn:Hrun; [|now constructor].
  destruct (nth_error (tasks st) i) as [p|] eqn:Hp; [|now constructor].
  assert (Hnot : ~ In i (finished st)).
  { intros Hin. apply is_finished_In in Hin. unfold may_run in Hrun.
    rewrite Hin in Hrun. discriminate. }
  destruct (task_step srv p (pworld st)) as [[p' w']|] eqn:Hstep.
  - constructor; simpl.
    + now rewrite set_nth_length.
    + assumption.
    + assumption.
    + intros j q Hj Hq. apply (Hdone j q Hj).
      rewrite nth_error_set_nth_other in Hq; [assumption|].
      intros ->. contradiction.
    + intros j q q0 evs o Hq Hq0 Hex.
      destruct (Nat.eq_dec i j) as [->|Hne].
      * rewrite (nth_error_set_nth_same j p' p _ Hp) in Hq. injection Hq as <-.
        destruct (task_step_exec srv p p' _ _ evs o Hstep Hex) as (e & He).
        destruct (Hexec j p q0 _ o Hp Hq0 He) as (before & Hb).
        exists (before ++ [e]). now rewrite <- app_assoc.
      * rewrite (nth_error_set_nth_other i j p' _ Hne) in Hq. eauto.
  - constructor; simpl.
    + assumption.
    + apply NoDup_app_remove_l with (l := []). simpl.
      apply Permutation_NoDup with (l := i :: finished st).
      * apply Permutation_cons_append.
      * now constructor.
    + intros j Hj. apply in_app_or in Hj. destruct Hj as [Hj|[<-|[]]]; auto.
      rewrite <- Hlen. apply nth_error_Some. congruence.
    + intros j q Hj Hq. apply in_app_or in Hj. destruct Hj as [Hj|[<-|[]]]; eauto.
      rewrite Hp in Hq. injection Hq as <-. eapply task_step_none; eauto.
    + assumption.
Qed.

Lemma pool_run_ok (srv : server) (workers : nat) (init : list (prog pyval))
    (sched : list nat) (st : pool) :
  pool_ok init st -> pool_ok init (pool_run srv workers sched st).
Proof.
  revert st. induction sched as [|i sched IH]; intros st H; simpl; auto.
  apply IH. now apply pool_step_ok.
Qed.

(** Once the pool is drained the futures are the tasks, each once. *)
Lemma drained_permutation (init : list (prog pyval)) (st : pool) :
  pool_ok init st -> drained st = true ->
  Permutation (finished st) (seq 0 (List.length init)).
Proof.
  intros [Hlen Hnd Hbd _ _] Hd. unfold drained in Hd. apply Nat.eqb_eq in Hd.
  apply NoDup_Permutation_bis; auto.
  - rewrite length_seq. lia.
  - intros i Hi. apply in_seq. specialize (Hbd i Hi). lia.
Qed.

Lemma map_nth_seq {A : Type} (d : A) (l : list A) :
  map (fun i => nth i l d) (seq 0 (List.length l)) = l.
Proof.
  induction l as [|x l IH]; simpl; [reflexivity|].
  f_equal. rewrite <- seq_shift, map_map. exact IH.
Qed.

Lemma count_permutation {A : Type} (f : A -> bool) (l l' : list A) :
  Permutation l l' -> count f l = count f l'.
Proof.
  unfold count. induction 1; simpl; auto.
  - destruct (f x); simpl; congruence.
  - destruct (f x), (f y); reflexivity.
  - congruence.
Qed.

(** The futures handed to the collecting loop, for a list [l] of finished
    tasks. *)
Lemma futures_of_finished (worker : pyval -> prog pyval) (models : list pyval)
    (st : pool) (l : list nat) :
  pool_ok (map worker models) st ->
  (forall i, In i l -> In i (finished st)) ->
  map fst (flat_map (future_of models st) l) = map (fun i => nth i models PNone) l /\
  Forall (fun mo => exists evs, exec (worker (fst mo)) evs (snd mo))
         (flat_map (future_of models st) l).
Proof.
  intros Hok. induction l as [|i l IH]; intros Hin; simpl.
  - split; [reflexivity|constructor].
  - destruct IH as [IH1 IH2]; [intros j Hj; apply Hin; now right|].
    assert (Hi : In i (finished st)) by (apply Hin; now left).
    pose proof (ok_bound _ _ Hok i Hi) as Hlt. rewrite length_map in Hlt.
    destruct (nth_error models i) as [m|] eqn:Hm;
      [|apply nth_error_None in Hm; lia].
    destruct (nth_error (tasks st) i) as [p|] eqn:Hp;
      [|apply nth_error_None in Hp; rewrite (ok_length _ _ Hok), length_map in Hp; lia].
    unfold future_of at 1 3. rewrite Hm, Hp.
    destruct (outcome_of p) as [o|] eqn:Ho;
      [|exfalso; exact (ok_done _ _ Hok i p Hi Hp Ho)].
    simpl. split.
    + f_equal; [|exact IH1]. symmetry. now apply nth_error_nth.
    + constructor; [|exact IH2]. simpl.
      assert (Hw : nth_error (map worker models) i = Some (worker m))
        by (rewrite nth_error_map, Hm; reflexivity).
      destruct (ok_exec _ _ Hok i p (worker m) [] o Hp Hw (outcome_of_exec p o Ho))
        as (before & Hb).
      exists (before ++ []). exact Hb.
Qed.

Lemma as_completed_spec (worker : pyval -> prog pyval) (models : list pyval)
    (st : pool) :
  pool_ok (map worker models) st -> drained st = true ->
  Permutation (map fst (as_completed models st)) models /\
  Forall (fun mo => exists evs, exec (worker (fst mo)) evs (snd mo))
         (as_completed models st).
Proof.
  intros Hok Hd. unfold as_completed.
  destruct (futures_of_finished worker models st (finished st) Hok) as [H1 H2];
    [auto|].
  split; [|exact H2]. rewrite H1.
  pose proof (drained_permutation _ _ Hok Hd) as Hp.
  rewrite length_map in Hp.
  eapply Permutation_trans; [apply Permutation_map, Hp|].
  now rewrite map_nth_seq.
Qed.

(** * The collecting loop and the counters *)

Lemma exec_try_except_inv {A : Type} (p : prog A) (h : exn -> prog A) evs o :
  exec (try_except p h) evs o ->
  (exec p evs o /\ forall e, o <> Raised e)
  \/ (exists e e1 e2, exec p e1 (Raised e) /\ exec (h e) e2 o /\ evs = e1 ++ e2).
Proof.
  revert evs. induction p as [a|rq k IH|lv msg k IH|ev k IH|ms k IH|code|e];
    intros evs H; simpl in H.
  - inversion H; subst. left. split; [constructor|discriminate].
  - inversion H; subst.
    match goal with Hk : exec (try_except (k ?r) h) _ _ |- _ =>
      destruct (IH r _ Hk) as [[H1 H2]|(e & e1 & e2 & H1 & H2 & ->)]
    end.
    + left. split; [now constructor|assumption].
    + right. exists e, (EvHttp rq r :: e1), e2. repeat split; auto. now constructor.
  - inversion H; subst.
    match goal with Hk : exec (try_except k h) _ _ |- _ =>
      destruct (IH _ Hk) as [[H1 H2]|(e & e1 & e2 & H1 & H2 & ->)]
    end.
    + left. split; [now constructor|assumption].
    + right. exists e, (EvPrint lv msg :: e1), e2. repeat split; auto.
      now constructor.
  - inversion H; subst.
    match goal with Hk : exec (try_except k h) _ _ |- _ =>
      destruct (IH _ Hk) as [[H1 H2]|(e & e1 & e2 & H1 & H2 & ->)]
    end.
    + left. split; [now constructor|assumption].
    + right. exists e, (EvBar ev :: e1), e2. repeat split; auto. now constructor.
  - inversion H; subst.
    match goal with Hk : exec (try_except k h) _ _ |- _ =>
      destruct (IH _ Hk) as [[H1 H2]|(e & e1 & e2 & H1 & H2 & ->)]
    end.
    + left. split; [now constructor|assumption].
    + right. exists e, (EvSleep ms :: e1), e2. repeat split; auto. now constructor.
  - inversion H; subst. left. split; [constructor|discriminate].
  - right. exists e, [], evs. repeat split; auto. constructor.
Qed.

Lemma total_bump (v : verdict) (c : counters) : total (bump v c) = total c + 1.
Proof. destruct v; unfold total; simpl; lia. Qed.

Section Collector.

Variable repr : pyval -> string.
Variable config : configuration.
Variable target : string.
Variable worker : pyval -> prog pyval.
Hypothesis worker_ok : worker_sound target worker.

Let collect := Batch.collect repr config target.
Let tally := Batch.tally target.

Lemma tally_dict (d : dict) (success : pyval) (c : counters) :
  tally (PDict d) success c = Ret (bump (classify target (PDict d) success) c).
Proof.
  unfold tally, Batch.tally, classify, at_target. cbn [py_get bind].
  destruct (truthy success); [reflexivity|].
  destruct (py_eq _ _); reflexivity.
Qed.

Lemma collect_cons_returned (d : dict) (v : pyval)
    (rest : list (pyval * outcome pyval)) (c : counters) :
  collect ((PDict d, Returned v) :: rest) c =
  collect rest (bump (classify target (PDict d) v) c).
Proof.
  unfold collect. cbn [Batch.collect py_get bind future_result].
  fold (tally (PDict d) v c). rewrite tally_dict. reflexivity.
Qed.

(** How a verdict moves the counters, given what a worker returns. *)
Lemma verdict_counts (d : dict) (v : pyval) (c : counters) :
  (has_invalid_id (PDict d) = true -> v = PBool false) ->
  (has_invalid_id (PDict d) = false -> at_target target (PDict d) = true ->
   v = PBool true) ->
  let c' := bump (classify target (PDict d) v) c in
  skipped_updates c' =
    skipped_updates c
    + (if has_invalid_id (PDict d) && at_target target (PDict d) then 1 else 0)
  /\ successful_updates c
     + (if negb (has_invalid_id (PDict d)) && at_target target (PDict d)
        then 1 else 0) <= successful_updates c'
  /\ failed_updates c
     + (if has_invalid_id (PDict d) && negb (at_target target (PDict d))
        then 1 else 0) <= failed_updates c'.
Proof.
  intros H1 H2. unfold classify.
  destruct (has_invalid_id (PDict d)) eqn:Hi.
  - rewrite (H1 eq_refl). cbn [truthy].
    destruct (at_target target (PDict d)); simpl; lia.
  - destruct (at_target target (PDict d)) eqn:Ha.
    + rewrite (H2 eq_refl eq_refl). simpl. lia.
    + destruct (truthy v); simpl; lia.
Qed.

Lemma count_cons {A : Type} (f : A -> bool) (x : A) (l : list A) :
  count f (x :: l) = (if f x then 1 else 0) + count f l.
Proof. unfold count. simpl. now destruct (f x). Qed.

Lemma exec_collect (fs : list (pyval * outcome pyval)) (c c' : counters) evs :
  Forall (fun mo => exists evs, exec (worker (fst mo)) evs (snd mo)) fs ->
  exec (collect fs c) evs (Returned c') ->
  Forall (fun m => is_dict m = true) (map fst fs)
  /\ exchanges_of evs = []
  /\ total c' = total c + List.length fs
  /\ skipped_updates c' =
       skipped_updates c
       + count (fun m => has_invalid_id m && at_target target m) (map fst fs)
  /\ successful_updates c
     + count (fun m => negb (has_invalid_id m) && at_target target m) (map fst fs)
     <= successful_updates c'
  /\ failed_updates c
     + count (fun m => has_invalid_id m && negb (at_target target m)) (map fst fs)
     <= failed_updates c'.
Proof.
  intros Hfs. revert c evs. induction Hfs as [|[m o] fs Hm Hfs IH]; intros c evs H.
  - unfold collect in H. simpl in H. inversion H; subst.
    repeat split; simpl; auto; unfold count; simpl; lia.
  - destruct m as [| | | | |d];
      try (unfold collect in H; cbn [Batch.collect py_get bind] in H;
           inversion H; fail).
    destruct Hm as (wevs & Hw). simpl in Hw.
    destruct (worker_ok d wevs o Hw) as (v & -> & Hv1 & Hv2).
    rewrite collect_cons_returned in H.
    destruct (IH _ _ H) as (I1 & I2 & I3 & I4 & I5 & I6).
    destruct (verdict_counts d v c Hv1 Hv2) as (V1 & V2 & V3).
    rewrite total_bump in I3.
    cbn [map fst List.length]. rewrite !count_cons.
    repeat split; auto; try lia.
Qed.

Lemma exec_summary (c : counters) evs o :
  exec (Batch.summary repr config target c) evs o ->
  o = Returned c /\ exchanges_of evs = [].
Proof.
  unfold Batch.summary, Batch.log. cbn [bind].
  destruct (0 <? failed_updates c)%nat; cbn [bind]; intros H; exec_inv;
    trace_simpl; auto.
Qed.

End Collector.

Lemma run_outcome {A : Type} (srv : server) (p : prog A) (w : world) (a : A) :
  (forall evs o, exec p evs o -> o = Returned a) ->
  fst (run srv p w) = Returned a.
Proof.
  intros H. destruct (run_exec srv p w) as (evs & He & _). exact (H _ _ He).
Qed.

(** * The workers of the two batch scripts are sound *)

Lemma remote_worker_sound repr json_dumps config :
  worker_sound (target_model config)
    (Remote.update_single_model repr json_dumps config).
Proof.
  intros d evs o H. unfold has_invalid_id, at_target.
  destruct (invalid_id (get_default "id" (PStr "unknown") d)) eqn:Hi.
  - rewrite (remote_worker_invalid _ _ _ d Hi) in H. exec_inv.
    exists (PBool false). repeat split; auto. discriminate.
  - destruct (py_eq (get_default "base_model_id" (PStr "unknown") d)
                (PStr (target_model config))) eqn:Ha.
    + rewrite (remote_worker_at_target _ _ _ d Hi Ha) in H. exec_inv.
      exists (PBool true). repeat split; auto. discriminate.
    + destruct (remote_worker_dispatch _ _ _ d evs o Hi Ha H) as (v & -> & _).
      exists v. repeat split; discriminate.
Qed.

Lemma serverside_worker_sound repr config target :
  worker_sound target (Serverside.update_single_model repr config target).
Proof.
  intros d evs o H. unfold has_invalid_id, at_target.
  destruct (invalid_id (get_default "id" (PStr "unknown") d)) eqn:Hi.
  - rewrite (serverside_worker_invalid _ _ _ d Hi) in H. exec_inv.
    exists (PBool false). repeat split; auto. discriminate.
  - destruct (py_eq (get_default "base_model_id" (PStr "unknown") d)
                (PStr target)) eqn:Ha.
    + rewrite (serverside_worker_at_target _ _ _ d Hi Ha) in H. exec_inv.
      exists (PBool true). repeat split; auto. discriminate.
    + destruct (serverside_worker_dispatch _ _ _ d evs o Hi Ha H) as (v & -> & _).
      exists v. repeat split; discriminate.
Qed.

(** * The sequential mode of [update-remotely] *)

Section RemoteSequential.

Variable repr : pyval -> string.
Variable json_dumps : pyval -> string.
Variable config : configuration.

Let target := target_model config.
Let usm := Remote.update_single_model repr json_dumps config.
Let loop := Remote.sequential_loop repr json_dumps config.

Lemma exec_worker_then_tally (d : dict) (c : counters) evs o :
  exec (success <- usm (PDict d) ;; Batch.tally target (PDict d) success c) evs o ->
  exists v,
    o = Returned (bump (classify target (PDict d) v) c) /\
    (has_invalid_id (PDict d) = true -> v = PBool false) /\
    (has_invalid_id (PDict d) = false -> at_target target (PDict d) = true ->
     v = PBool true).
Proof.
  intros H. apply exec_bind_inv in H.
  destruct H as [(v & e1 & e2 & H1 & H2 & ->)|[(code & H1 & _)|(e & H1 & _)]];
    destruct (remote_worker_sound repr json_dumps config d _ _ H1)
      as (v' & Hv & Hv1 & Hv2); try discriminate.
  injection Hv as ->. rewrite tally_dict in H2. exec_inv.
  exists v'. auto.
Qed.

Lemma exec_sequential_loop (models : list pyval) (c c' : counters) evs :
  exec (loop models c) evs (Returned c') ->
  Forall (fun m => is_dict m = true) models
  /\ total c' = total c + List.length models
  /\ skipped_updates c' =
       skipped_updates c
       + count (fun m => has_invalid_id m && at_target target m) models
  /\ successful_updates c
     + count (fun m => negb (has_invalid_id m) && at_target target m) models
     <= successful_updates c'
  /\ failed_updates c
     + count (fun m => has_invalid_id m && negb (at_target target m)) models
     <= failed_updates c'.
Proof.
  revert c evs. induction models as [|m models IH]; intros c evs H.
  - unfold loop in H. simpl in H. inversion H; subst.
    repeat split; simpl; auto; unfold count; simpl; lia.
  - destruct m as [| | | | |d];
      try (unfold loop in H; cbn [Remote.sequential_loop py_get bind] in H;
           inversion H; fail).
    unfold loop in H. cbn [Remote.sequential_loop py_get bind] in H.
    apply exec_bind_inv in H.
    destruct H as [(c1 & e1 & e2 & H1 & H2 & ->)|[(code & _ & ?)|(e & _ & ?)]];
      try discriminate.
    apply exec_try_except_inv in H1.
    destruct H1 as [[H1 _]|(e & e3 & e4 & H1 & _ & _)];
      apply exec_worker_then_tally in H1;
      destruct H1 as (v & Hv & Hv1 & Hv2); try discriminate.
    injection Hv as ->.
    apply exec_bind_inv in H2.
    destruct H2 as [(u & e5 & e6 & _ & H2 & ->)|[(code & _ & ?)|(e & _ & ?)]];
      try discriminate.
    fold loop in H2.
    destruct (IH _ _ H2) as (I1 & I3 & I4 & I5 & I6).
    destruct (verdict_counts target d v c Hv1 Hv2) as (V1 & V2 & V3).
    rewrite total_bump in I3.
    cbn [List.length]. rewrite !count_cons.
    repeat split; auto; try lia.
Qed.

End RemoteSequential.

(** * [update_models] of the batch scripts, once the records are fetched *)

Lemma run_summary repr config target (srv : server) (c : counters) (w : world) :
  fst (run srv (Batch.summary repr config target c) w) = Returned c.
Proof.
  apply run_outcome. intros evs o H. now apply exec_summary in H.
Qed.

Lemma and_then_summary repr config target (srv : server)
    (r : outcome counters * world) (c : counters) (w' : world) :
  Some (and_then r (fun c w => run srv (Batch.summary repr config target c) w))
    = Some (Returned c, w') ->
  exists w1, r = (Returned c, w1).
Proof.
  destruct r as [[c0|code|e] w1]; cbn [and_then]; intros H; try discriminate.
  assert (H' : run srv (Batch.summary repr config target c0) w1 = (Returned c, w'))
    by congruence.
  clear H. rename H' into H.
  exists w1. f_equal.
  pose proof (run_summary repr config target srv c0 w1) as Hs.
  rewrite H in Hs. simpl in Hs. congruence.
Qed.

Lemma thread_pool_counts repr config target worker (srv : server)
    (sched : list nat) (models : list pyval) (w w' : world) (c : counters) :
  worker_sound target worker ->
  Batch.thread_pool repr config target worker srv sched models w
    = Some (Returned c, w') ->
  counters_describe target models c.
Proof.
  intros Hw. unfold Batch.thread_pool.
  destruct (max_workers config <=? 0)%Z; [discriminate|].
  set (st := pool_run srv _ sched _).
  destruct (drained st) eqn:Hd; [|discriminate].
  intros H. injection H as H.
  assert (Hok : pool_ok (map worker models) st)
    by (apply pool_run_ok, pool_ok_init).
  destruct (as_completed_spec worker models st Hok Hd) as [Hperm Hall].
  destruct (run_exec srv (Batch.collect repr config target
                            (as_completed models st) no_updates) (pworld st))
    as (evs & He & _).
  rewrite H in He. simpl in He.
  destruct (exec_collect repr config target worker Hw _ _ _ _ Hall He)
    as (I1 & _ & I3 & I4 & I5 & I6).
  unfold counters_describe.
  rewrite <- (Permutation_length Hperm), length_map.
  rewrite <- !(count_permutation _ _ _ Hperm).
  simpl in I3, I4, I5, I6.
  repeat split; auto.
  eapply Permutation_Forall; eauto.
Qed.

Lemma batch_update_models_counts (s : batch_script) repr json_dumps config
    (srv : server) (sched : list nat) (w w' : world) (c : counters) :
  batch_update_models s repr json_dumps config srv sched w = Some (Returned c, w') ->
  exists models w1,
    run srv (batch_prologue s repr config) w = (Returned models, w1) /\
    counters_describe (batch_target s config) models c.
Proof.
  destruct s; cbn [batch_update_models batch_prologue batch_target].
  - unfold Remote.update_models.
    destruct (run srv (Remote.prologue repr config) w) as [[models|code|e] w1];
      try discriminate.
    intros H. exists models, w1. split; [reflexivity|].
    destruct (batch_mode config).
    + match type of H with
      | match ?tp with _ => _ end = _ => destruct tp as [r|] eqn:Htp; [|discriminate]
      end.
      apply and_then_summary in H. destruct H as (w2 & ->).
      eapply thread_pool_counts; [|exact Htp]. apply remote_worker_sound.
    + apply and_then_summary in H. destruct H as (w2 & H).
      rewrite run_bind in H. unfold Remote.log, Batch.log in H. simpl in H.
      match type of H with
      | run srv ?p ?w0 = _ =>
          destruct (run_exec srv p w0) as (evs & He & _)
      end.
      rewrite H in He. simpl in He.
      destruct (exec_sequential_loop _ _ _ _ _ _ _ He) as (I1 & I3 & I4 & I5 & I6).
      unfold counters_describe. simpl in I3, I4, I5, I6. auto.
  - unfold Serverside.update_models.
    destruct (run srv (Serverside.prologue repr config) w) as [[models|code|e] w1];
      try discriminate.
    intros H. exists models, w1. split; [reflexivity|].
    match type of H with
    | match ?tp with _ => _ end = _ => destruct tp as [r|] eqn:Htp; [|discriminate]
    end.
    apply and_then_summary in H. destruct H as (w2 & ->).
    eapply thread_pool_counts; [|exact Htp]. apply serverside_worker_sound.
Qed.

(** * The loop over the records in [update-models.py] *)

Section SequentialLoop.

Variable repr : pyval -> string.
Variable json_dumps : pyval -> string.
Variable config : configuration.

Let update_loop := UpdateModels.update_loop repr json_dumps config.

Arguments UpdateModels.try_update : simpl never.
Arguments UpdateModels.log : simpl never.

(** A record with a usable id is dispatched, whatever its base model, and
    the loop goes on with the records that follow. *)
Lemma exec_update_loop_dispatch (d : dict) (rest : list pyval) (n : nat) evs o :
  has_invalid_id (PDict d) = false ->
  exec (update_loop (PDict d :: rest) n) evs o ->
  exists e1 e2 result,
    evs = e1 ++ e2 /\
    dispatch_trace config (UpdateModels.headers config)
      (build_payload repr d (get_default "name" (PStr "unknown") d)
         (target_model config))
      (get_default "id" (PStr "unknown") d) (exchanges_of e1) result /\
    exec (update_loop rest (if truthy result then S n else n)) e2 o.
Proof.
  intros Hid H. simpl in Hid.
  unfold update_loop in H. cbn [UpdateModels.update_loop py_get py_copy bind] in H.
  rewrite Hid in H.
  apply exec_bind_inv in H.
  destruct H as [(? & l1 & k1 & H1 & H & ->)|[(? & H1 & _)|(? & H1 & _)]];
    apply exec_log in H1; destruct H1 as (? & Hl1 & _); try discriminate.
  apply exec_bind_inv in H.
  destruct H as [(? & l2 & k2 & H2 & H & ->)|[(? & H2 & _)|(? & H2 & _)]];
    apply exec_log in H2; destruct H2 as (? & Hl2 & _); try discriminate.
  cbn [py_copy bind] in H.
  apply exec_bind_inv in H.
  destruct H as [(? & l3 & k3 & H3 & H & ->)|[(? & H3 & _)|(? & H3 & _)]];
    apply exec_log in H3; destruct H3 as (? & Hl3 & _); try discriminate.
  apply exec_bind_inv in H.
  destruct H as [(? & l4 & k4 & H4 & H & ->)|[(? & H4 & _)|(? & H4 & _)]];
    apply exec_log in H4; destruct H4 as (? & Hl4 & _); try discriminate.
  apply exec_bind_inv in H.
  destruct H as [(res & l5 & k5 & H5 & H & ->)|[(? & H5 & _)|(? & H5 & _)]];
    apply exec_try_update in H5; destruct H5 as (result & Htr & Hres);
    try discriminate.
  injection Hres as ->. cbn [fst snd] in H.
  apply exec_bind_inv in H.
  destruct H as [(? & l6 & k6 & H6 & H & ->)|[(? & H6 & Ho)|(? & H6 & Ho)]].
  - assert (Hl6 : exchanges_of l6 = []).
    { destruct (truthy result); [now inversion H6|].
      apply exec_log in H6. tauto. }
    cbn [bind] in H. inversion H; subst; clear H.
    match goal with
    | Hr : exec (UpdateModels.update_loop _ _ _ rest _) ?e _ |- _ =>
        exists (l1 ++ l2 ++ l3 ++ l4 ++ l5 ++ l6 ++ [EvSleep 1000]), e, result;
        split; [now rewrite <- !app_assoc|]; split; [|exact Hr]
    end.
    trace_simpl. rewrite Hl1, Hl2, Hl3, Hl4, Hl6. cbn [app].
    now rewrite app_nil_r.
  - destruct (truthy result); [inversion H6|].
    apply exec_log in H6. destruct H6 as (? & _). discriminate.
  - destruct (truthy result); [inversion H6|].
    apply exec_log in H6. destruct H6 as (? & _). discriminate.
Qed.

End SequentialLoop.

Lemma dispatch_trace_requests config hs (update_payload : dict) (model_id : pyval)
    (xs : list (request * reply)) (result : pyval) :
  dispatch_trace config hs update_payload model_id xs result ->
  map fst xs <> [] /\
  forall rq, In rq (map fst xs) ->
    rq_verb rq = POST /\
    rq_json rq = Some (PDict update_payload) /\
    rq_params rq = Some [("id", model_id)].
Proof.
  intros (r1 & [(_ & -> & _)|(_ & r2 & -> & _)]); simpl;
    (split; [discriminate|]); intros rq H;
    repeat (destruct H as [<-|H]; [now repeat split|]); destruct H.
Qed.

(** * Discovery *)

Lemma looks_like_models_recognised (r : reply) :
  looks_like_models (returned r) = true <-> code_recognised r.
Proof.
  unfold code_recognised, looks_like_models. split.
  - destruct r as [err|text [j|]]; simpl; try discriminate.
    + destruct j as [|b|n|s|xs|d]; simpl; rewrite ?andb_false_r; try discriminate.
      * destruct xs as [|x xs]; [discriminate|]. intros _.
        exists text, (PList (x :: xs)). split; [reflexivity|]. left. eauto.
      * intros H. apply andb_true_iff in H. destruct H as [_ H].
        apply orb_true_iff in H.
        exists text, (PDict d). split; [reflexivity|]. right. eauto.
    + rewrite andb_false_r. discriminate.
  - intros (text & j & -> & [(x & xs & ->)|(d & -> & H)]); simpl; [reflexivity|].
    assert (Hd : d <> []) by (intros ->; destruct H; discriminate).
    destruct d; [contradiction|]. simpl. apply orb_true_iff. exact H.
Qed.

Lemma final_single {A : Type} (x : A) : final [x] = Some x.
Proof. reflexivity. Qed.

Lemma final_cons {A : Type} (x y : A) (l : list A) :
  final (x :: y :: l) = final (y :: l).
Proof. reflexivity. Qed.

Lemma final_nonempty {A : Type} (x : A) (l : list A) :
  exists z, final (x :: l) = Some z.
Proof.
  unfold final. destruct (nth_error (x :: l) (pred (List.length (x :: l)))) eqn:E.
  - eauto.
  - apply nth_error_None in E. simpl in E. lia.
Qed.

Lemma final_some {A : Type} (l : list A) (x : A) : final l = Some x -> l <> [].
Proof. intros H ->. discriminate. Qed.

(** One more exchange in front of a search that stops at the first
    recognised response. *)
Lemma stops_at_first_miss (recognised : reply -> Prop) (rq : request) (r : reply)
    (requests : list request) (xs : list (request * reply)) :
  ~ recognised r ->
  stops_at_first recognised requests xs ->
  stops_at_first recognised (rq :: requests) ((rq, r) :: xs).
Proof.
  intros Hr (H1 & H2 & H3). split; [|split].
  - simpl. now rewrite H1.
  - intros [|i] rq' r' Hn Hrec; simpl in Hn.
    + injection Hn as <- <-. contradiction.
    + simpl. f_equal. eauto.
  - simpl. intros Hlt. destruct H3 as (rq' & r' & Hf & Hrec); [lia|].
    exists rq', r'. split; [|assumption].
    destruct xs as [|x xs]; [discriminate|]. now rewrite final_cons.
Qed.

Lemma stops_at_first_hit (recognised : reply -> Prop) (rq : request) (r : reply)
    (requests : list request) :
  recognised r -> stops_at_first recognised (rq :: requests) [(rq, r)].
Proof.
  intros Hr. split; [reflexivity|]. split.
  - intros [|[|i]] rq' r' Hn _; simpl in Hn; try discriminate. reflexivity.
  - intros _. exists rq, r. split; [reflexivity|assumption].
Qed.

Lemma stops_at_first_nil (recognised : reply -> Prop) :
  stops_at_first recognised [] [].
Proof.
  split; [reflexivity|]. split.
  - intros [|i] rq r H; discriminate.
  - simpl. lia.
Qed.

Lemma fetch_branch {A : Type} (x : pyval) (hit_list : prog A)
    (hit_dict : dict -> prog A) (miss : prog A) :
  (if truthy x && is_list x then hit_list
   else match x with
        | PDict d =>
            if truthy x && (dict_mem "models" d || dict_mem "data" d)
            then hit_dict d else miss
        | _ => miss
        end)
  = if looks_like_models x
    then match x with PDict d => hit_dict d | _ => hit_list end
    else miss.
Proof.
  unfold looks_like_models.
  destruct x as [|b|n|s|xs|d]; simpl; rewrite ?andb_false_r; reflexivity.
Qed.

Section SequentialDiscovery.

Variable config : configuration.

Let requests (endpoints : list string) : list request :=
  map (listing_request config (UpdateModels.headers config)) endpoints.

Arguments UpdateModels.make_api_call : simpl never.
Arguments UpdateModels.log : simpl never.

Lemma exec_fetch_loop (endpoints : list string) evs o :
  exec (UpdateModels.fetch_loop config endpoints) evs o ->
  stops_at_first code_recognised (requests endpoints) (exchanges_of evs)
  /\ o = Returned (found (exchanges_of evs)).
Proof.
  revert evs o. induction endpoints as [|endpoint rest IH]; intros evs o H.
  - simpl in H. inversion H; subst. split; [apply stops_at_first_nil|reflexivity].
  - cbn [UpdateModels.fetch_loop] in H.
    apply exec_bind_inv in H.
    destruct H as [(? & l1 & k1 & H1 & H & ->)|[(? & H1 & _)|(? & H1 & _)]];
      apply exec_log in H1; destruct H1 as (? & Hl1 & _); try discriminate.
    apply exec_bind_inv in H.
    destruct H as [(resp & l2 & k2 & H2 & H & ->)|[(? & H2 & _)|(? & H2 & _)]];
      apply exec_seq_get in H2; destruct H2 as (r & Hx & Hl2 & _);
      try discriminate.
    injection Hx as ->. rewrite fetch_branch in H.
    assert (Hxs : exchanges_of (l1 ++ l2 ++ k2) =
                  (listing_request config (UpdateModels.headers config) endpoint, r)
                  :: exchanges_of k2).
    { trace_simpl. now rewrite Hl1, Hl2. }
    rewrite Hxs. clear Hxs.
    destruct (looks_like_models (returned r)) eqn:Hr.
    + assert (Hk : exchanges_of k2 = [] /\ o = Returned (picked (returned r))).
      { destruct (returned r); apply exec_bind_inv in H;
          destruct H as [(? & l3 & k3 & H3 & H & ->)|[(? & H3 & _)|(? & H3 & _)]];
          apply exec_log in H3; destruct H3 as (? & Hl3 & _); try discriminate;
          inversion H; subst; trace_simpl; rewrite Hl3; auto. }
      destruct Hk as [-> ->]. split.
      * apply stops_at_first_hit. now apply looks_like_models_recognised.
      * unfold found. rewrite final_single, Hr. reflexivity.
    + destruct (IH _ _ H) as [Hs ->]. split.
      * apply stops_at_first_miss; [|exact Hs].
        intros Hc. apply looks_like_models_recognised in Hc. congruence.
      * f_equal. unfold found.
        destruct (exchanges_of k2) as [|y ys] eqn:Hk.
        -- rewrite final_single, Hr. reflexivity.
        -- now rewrite final_cons.
Qed.

End SequentialDiscovery.

Section BatchDiscovery.

Variable config : configuration.
Variable hs : list (string * string).

Let requests (endpoints : list string) : list request :=
  map (listing_request config hs) endpoints.

Lemma exec_try_alternatives (endpoints : list string) (before : pyval) evs o :
  exec (Batch.try_alternatives config hs endpoints before) evs o ->
  stops_at_first code_recognised (requests endpoints) (exchanges_of evs)
  /\ o = Returned (last_response before (exchanges_of evs)).
Proof.
  revert before evs o.
  induction endpoints as [|endpoint rest IH]; intros before evs o H.
  - simpl in H. inversion H; subst. split; [apply stops_at_first_nil|reflexivity].
  - cbn [Batch.try_alternatives] in H.
    apply exec_bind_inv in H.
    destruct H as [(resp & l2 & k2 & H2 & H & ->)|[(? & H2 & _)|(? & H2 & _)]];
      apply exec_make_api_call_get in H2; destruct H2 as (r & Hx & Hl2 & _);
      try discriminate.
    injection Hx as ->.
    assert (Hxs : exchanges_of (l2 ++ k2) =
                  (listing_request config hs endpoint, r) :: exchanges_of k2).
    { trace_simpl. now rewrite Hl2. }
    rewrite Hxs. clear Hxs.
    destruct (looks_like_models (returned r)) eqn:Hr.
    + inversion H; subst. trace_simpl. split.
      * apply stops_at_first_hit. now apply looks_like_models_recognised.
      * reflexivity.
    + destruct (IH _ _ _ H) as [Hs ->]. split.
      * apply stops_at_first_miss; [|exact Hs].
        intros Hc. apply looks_like_models_recognised in Hc. congruence.
      * f_equal. unfold last_response.
        destruct (exchanges_of k2) as [|y ys] eqn:Hk.
        -- reflexivity.
        -- rewrite final_cons. destruct (final_nonempty y ys) as (z & ->).
           reflexivity.
Qed.

End BatchDiscovery.

(** * Fetching from a server that gives every listing the same answer *)

Section UniformListing.

Variable repr : pyval -> string.
Variable json_dumps : pyval -> string.
Variable config : configuration.
Variable body : pyval.
Variable accepted : list string.

Let srv := listing_server body accepted.






End UniformListing.



(** * Every pool can be drained, and the loops over mappings return *)

Lemma filter_none {A : Type} (f : A -> bool) (l : list A) :
  (forall x, In x l -> f x = false) -> filter f l = [].
Proof.
  induction l as [|x l IH]; intros H; simpl; [reflexivity|].
  rewrite (H x (or_introl eq_refl)). apply IH. intros y Hy. apply H. now right.
Qed.

Section Drain.

Variable srv : server.
Variable workers : nat.
Hypothesis some_worker : 0 < workers.

Lemma may_run_first (st : pool) (k : nat) :
  finished st = seq 0 k -> may_run workers k st = true.
Proof.
  intros Hf. unfold may_run.
  assert (Hk : is_finished k st = false).
  { destruct (is_finished k st) eqn:E; [|reflexivity].
    apply is_finished_In in E. rewrite Hf in E. apply in_seq in E. lia. }
  rewrite Hk. simpl. apply Nat.ltb_lt.
  unfold busy_before.
  replace (filter (fun j => negb (is_finished j st)) (seq 0 k)) with (@nil nat);
    [exact some_worker|].
  symmetry. apply filter_none. intros j Hj.
  assert (E : is_finished j st = true)
    by (apply is_finished_In; now rewrite Hf).
  now rewrite E.
Qed.

Lemma drain_task (p : prog pyval) :
  forall (st : pool) (k : nat),
    finished st = seq 0 k ->
    nth_error (tasks st) k = Some p ->
    exists m,
      finished (pool_run srv workers (repeat k m) st) = seq 0 (S k) /\
      List.length (tasks (pool_run srv workers (repeat k m) st))
        = List.length (tasks st).
Proof.
  induction p as [a|rq kont IH|lv msg q IH|ev q IH|ms q IH|code|e];
    intros st k Hf Hp.
  1, 6, 7:
    exists 1; rewrite seq_S; cbn [repeat pool_run fold_left]; unfold pool_step;
    rewrite (may_run_first st k Hf), Hp; cbn [task_step finished tasks];
    rewrite Hf; auto.
  - pose (st1 := pool_step srv workers st k).
    assert (Hst1 : st1 = {| tasks := set_nth k (kont (srv (sent (pworld st)) rq))
                                       (tasks st);
                            finished := finished st;
                            pworld := snd (do_http srv rq (pworld st)) |}).
    { unfold st1, pool_step. rewrite (may_run_first st k Hf), Hp. reflexivity. }
    destruct (IH (srv (sent (pworld st)) rq) st1 k) as (m & H1 & H2).
    + rewrite Hst1. exact Hf.
    + rewrite Hst1. simpl. eapply nth_error_set_nth_same; eauto.
    + exists (S m). simpl. fold st1. split; [exact H1|].
      rewrite H2, Hst1. simpl. apply set_nth_length.
  - pose (st1 := pool_step srv workers st k).
    assert (Hst1 : st1 = {| tasks := set_nth k q (tasks st);
                            finished := finished st;
                            pworld := do_print lv msg (pworld st) |}).
    { unfold st1, pool_step. rewrite (may_run_first st k Hf), Hp. reflexivity. }
    destruct (IH st1 k) as (m & H1 & H2).
    + rewrite Hst1. exact Hf.
    + rewrite Hst1. simpl. eapply nth_error_set_nth_same; eauto.
    + exists (S m). simpl. fold st1. split; [exact H1|].
      rewrite H2, Hst1. simpl. apply set_nth_length.
  - pose (st1 := pool_step srv workers st k).
    assert (Hst1 : st1 = {| tasks := set_nth k q (tasks st);
                            finished := finished st;
                            pworld := do_bar ev (pworld st) |}).
    { unfold st1, pool_step. rewrite (may_run_first st k Hf), Hp. reflexivity. }
    destruct (IH st1 k) as (m & H1 & H2).
    + rewrite Hst1. exact Hf.
    + rewrite Hst1. simpl. eapply nth_error_set_nth_same; eauto.
    + exists (S m). simpl. fold st1. split; [exact H1|].
      rewrite H2, Hst1. simpl. apply set_nth_length.
  - pose (st1 := pool_step srv workers st k).
    assert (Hst1 : st1 = {| tasks := set_nth k q (tasks st);
                            finished := finished st;
                            pworld := do_sleep ms (pworld st) |}).
    { unfold st1, pool_step. rewrite (may_run_first st k Hf), Hp. reflexivity. }
    destruct (IH st1 k) as (m & H1 & H2).
    + rewrite Hst1. exact Hf.
    + rewrite Hst1. simpl. eapply nth_error_set_nth_same; eauto.
    + exists (S m). simpl. fold st1. split; [exact H1|].
      rewrite H2, Hst1. simpl. apply set_nth_length.
Qed.

Lemma drain_from (n : nat) :
  forall (st : pool) (k : nat),
    finished st = seq 0 k ->
    k + n = List.length (tasks st) ->
    exists sched, drained (pool_run srv workers sched st) = true.
Proof.
  induction n as [|n IH]; intros st k Hf Hlen.
  - exists []. simpl. unfold drained. rewrite Hf, length_seq.
    apply Nat.eqb_eq. lia.
  - destruct (nth_error (tasks st) k) as [p|] eqn:Hp;
      [|apply nth_error_None in Hp; lia].
    destruct (drain_task p st k Hf Hp) as (m & H1 & H2).
    destruct (IH (pool_run srv workers (repeat k m) st) (S k) H1) as (sched & Hs);
      [lia|].
    exists (repeat k m ++ sched). unfold pool_run in *. now rewrite fold_left_app.
Qed.

Lemma drain_exists (init : list (prog pyval)) (w : world) :
  exists sched,
    drained (pool_run srv workers sched
               {| tasks := init; finished := []; pworld := w |}) = true.
Proof. apply (drain_from (List.length init) _ 0); reflexivity. Qed.

End Drain.

Section CollectTotal.

Variable repr : pyval -> string.
Variable config : configuration.
Variable target : string.
Variable worker : pyval -> prog pyval.
Hypothesis worker_ok : worker_sound target worker.

Lemma exec_collect_total (fs : list (pyval * outcome pyval)) (c : counters) evs o :
  Forall (fun m => is_dict m = true) (map fst fs) ->
  Forall (fun mo => exists evs, exec (worker (fst mo)) evs (snd mo)) fs ->
  exec (Batch.collect repr config target fs c) evs o ->
  exists c', o = Returned c'.
Proof.
  intros Hd Hfs. revert c evs.
  induction Hfs as [|[m o1] fs Hm Hfs IH]; intros c evs H.
  - simpl in H. inversion H; subst. eauto.
  - inversion Hd as [|m' ms Hmd Hrest]; subst. simpl in Hmd.
    destruct m as [| | | | |d]; try discriminate.
    destruct Hm as (wevs & Hw). simpl in Hw.
    destruct (worker_ok d wevs o1 Hw) as (v & -> & _).
    rewrite collect_cons_returned in H. eauto.
Qed.

Lemma thread_pool_total (srv : server) (models : list pyval) (w : world) :
  Forall (fun m => is_dict m = true) models ->
  (0 < max_workers config)%Z ->
  (exists sched,
     Batch.thread_pool repr config target worker srv sched models w <> None)
  /\ (forall sched r,
        Batch.thread_pool repr config target worker srv sched models w = Some r ->
        exists c, fst r = Returned c).
Proof.
  intros Hd Hw. unfold Batch.thread_pool.
  assert (Hz : (max_workers config <=? 0)%Z = false) by (apply Z.leb_gt; exact Hw).
  rewrite Hz. split.
  - destruct (drain_exists srv (Z.to_nat (max_workers config))
                ltac:(lia) (map worker models) w) as (sched & Hs).
    exists sched. rewrite Hs. discriminate.
  - intros sched r. set (st := pool_run srv _ sched _).
    destruct (drained st) eqn:Hdr; [|discriminate].
    intros H. injection H as <-.
    assert (Hok : pool_ok (map worker models) st)
      by (apply pool_run_ok, pool_ok_init).
    destruct (as_completed_spec worker models st Hok Hdr) as [Hperm Hall].
    refine (exec_collect_total (as_completed models st) no_updates _ _ _ Hall
              (exec_trace srv (Batch.collect repr config target
                                 (as_completed models st) no_updates) (pworld st))).
    eapply Permutation_Forall; [apply Permutation_sym; exact Hperm|exact Hd].
Qed.

End CollectTotal.

Lemma and_then_summary_returned repr config target (srv : server)
    (r : outcome counters * world) (c : counters) :
  fst r = Returned c ->
  fst (and_then r (fun c w => run srv (Batch.summary repr config target c) w))
    = Returned c.
Proof.
  destruct r as [o w]. cbn [fst]. intros ->. cbn [and_then]. apply run_summary.
Qed.

Lemma exec_sequential_loop_total repr json_dumps config (models : list pyval)
    (c : counters) evs o :
  Forall (fun m => is_dict m = true) models ->
  exec (Remote.sequential_loop repr json_dumps config models c) evs o ->
  exists c', o = Returned c'.
Proof.
  intros Hd. revert c evs. induction Hd as [|m models Hm Hd IH]; intros c evs H.
  - simpl in H. inversion H; subst. eauto.
  - destruct m as [| | | | |d]; try discriminate.
    cbn [Remote.sequential_loop py_get bind] in H.
    apply exec_bind_inv in H.
    destruct H as [(c1 & e1 & e2 & H1 & H2 & ->)|[(code & H1 & ?)|(e & H1 & ?)]];
      apply exec_try_except_inv in H1;
      destruct H1 as [[H1 _]|(e' & e3 & e4 & H1 & _ & _)];
      apply exec_worker_then_tally in H1;
      destruct H1 as (v & Hv & _); try discriminate.
    apply exec_bind_inv in H2.
    destruct H2 as [(u & e5 & e6 & _ & H2 & ->)|[(code & H2 & ?)|(e & H2 & ?)]].
    + eauto.
    + destruct (negb (batch_mode config)); exec_inv.
    + destruct (negb (batch_mode config)); exec_inv.
Qed.

Lemma exec_update_loop_total repr json_dumps config (models : list pyval)
    (n : nat) evs o :
  Forall (fun m => is_dict m = true) models ->
  exec (UpdateModels.update_loop repr json_dumps config models n) evs o ->
  exists n', o = Returned n'.
Proof.
  intros Hd. revert n evs. induction Hd as [|m models Hm Hd IH]; intros n evs H.
  - simpl in H. inversion H; subst. eauto.
  - destruct m as [| | | | |d]; try discriminate.
    destruct (has_invalid_id (PDict d)) eqn:Hid.
    + cbn [UpdateModels.update_loop py_get bind] in H. simpl in Hid.
      rewrite Hid in H. unfold UpdateModels.log in H. cbn [bind] in H.
      inversion H; subst. eauto.
    + destruct (exec_update_loop_dispatch _ _ _ d models n evs o Hid H)
        as (e1 & e2 & result & _ & _ & He). eauto.
Qed.

Lemma exec_seq_summary repr config (a b : nat) evs o :
  exec (UpdateModels.summary repr config a b) evs o -> o = Returned tt.
Proof.
  unfold UpdateModels.summary, UpdateModels.log. cbn [bind].
  destruct (a <? b)%nat; intros H; exec_inv; reflexivity.
Qed.

(** * Effects of whole runs *)

Lemma prints_of_app (e1 e2 : list event) :
  prints_of (e1 ++ e2) = prints_of e1 ++ prints_of e2.
Proof. unfold prints_of. now rewrite flat_map_app. Qed.

Lemma sleep_of_app (e1 e2 : list event) :
  sleep_of (e1 ++ e2) = sleep_of e1 + sleep_of e2.
Proof. unfold sleep_of. now rewrite map_app, list_sum_app. Qed.

Lemma prints_of_cons (e : event) (evs : list event) :
  prints_of (e :: evs) =
  match e with EvPrint lv msg => [(lv, msg)] | _ => [] end ++ prints_of evs.
Proof. reflexivity. Qed.

Lemma sleep_of_cons (e : event) (evs : list event) :
  sleep_of (e :: evs) =
  match e with EvSleep ms => ms | _ => 0 end + sleep_of evs.
Proof. reflexivity. Qed.

Lemma replay_app (e1 e2 : list event) (w : world) :
  replay (e1 ++ e2) w = replay e2 (replay e1 w).
Proof. unfold replay. apply fold_left_app. Qed.

Lemma console_replay (evs : list event) (w : world) :
  console (replay evs w) = console w ++ prints_of evs.
Proof.
  revert w. induction evs as [|e evs IH]; intros w.
  - simpl. now rewrite app_nil_r.
  - change (replay (e :: evs) w) with (replay evs (replay_event w e)).
    rewrite IH, prints_of_cons.
    destruct e as [rq r|lv msg|[total|n|]|ms]; simpl; auto.
    now rewrite <- app_assoc.
Qed.

Lemma slept_replay (evs : list event) (w : world) :
  slept (replay evs w) = slept w + sleep_of evs.
Proof.
  revert w. induction evs as [|e evs IH]; intros w.
  - unfold sleep_of. simpl. lia.
  - change (replay (e :: evs) w) with (replay evs (replay_event w e)).
    rewrite IH, sleep_of_cons.
    destruct e as [rq r|lv msg|[total|n|]|ms]; simpl; lia.
Qed.

Lemma replay_trace {A : Type} (srv : server) (p : prog A) (w : world) :
  snd (run srv p w) = replay (trace srv p w) w.
Proof.
  revert w. induction p as [a|rq k IH|lv msg k IH|ev k IH|ms k IH|code|e];
    intros w; simpl; auto.
Qed.

Lemma trace_answered {A : Type} (srv : server) (p : prog A) (w : world) :
  Forall (answered_by srv) (trace srv p w).
Proof.
  revert w. induction p as [a|rq k IH|lv msg k IH|ev k IH|ms k IH|code|e];
    intros w; simpl; constructor; simpl; eauto.
Qed.

(** What holds of every effect of a program holds along each of its
    executions; sequencing and [try] keep it. *)
Lemma every_exec {A : Type} (P : event -> Prop) (p : prog A) evs o :
  every P p -> exec p evs o -> Forall P evs.
Proof.
  intros Hp He. induction He; simpl in Hp; constructor;
    try (apply IHHe); try apply Hp.
Qed.

Lemma every_bind {A B : Type} (P : event -> Prop) (p : prog A) (f : A -> prog B) :
  every P p -> (forall a, every P (f a)) -> every P (bind p f).
Proof.
  intros Hp Hf. induction p as [a|rq k IH|lv msg k IH|ev k IH|ms k IH|code|e];
    simpl in *; auto.
  - intros r. destruct (Hp r) as [H1 H2]. split; [exact H1|]. now apply IH.
  - destruct Hp as [H1 H2]. split; [exact H1|]. now apply IH.
  - destruct Hp as [H1 H2]. split; [exact H1|]. now apply IH.
  - destruct Hp as [H1 H2]. split; [exact H1|]. now apply IH.
Qed.

Lemma every_try_except {A : Type} (P : event -> Prop) (p : prog A)
    (h : exn -> prog A) :
  every P p -> (forall e, every P (h e)) -> every P (try_except p h).
Proof.
  intros Hp Hh. induction p as [a|rq k IH|lv msg k IH|ev k IH|ms k IH|code|e];
    simpl in *; auto.
  - intros r. destruct (Hp r) as [H1 H2]. split; [exact H1|]. now apply IH.
  - destruct Hp as [H1 H2]. split; [exact H1|]. now apply IH.
  - destruct Hp as [H1 H2]. split; [exact H1|]. now apply IH.
  - destruct Hp as [H1 H2]. split; [exact H1|]. now apply IH.
Qed.

Lemma every_run {A : Type} (P : event -> Prop) (srv : server) (p : prog A)
    (w : world) :
  every P p -> Forall P (trace srv p w).
Proof. intros H. exact (every_exec P p _ _ H (exec_trace srv p w)). Qed.

(** * [make_api_call] *)

Lemma exec_decode_console config (r : reply) evs o :
  exec (Batch.decode config r) evs o ->
  o = Returned (returned r) /\ exchanges_of evs = [] /\
  prints_of evs =
    match r with
    | NoReply err => [(ERROR, ("API call failed: " ++ err)%string)]
    | Reply text None =>
        if debug config
        then [(DEBUG, ("Response is not JSON: " ++ substring 0 500 text)%string)]
        else []
    | Reply _ (Some _) => []
    end.
Proof.
  destruct r as [err|text [j|]]; unfold Batch.decode, Batch.log;
    try destruct (debug config); cbn [bind]; intros H; exec_inv; auto.
Qed.

Lemma exec_api_call config hs (method endpoint : string) (data : option pyval)
    (params : option dict) evs o :
  exec (Batch.make_api_call config hs method endpoint data params) evs o ->
  api_call_result config hs method endpoint data params (exchanges_of evs) o
  /\ prints_of evs = api_call_console config method endpoint (exchanges_of evs).
Proof.
  unfold Batch.make_api_call, Batch.log, api_call_result, api_call_console.
  intros H.
  assert (Hk : forall evs0,
             exec (if String.eqb (upper method) "GET"
                   then Http (mk_request GET
                                (openwebui_url config ++ api_base_path config
                                 ++ endpoint)%string hs None params)
                          (Batch.decode config)
                   else if String.eqb (upper method) "POST"
                   then Http (mk_request POST
                                (openwebui_url config ++ api_base_path config
                                 ++ endpoint)%string hs data params)
                          (Batch.decode config)
                   else Print ERROR ("Unsupported HTTP method: " ++ method)%string
                          (Ret PNone)) evs0 o ->
             api_call_result config hs method endpoint data params
               (exchanges_of evs0) o
             /\ prints_of evs0 =
                  match exchanges_of evs0 with
                  | [] => [(ERROR, ("Unsupported HTTP method: " ++ method)%string)]
                  | [(_, NoReply err)] =>
                      [(ERROR, ("API call failed: " ++ err)%string)]
                  | [(_, Reply text None)] =>
                      if debug config
                      then [(DEBUG, ("Response is not JSON: "
                                     ++ substring 0 500 text)%string)]
                      else []
                  | _ => []
                  end).
  { intros evs0 H0. unfold api_call_result.
    destruct (String.eqb (upper method) "GET") eqn:Hg;
      [|destruct (String.eqb (upper method) "POST") eqn:Hp].
    - exec_step. apply exec_decode_console in H5. destruct H5 as (-> & Hx & Hc).
      rewrite exchanges_of_cons, Hx, prints_of_cons, Hc. cbn [app].
      apply String.eqb_eq in Hg. split.
      + repeat split; auto.
      + destruct r as [err|text [j|]]; reflexivity.
    - exec_step. apply exec_decode_console in H5. destruct H5 as (-> & Hx & Hc).
      rewrite exchanges_of_cons, Hx, prints_of_cons, Hc. cbn [app].
      apply String.eqb_eq in Hp. split.
      + repeat split; auto.
      + destruct r as [err|text [j|]]; reflexivity.
    - exec_inv. apply String.eqb_neq in Hg, Hp. rewrite exchanges_of_cons.
      rewrite exchanges_of_nil. cbn [app]. auto. }
  destruct (debug config); cbn [bind] in H.
  - exec_step. apply Hk in H5. destruct H5 as [H1 H2].
    rewrite exchanges_of_cons, prints_of_cons, H2. cbn [app]. auto.
  - apply Hk in H. cbn [app]. exact H.
Qed.

Lemma make_api_call_variants config (method endpoint : string)
    (data : option pyval) (params : option dict) :
  UpdateModels.make_api_call config method endpoint data params
  = Batch.make_api_call config (UpdateModels.headers config) method endpoint
      data params.
Proof.
  unfold UpdateModels.make_api_call, Batch.make_api_call, UpdateModels.decode,
    Batch.decode, UpdateModels.log, Batch.log.
  destruct (debug config); reflexivity.
Qed.

(** * What no run does *)

Lemma some_eq_inv {A : Type} (x y : A) : Some x = Some y -> x = y.
Proof. intros H. now injection H. Qed.

Lemma Forall_set_nth {A : Type} (Q : A -> Prop) (i : nat) (x : A) (l : list A) :
  Forall Q l -> Q x -> Forall Q (set_nth i x l).
Proof.
  intros Hl Hx. revert i. induction Hl as [|y l Hy Hl IH]; intros [|i]; simpl;
    constructor; auto.
Qed.

Lemma task_step_every {A : Type} (P : event -> Prop) (srv : server)
    (p p' : prog A) (w w' : world) :
  task_step srv p w = Some (p', w') -> every P p ->
  exists e, w' = replay_event w e /\ P e /\ every P p'.
Proof.
  destruct p; simpl; intros H Hp; try discriminate; injection H as <- <-.
  - exists (EvHttp rq (srv (sent w) rq)). destruct (Hp (srv (sent w) rq)). auto.
  - exists (EvPrint lv msg). destruct Hp. auto.
  - exists (EvBar ev). destruct Hp. auto.
  - exists (EvSleep ms). destruct Hp. auto.
Qed.

Lemma pool_step_every (P : event -> Prop) (srv : server) (workers : nat)
    (st : pool) (i : nat) :
  Forall (every P) (tasks st) ->
  exists hist,
    pworld (pool_step srv workers st i) = replay hist (pworld st)
    /\ Forall P hist
    /\ Forall (every P) (tasks (pool_step srv workers st i)).
Proof.
  intros Ht. unfold pool_step.
  destruct (may_run workers i st); [|exists []; repeat split; auto].
  destruct (nth_error (tasks st) i) as [p|] eqn:Hp; [|exists []; repeat split; auto].
  destruct (task_step srv p (pworld st)) as [[p' w']|] eqn:Hs;
    [|exists []; repeat split; auto].
  assert (Hep : every P p).
  { eapply Forall_forall; [exact Ht|]. eapply nth_error_In; eauto. }
  destruct (task_step_every P srv p p' _ _ Hs Hep) as (e & -> & He & Hp').
  exists [e]. simpl. repeat split; auto. now apply Forall_set_nth.
Qed.

Lemma pool_run_every (P : event -> Prop) (srv : server) (workers : nat)
    (sched : list nat) (st : pool) :
  Forall (every P) (tasks st) ->
  exists hist,
    pworld (pool_run srv workers sched st) = replay hist (pworld st)
    /\ Forall P hist.
Proof.
  revert st. induction sched as [|i sched IH]; intros st Ht.
  - exists []. split; [reflexivity|constructor].
  - change (pool_run srv workers (i :: sched) st)
      with (pool_run srv workers sched (pool_step srv workers st i)).
    destruct (pool_step_every P srv workers st i Ht) as (h1 & H1 & H2 & H3).
    destruct (IH _ H3) as (h2 & H4 & H5).
    exists (h1 ++ h2). rewrite replay_app, <- H1. split; [exact H4|].
    apply Forall_app; auto.
Qed.

Lemma run_every {A : Type} (P : event -> Prop) (srv : server) (p : prog A)
    (w : world) :
  every P p ->
  exists evs, snd (run srv p w) = replay evs w /\ Forall P evs.
Proof.
  intros H. exists (trace srv p w). split; [apply replay_trace|now apply every_run].
Qed.

Lemma thread_pool_every (P : event -> Prop) repr config target worker
    (srv : server) (sched : list nat) (models : list pyval) (w : world)
    (r : outcome counters * world) :
  (forall m, every P (worker m)) ->
  (forall fs c, every P (Batch.collect repr config target fs c)) ->
  Batch.thread_pool repr config target worker srv sched models w = Some r ->
  exists evs, snd r = replay evs w /\ Forall P evs.
Proof.
  intros Hw Hc. unfold Batch.thread_pool.
  destruct (max_workers config <=? 0)%Z.
  - intros H. apply some_eq_inv in H. subst r.
    exists []. split; [reflexivity|constructor].
  - match goal with
    | |- context [pool_run srv ?n sched ?st0] =>
        destruct (pool_run_every P srv n sched st0) as (h & H1 & H2);
        [simpl; apply Forall_forall; intros p Hin;
         apply in_map_iff in Hin; destruct Hin as (m & <- & _); apply Hw|];
        set (st := pool_run srv n sched st0) in *
    end.
    destruct (drained st); [|discriminate].
    intros H. apply some_eq_inv in H. subst r.
    destruct (run_every P srv (Batch.collect repr config target
                                 (as_completed models st) no_updates)
                (pworld st) (Hc _ _)) as (evs & H3 & H4).
    exists (h ++ evs). rewrite replay_app. simpl in H1. rewrite <- H1.
    split; [exact H3|]. apply Forall_app; auto.
Qed.

(** * Every effect of the scripts is tidy *)

Ltac tidy_auto :=
  simpl; repeat (split || intro); try discriminate; auto.

Section Tidy.

Variable repr : pyval -> string.
Variable config : configuration.
Variable hs : list (string * string).
Variable target : string.
Variable bar : bar_event -> Prop.
Variable pause : nat -> Prop.
Hypothesis bar_new : forall n, bar (BarNew n).
Hypothesis bar_close : bar BarClose.

Let ok := tidy config hs target bar pause.

Lemma every_log (lv : level) (msg : string) :
  every ok (Batch.log config lv msg).
Proof.
  unfold Batch.log. destruct lv; try destruct (debug config) eqn:D; tidy_auto.
Qed.

Lemma every_decode (r : reply) : every ok (Batch.decode config r).
Proof.
  destruct r as [err|text [j|]]; unfold Batch.decode, Batch.log;
    try destruct (debug config) eqn:D; tidy_auto.
Qed.

Lemma every_api_call_get (endpoint : string) :
  In endpoint listing_paths ->
  every ok (Batch.make_api_call config hs "GET" endpoint None None).
Proof.
  intros Hin. unfold Batch.make_api_call, Batch.log.
  apply every_bind; [destruct (debug config) eqn:D; tidy_auto|]. intros _.
  cbn [upper upper_ascii String.eqb]. simpl. intros r. split.
  - split; [reflexivity|]. cbn [rq_verb rq_url rq_json rq_params].
    split; [|auto]. apply (in_map (url_of config)) in Hin. exact Hin.
  - apply every_decode.
Qed.

Lemma every_api_call_post (endpoint : string) (body : dict) (model_id : pyval) :
  In endpoint update_paths ->
  dict_get "id" body = Some model_id ->
  invalid_id model_id = false ->
  dict_get "base_model_id" body = Some (PStr target) ->
  every ok (Batch.make_api_call config hs "POST" endpoint (Some (PDict body))
              (Some [("id", model_id)])).
Proof.
  intros Hin H1 H2 H3. unfold Batch.make_api_call, Batch.log.
  apply every_bind; [destruct (debug config) eqn:D; tidy_auto|]. intros _.
  simpl. intros r. split.
  - split; [reflexivity|]. cbn [rq_verb rq_url rq_json rq_params].
    split; [apply (in_map (url_of config)) in Hin; exact Hin|].
    exists body, model_id. auto.
  - apply every_decode.
Qed.

Lemma every_try_alternatives (endpoints : list string) (before : pyval) :
  incl endpoints listing_paths ->
  every ok (Batch.try_alternatives config hs endpoints before).
Proof.
  revert before. induction endpoints as [|endpoint rest IH]; intros before Hin.
  - exact I.
  - cbn [Batch.try_alternatives]. apply every_bind.
    + apply every_api_call_get. apply Hin. now left.
    + intros response. destruct (looks_like_models response); [exact I|].
      apply IH. intros x Hx. apply Hin. now right.
Qed.

Lemma every_fetch_models : every ok (Batch.fetch_models repr config hs).
Proof.
  unfold Batch.fetch_models, Batch.fetch_response.
  apply every_bind.
  - apply every_bind; [apply every_log|]. intros _.
    apply every_bind; [apply every_api_call_get; simpl; auto|]. intros response.
    destruct (negb _); [|exact I].
    apply every_try_alternatives. unfold Batch.alternatives, listing_paths.
    intros x Hx. simpl in *. tauto.
  - intros response. apply every_bind.
    + destruct (Batch.extract_models response); exact I.
    + intros n. destruct (Nat.eqb n 0).
      * apply every_bind; [apply every_log|]. intros _. exact I.
      * apply every_bind; [apply every_log|]. intros _. tidy_auto.
Qed.

Lemma every_collect (fs : list (pyval * outcome pyval)) (c : counters) :
  every ok (Batch.collect repr config target fs c).
Proof.
  revert c. induction fs as [|[m o] fs IH]; intros c; [exact I|].
  cbn [Batch.collect]. apply every_bind; [destruct m; exact I|]. intros model_name.
  apply every_bind; [|intros c'; apply IH].
  apply every_try_except.
  - apply every_bind; [destruct o; exact I|]. intros success. unfold Batch.tally.
    destruct (truthy success); [exact I|].
    apply every_bind; [destruct m; exact I|].
    intros b. destruct (py_eq _ _); exact I.
  - intros e. unfold Batch.on_exception.
    apply every_bind; [apply every_log|]. intros _. exact I.
Qed.

Lemma every_summary (c : counters) :
  every ok (Batch.summary repr config target c).
Proof.
  unfold Batch.summary.
  apply every_bind; [tidy_auto|]. intros _.
  repeat (apply every_bind; [apply every_log|]; intros _).
  apply every_bind; [|intros _; exact I].
  destruct (0 <? failed_updates c)%nat; apply every_log.
Qed.

End Tidy.

Lemma valid_id_present (d : dict) :
  invalid_id (get_default "id" (PStr "unknown") d) = false ->
  dict_get "id" d = Some (get_default "id" (PStr "unknown") d).
Proof.
  unfold get_default. destruct (dict_get "id" d); [reflexivity|].
  simpl. discriminate.
Qed.

Lemma payload_id repr (d : dict) (model_name : pyval) (target : string) :
  dict_get "id" (build_payload repr d model_name target) = dict_get "id" d.
Proof.
  rewrite build_payload_lookup. simpl. now destruct (dict_get "id" d).
Qed.

Lemma payload_base repr (d : dict) (model_name : pyval) (target : string) :
  dict_get "base_model_id" (build_payload repr d model_name target)
  = Some (PStr target).
Proof. now rewrite build_payload_lookup. Qed.

(** The two requests of an update, as the batch workers issue them. *)
Lemma every_dispatch repr config hs target bar pause (d : dict) :
  bar (BarUpdate 1) ->
  invalid_id (get_default "id" (PStr "unknown") d) = false ->
  let model_id := get_default "id" (PStr "unknown") d in
  let update_payload :=
    build_payload repr d (get_default "name" (PStr "unknown") d) target in
  every (tidy config hs target bar pause)
    (update_response <-
       Batch.make_api_call config hs "POST" "/models/model/update"
         (Some (PDict update_payload)) (Some [("id", model_id)]) ;;
     update_response <-
       (if negb (truthy (update_check update_response model_id)) then
          Batch.make_api_call config hs "POST" "/models/update"
            (Some (PDict update_payload)) (Some [("id", model_id)])
        else Ret update_response) ;;
     Bar (BarUpdate 1) (Ret (update_check update_response model_id))).
Proof.
  intros Hbar Hid model_id update_payload.
  assert (Hpost : forall endpoint,
             In endpoint update_paths ->
             every (tidy config hs target bar pause)
               (Batch.make_api_call config hs "POST" endpoint
                  (Some (PDict update_payload)) (Some [("id", model_id)]))).
  { intros endpoint Hin. apply every_api_call_post; auto.
    - unfold update_payload. rewrite payload_id. now apply valid_id_present.
    - apply payload_base. }
  apply every_bind; [apply Hpost; simpl; auto|]. intros r1.
  apply every_bind; [|intros r2; tidy_auto].
  destruct (negb _); [apply Hpost; simpl; auto|exact I].
Qed.

Lemma every_remote_worker repr json_dumps config bar pause (model : pyval) :
  bar (BarUpdate 1) ->
  every (tidy config (Remote.headers config) (target_model config) bar pause)
    (Remote.update_single_model repr json_dumps config model).
Proof.
  intros Hbar. destruct model as [| | | | |d]; try exact I.
  unfold Remote.update_single_model. cbn [py_get bind].
  destruct (invalid_id _) eqn:Hid; [tidy_auto|].
  destruct (py_eq _ _); [tidy_auto|].
  apply every_bind.
  { destruct (debug config) eqn:D; [|exact I].
    unfold Remote.log. apply every_bind; [apply every_log|]. intros _.
    apply every_log. }
  intros _. cbn [py_copy bind].
  apply every_bind.
  { destruct (debug config) eqn:D; [|exact I]. apply every_log. }
  intros _. apply every_dispatch; [exact Hbar|exact Hid].
Qed.

Lemma every_serverside_worker repr config bar pause (model : pyval) :
  bar (BarUpdate 1) ->
  every (tidy config (Serverside.headers config) Serverside.hardcoded_target bar
           pause)
    (Serverside.update_single_model repr config Serverside.hardcoded_target model).
Proof.
  intros Hbar. destruct model as [| | | | |d]; try exact I.
  unfold Serverside.update_single_model. cbn [py_get bind].
  destruct (invalid_id _) eqn:Hid; [tidy_auto|].
  destruct (py_eq _ _); [tidy_auto|].
  cbn [py_copy bind]. apply every_dispatch; [exact Hbar|exact Hid].
Qed.

Lemma every_batch_worker (s : batch_script) repr json_dumps config bar pause
    (model : pyval) :
  bar (BarUpdate 1) ->
  every (tidy config (batch_headers s config) (batch_target s config) bar pause)
    (batch_worker s repr json_dumps config model).
Proof.
  intros Hbar.
  destruct s; [now apply every_remote_worker|now apply every_serverside_worker].
Qed.

Lemma every_sequential_loop repr json_dumps config (bar : bar_event -> Prop)
    (pause : nat -> Prop) (models : list pyval) (c : counters) :
  bar (BarUpdate 1) ->
  (batch_mode config = false -> pause 500) ->
  every (tidy config (Remote.headers config) (target_model config) bar pause)
    (Remote.sequential_loop repr json_dumps config models c).
Proof.
  intros Hbar Hpause. revert c. induction models as [|m models IH]; intros c; [exact I|].
  cbn [Remote.sequential_loop].
  apply every_bind; [destruct m; exact I|]. intros model_name.
  apply every_bind.
  - apply every_try_except.
    + apply every_bind; [now apply every_remote_worker|]. intros success.
      unfold Batch.tally. destruct (truthy success); [exact I|].
      apply every_bind; [destruct m; exact I|].
      intros b. destruct (py_eq _ _); exact I.
    + intros e. unfold Batch.on_exception.
      apply every_bind; [apply every_log|]. intros _. exact I.
  - intros c'. apply every_bind; [|intros _; apply IH].
    destruct (batch_mode config); [exact I|]. split; [now apply Hpause|exact I].
Qed.

Lemma every_batch_prologue (s : batch_script) repr config bar pause :
  (forall n, bar (BarNew n)) ->
  every (tidy config (batch_headers s config) (batch_target s config) bar pause)
    (batch_prologue s repr config).
Proof.
  intros Hbar.
  destruct s; cbn [batch_prologue batch_headers batch_target];
    [unfold Remote.prologue, Remote.banner, Remote.log
    |unfold Serverside.prologue, Serverside.banner, Serverside.log];
    (apply every_bind; [|intros _; now apply every_fetch_models]);
    do 2 (apply every_bind; [apply every_log|]; intros _);
    apply every_log.
Qed.

Section TidySequential.

Variable repr : pyval -> string.
Variable json_dumps : pyval -> string.
Variable config : configuration.
Variable bar : bar_event -> Prop.
Variable pause : nat -> Prop.
Hypothesis pause_second : pause 1000.

Let ok :=
  tidy config (UpdateModels.headers config) (target_model config) bar pause.

Lemma every_seq_log (lv : level) (msg : string) :
  every ok (UpdateModels.log config lv msg).
Proof. exact (every_log config _ _ bar pause lv msg). Qed.

Lemma every_fetch_loop (endpoints : list string) :
  incl endpoints listing_paths ->
  every ok (UpdateModels.fetch_loop config endpoints).
Proof.
  induction endpoints as [|endpoint rest IH]; intros Hin; [exact I|].
  cbn [UpdateModels.fetch_loop].
  apply every_bind; [apply every_seq_log|]. intros _.
  apply every_bind.
  { rewrite make_api_call_variants. apply every_api_call_get. apply Hin. now left. }
  intros response. rewrite fetch_branch.
  destruct (looks_like_models response).
  - destruct response; (apply every_bind; [apply every_seq_log|]; intros _; exact I).
  - apply IH. intros x Hx. apply Hin. now right.
Qed.

Lemma every_seq_fetch_models :
  every ok (UpdateModels.fetch_models repr json_dumps config).
Proof.
  unfold UpdateModels.fetch_models.
  apply every_bind; [apply every_fetch_loop; intros x Hx; exact Hx|].
  intros response. destruct (negb (truthy response)).
  - apply every_bind; [apply every_seq_log|]. intros _. exact I.
  - apply every_bind; [apply every_seq_log|]. intros _.
    destruct (Nat.eqb _ 0); (apply every_bind; [apply every_seq_log|]; intros _;
                             exact I).
Qed.

Lemma every_try_update (update_endpoints : list string) (body : dict)
    (model_id model_name : pyval) (n : nat) :
  incl update_endpoints update_paths ->
  dict_get "id" body = Some model_id ->
  invalid_id model_id = false ->
  dict_get "base_model_id" body = Some (PStr (target_model config)) ->
  every ok (UpdateModels.try_update repr json_dumps config update_endpoints body
              model_id model_name n).
Proof.
  intros Hin H1 H2 H3.
  induction update_endpoints as [|endpoint rest IH]; [exact I|].
  cbn [UpdateModels.try_update].
  apply every_bind.
  { rewrite make_api_call_variants. apply every_api_call_post; auto.
    apply Hin. now left. }
  intros response. apply every_bind; [apply every_seq_log|]. intros _.
  destruct (truthy _).
  - apply every_bind; [apply every_seq_log|]. intros _. exact I.
  - apply IH. intros x Hx. apply Hin. now right.
Qed.

Lemma every_update_loop (models : list pyval) (n : nat) :
  every ok (UpdateModels.update_loop repr json_dumps config models n).
Proof.
  revert n. induction models as [|model rest IH]; intros n; [exact I|].
  destruct model as [| | | | |d]; try exact I.
  cbn [UpdateModels.update_loop py_get bind].
  destruct (invalid_id _) eqn:Hid.
  - apply every_bind; [apply every_seq_log|]. intros _. apply IH.
  - do 2 (apply every_bind; [apply every_seq_log|]; intros _).
    cbn [py_copy bind].
    do 2 (apply every_bind; [apply every_seq_log|]; intros _).
    apply every_bind.
    { apply every_try_update.
      - intros x Hx. exact Hx.
      - rewrite payload_id. now apply valid_id_present.
      - exact Hid.
      - apply payload_base. }
    intros res. apply every_bind.
    { destruct (snd res); [exact I|apply every_seq_log]. }
    intros _. split; [exact pause_second|apply IH].
Qed.

Lemma every_update_models :
  every ok (UpdateModels.update_models repr json_dumps config).
Proof.
  unfold UpdateModels.update_models.
  apply every_bind.
  { unfold UpdateModels.banner.
    do 2 (apply every_bind; [apply every_seq_log|]; intros _).
    apply every_seq_log. }
  intros _. apply every_bind; [apply every_seq_fetch_models|]. intros models.
  apply every_bind; [apply every_update_loop|]. intros n.
  unfold UpdateModels.summary.
  do 2 (apply every_bind; [apply every_seq_log|]; intros _).
  destruct (Nat.ltb _ _); apply every_seq_log.
Qed.

End TidySequential.

Lemma and_then_every {A B : Type} (P : event -> Prop) (srv : server)
    (r : outcome A * world) (f : A -> prog B) (w : world) (evs : list event) :
  snd r = replay evs w -> Forall P evs -> (forall a, every P (f a)) ->
  exists evs',
    snd (and_then r (fun a w' => run srv (f a) w')) = replay evs' w
    /\ Forall P evs'.
Proof.
  destruct r as [[a|code|e] w1]; cbn [snd and_then]; intros -> HP Hf; eauto.
  destruct (run_every P srv (f a) (replay evs w) (Hf a)) as (e2 & H1 & H2).
  exists (evs ++ e2). rewrite replay_app. split; [exact H1|].
  apply Forall_app; auto.
Qed.

Lemma run_every_from {A : Type} (P : event -> Prop) (srv : server) (p : prog A)
    (w0 w1 : world) (e1 : list event) :
  w1 = replay e1 w0 -> Forall P e1 -> every P p ->
  exists evs, snd (run srv p w1) = replay evs w0 /\ Forall P evs.
Proof.
  intros -> H1 Hp. destruct (run_every P srv p (replay e1 w0) Hp) as (e2 & H2 & H3).
  exists (e1 ++ e2). rewrite replay_app. split; [exact H2|]. apply Forall_app; auto.
Qed.

Lemma thread_pool_every_from (P : event -> Prop) repr config target worker
    (srv : server) (sched : list nat) (models : list pyval) (w0 w1 : world)
    (e1 : list event) (r : outcome counters * world) :
  w1 = replay e1 w0 -> Forall P e1 ->
  (forall m, every P (worker m)) ->
  (forall fs c, every P (Batch.collect repr config target fs c)) ->
  Batch.thread_pool repr config target worker srv sched models w1 = Some r ->
  exists evs, snd r = replay evs w0 /\ Forall P evs.
Proof.
  intros -> H1 Hw Hc H.
  destruct (thread_pool_every P _ _ _ _ _ _ _ _ _ Hw Hc H) as (e2 & H2 & H3).
  exists (e1 ++ e2). rewrite replay_app. split; [exact H2|]. apply Forall_app; auto.
Qed.

Lemma batch_run_tidy (s : batch_script) repr json_dumps config (srv : server)
    (sched : list nat) (w : world) (r : outcome counters * world) :
  batch_update_models s repr json_dumps config srv sched w = Some r ->
  exists evs,
    snd r = replay evs w
    /\ Forall (tidy config (batch_headers s config) (batch_target s config)
                 any_use (batch_pause s config)) evs.
Proof.
  set (P := tidy config (batch_headers s config) (batch_target s config)
              any_use (batch_pause s config)).
  destruct (run_every P srv (batch_prologue s repr config) w
              (every_batch_prologue s repr config any_use _ (fun _ => I)))
    as (pro & Hpro & Hpro').
  pose proof (fun m => every_batch_worker s repr json_dumps config any_use
                         (batch_pause s config) m I) as Hworker.
  pose proof (every_collect repr config (batch_headers s config)
                (batch_target s config) any_use (batch_pause s config))
    as Hcollect.
  pose proof (every_summary repr config (batch_headers s config)
                (batch_target s config) any_use (batch_pause s config) I)
    as Hsummary.
  fold P in Hworker, Hcollect, Hsummary.
  destruct s; cbn [batch_update_models batch_prologue batch_target batch_headers
                   batch_worker] in *.
  - unfold Remote.update_models.
    destruct (run srv (Remote.prologue repr config) w) as [[models|code|e] w1];
      cbn [snd] in Hpro; try (intros H; apply some_eq_inv in H; subst r; eauto).
    destruct (batch_mode config).
    + match goal with
      | |- match ?tp with _ => _ end = _ -> _ =>
          destruct tp as [r0|] eqn:Htp; [|discriminate]
      end.
      intros H. apply some_eq_inv in H. subst r.
      match type of Htp with
      | Batch.thread_pool _ _ _ _ _ _ _ (snd (run srv ?p w1)) = _ =>
          destruct (run_every_from P srv p w w1 pro Hpro Hpro'
                      (every_log config _ _ _ _ _ _)) as (e2 & H2 & H2')
      end.
      destruct (thread_pool_every_from P _ _ _ _ _ _ _ w _ e2 _ H2 H2'
                  Hworker Hcollect Htp) as (e3 & H3 & H3').
      eapply and_then_every; eauto.
    + intros H. apply some_eq_inv in H. subst r.
      match goal with
      | |- context [and_then (run srv ?p w1) _] =>
          destruct (run_every_from P srv p w w1 pro Hpro Hpro') as (e2 & H2 & H2')
      end.
      { apply every_bind; [apply every_log|]. intros _.
        apply every_sequential_loop; [exact I|].
        intros Hb. split; [exact Hb|reflexivity]. }
      eapply and_then_every; eauto.
  - unfold Serverside.update_models.
    destruct (run srv (Serverside.prologue repr config) w) as [[models|code|e] w1];
      cbn [snd] in Hpro; try (intros H; apply some_eq_inv in H; subst r; eauto).
    match goal with
    | |- match ?tp with _ => _ end = _ -> _ =>
        destruct tp as [r0|] eqn:Htp; [|discriminate]
    end.
    intros H. apply some_eq_inv in H. subst r.
    destruct (thread_pool_every_from P _ _ _ _ _ _ _ w _ pro _ Hpro Hpro'
                Hworker Hcollect Htp) as (e3 & H3 & H3').
    eapply and_then_every; eauto.
Qed.

Lemma script_run_tidy (sc : script) repr json_dumps config (srv : server)
    (sched : list nat) (w : world) (code : Z) (w' : world) :
  script_run sc repr json_dumps config srv sched w = Some (code, w') ->
  exists evs,
    w' = replay evs w
    /\ Forall (tidy config (script_headers sc config) (script_target sc config)
                 any_use (script_pause sc config)) evs.
Proof.
  destruct sc as [|s]; cbn [script_run script_headers script_target].
  - intros H. apply some_eq_inv in H.
    assert (Hw : w' = snd (run srv (UpdateModels.update_models repr json_dumps
                                      config) w)) by congruence.
    rewrite Hw. apply run_every. apply every_update_models. reflexivity.
  - destruct (batch_update_models s repr json_dumps config srv sched w)
      as [r|] eqn:Hr; [|discriminate].
    cbn [option_map]. intros H. apply some_eq_inv in H.
    assert (Hw : w' = snd r) by congruence.
    rewrite Hw. eapply batch_run_tidy; eauto.
Qed.

(** * The payload, once more *)

Lemma dict_set_same (k : string) (v : pyval) (d : dict) :
  dict_get k d = Some v -> dict_set k v d = d.
Proof.
  induction d as [|[k' v'] d IH]; simpl; [discriminate|].
  destruct (String.eqb_spec k k') as [->|Hne].
  - intros H. injection H as ->. reflexivity.
  - intros H. now rewrite IH.
Qed.

Lemma py_eq_same_string (s : string) : py_eq (PStr s) (PStr s) = true.
Proof. simpl. apply String.eqb_refl. Qed.

Lemma ensure_present (k : string) (v : pyval) (p : dict) :
  dict_get k p <> None -> ensure k v p = p.
Proof.
  unfold ensure, dict_mem. destruct (dict_get k p); [reflexivity|congruence].
Qed.

Lemma build_payload_again repr (d : dict) (model_name model_name' : pyval)
    (target : string) :
  build_payload repr (build_payload repr d model_name target) model_name' target
  = build_payload repr d model_name target.
Proof.
  set (p := build_payload repr d model_name target).
  rewrite (build_payload_ensure repr p).
  assert (Hl : forall k, dict_get k p
               = if String.eqb "base_model_id" k then Some (PStr target) else
                 match dict_get k d with
                 | Some v => Some v
                 | None =>
                     if String.eqb "name" k then Some model_name
                     else if String.eqb "meta" k
                          then Some (default_meta repr model_name target)
                          else if String.eqb "params" k then Some (PDict [])
                               else None
                 end) by (intros k; apply build_payload_lookup).
  rewrite (dict_set_same "base_model_id" (PStr target) p) by (now rewrite Hl).
  rewrite (ensure_present "name"), (ensure_present "meta"),
    (ensure_present "params");
    try reflexivity; rewrite Hl; simpl;
    match goal with |- context [dict_get ?k d] => destruct (dict_get k d) end;
    discriminate.
Qed.

(** * The end of a batch run *)

Lemma and_then_summary_world repr config target (srv : server)
    (r : outcome counters * world) (c : counters) (w' : world) :
  Some (and_then r (fun c w => run srv (Batch.summary repr config target c) w))
    = Some (Returned c, w') ->
  exists w1,
    r = (Returned c, w1)
    /\ run srv (Batch.summary repr config target c) w1 = (Returned c, w').
Proof.
  intros H. destruct (and_then_summary _ _ _ _ _ _ _ H) as (w1 & ->).
  exists w1. split; [reflexivity|]. cbn [and_then] in H. now apply some_eq_inv in H.
Qed.

Lemma batch_run_summary (s : batch_script) repr json_dumps config (srv : server)
    (sched : list nat) (w w' : world) (c : counters) :
  batch_update_models s repr json_dumps config srv sched w = Some (Returned c, w') ->
  exists w1,
    run srv (Batch.summary repr config (batch_target s config) c) w1
    = (Returned c, w').
Proof.
  destruct s; cbn [batch_update_models batch_target].
  - unfold Remote.update_models.
    destruct (run srv (Remote.prologue repr config) w) as [[models|code|e] w1];
      try discriminate.
    match goal with
    | |- match ?counted with _ => _ end = _ -> _ =>
        destruct counted as [r|]; [|discriminate]
    end.
    intros H. apply and_then_summary_world in H. destruct H as (w2 & _ & H). eauto.
  - unfold Serverside.update_models.
    destruct (run srv (Serverside.prologue repr config) w) as [[models|code|e] w1];
      try discriminate.
    match goal with
    | |- match ?counted with _ => _ end = _ -> _ =>
        destruct counted as [r|]; [|discriminate]
    end.
    intros H. apply and_then_summary_world in H. destruct H as (w2 & _ & H). eauto.
Qed.

Lemma run_summary_world repr config target (srv : server) (c : counters)
    (w : world) :
  let w' := snd (run srv (Batch.summary repr config target c) w) in
  console w' = console w ++ summary_lines repr target c
  /\ bar_closed w' = true /\ sent w' = sent w /\ slept w' = slept w
  /\ bar_n w' = bar_n w /\ bar_total w' = bar_total w.
Proof.
  unfold Batch.summary, Batch.log, summary_lines.
  destruct (0 <? failed_updates c)%nat;
    cbn [bind run do_print do_bar console bar_closed sent slept bar_n bar_total snd];
    rewrite <- !app_assoc; cbn [app]; repeat split; reflexivity.
Qed.

(** * Pauses *)

Lemma tidy_sleep_zero config hs target bar (evs : list event) :
  Forall (tidy config hs target bar never) evs -> sleep_of evs = 0.
Proof.
  induction 1 as [|e evs He Hall IH]; [reflexivity|].
  rewrite sleep_of_cons, IH. destruct e; simpl in *; try reflexivity.
  destruct He.
Qed.

Lemma every_sleep_zero {A : Type} config hs target bar (p : prog A) evs o :
  every (tidy config hs target bar never) p -> exec p evs o -> sleep_of evs = 0.
Proof.
  intros Hp He. eapply tidy_sleep_zero. eapply every_exec; eauto.
Qed.

(** Sequencing after a program that always returns. *)
Lemma exec_bind_returns {A B : Type} (Q : list event -> Prop) (p : prog A)
    (f : A -> prog B) evs o :
  (forall e1 o1, exec p e1 o1 -> Q e1 /\ exists a, o1 = Returned a) ->
  exec (bind p f) evs o ->
  exists a e1 e2, evs = e1 ++ e2 /\ Q e1 /\ exec p e1 (Returned a) /\ exec (f a) e2 o.
Proof.
  intros Hp H. apply exec_bind_inv in H.
  destruct H as [(a & e1 & e2 & H1 & H2 & ->)|[(code & H1 & _)|(e & H1 & _)]].
  - exists a, e1, e2. destruct (Hp _ _ H1) as [Hq _]. auto.
  - destruct (Hp _ _ H1) as [_ (a & Ha)]. discriminate.
  - destruct (Hp _ _ H1) as [_ (a & Ha)]. discriminate.
Qed.

Section SequentialPauses.

Variable repr : pyval -> string.
Variable json_dumps : pyval -> string.
Variable config : configuration.

Let no_pause (evs : list event) : Prop := sleep_of evs = 0.

Lemma log_no_pause (lv : level) (msg : string) e1 (o1 : outcome unit) :
  exec (UpdateModels.log config lv msg) e1 o1 ->
  no_pause e1 /\ exists a, o1 = Returned a.
Proof.
  intros H. split.
  - eapply (every_sleep_zero _ _ _ any_use); [|exact H].
    apply (every_seq_log config any_use never).
  - apply exec_log in H. destruct H as (-> & _). eauto.
Qed.

Lemma try_update_no_pause (d : dict) (n : nat) e1 o1 :
  invalid_id (get_default "id" (PStr "unknown") d) = false ->
  exec (UpdateModels.try_update repr json_dumps config
          UpdateModels.update_endpoints
          (build_payload repr d (get_default "name" (PStr "unknown") d)
             (target_model config))
          (get_default "id" (PStr "unknown") d)
          (get_default "name" (PStr "unknown") d) n) e1 o1 ->
  no_pause e1 /\ exists a, o1 = Returned a.
Proof.
  intros Hid H. split.
  - eapply (every_sleep_zero _ _ _ any_use); [|exact H].
    apply (every_try_update repr json_dumps config any_use never).
    + intros x Hx. exact Hx.
    + rewrite payload_id. now apply valid_id_present.
    + exact Hid.
    + apply payload_base.
  - apply exec_try_update in H. destruct H as (result & _ & ->). eauto.
Qed.

(** One second after every record that is dispatched, nothing after a
    record that is skipped. *)
Lemma exec_update_loop_pauses (models : list pyval) (n : nat) evs o :
  Forall (fun m => is_dict m = true) models ->
  exec (UpdateModels.update_loop repr json_dumps config models n) evs o ->
  sleep_of evs = 1000 * count (fun m => negb (has_invalid_id m)) models.
Proof.
  intros Hd. revert n evs.
  induction Hd as [|m models Hm Hd IH]; intros n evs H.
  - simpl in H. inversion H; subst. reflexivity.
  - destruct m as [| | | | |d]; try discriminate.
    rewrite count_cons.
    cbn [UpdateModels.update_loop py_get py_copy bind] in H.
    cbn [has_invalid_id].
    destruct (invalid_id (get_default "id" (PStr "unknown") d)) eqn:Hid.
    + apply (exec_bind_returns no_pause) in H; [|apply log_no_pause].
      destruct H as (? & e1 & e2 & -> & H1 & _ & H).
      rewrite sleep_of_app, H1, (IH _ _ H). simpl. lia.
    + do 2 (apply (exec_bind_returns no_pause) in H; [|apply log_no_pause];
            destruct H as (? & ? & ? & -> & ? & _ & H)).
      cbn [py_copy bind] in H.
      do 2 (apply (exec_bind_returns no_pause) in H; [|apply log_no_pause];
            destruct H as (? & ? & ? & -> & ? & _ & H)).
      apply (exec_bind_returns no_pause) in H;
        [|intros e1 o1; apply try_update_no_pause; exact Hid].
      destruct H as (res & ? & ? & -> & ? & _ & H).
      apply (exec_bind_returns no_pause) in H.
      2:{ intros e1 o1. destruct (snd res); [|apply log_no_pause].
          intros Hret. inversion Hret; subst. split; [reflexivity|eauto]. }
      destruct H as (? & ? & ? & -> & ? & _ & H).
      cbn [bind] in H. inversion H; subst; clear H.
      match goal with
      | Hr : exec (UpdateModels.update_loop _ _ _ models _) _ _ |- _ =>
          apply IH in Hr; rename Hr into Hrest
      end.
      unfold no_pause in *.
      rewrite !sleep_of_app, sleep_of_cons, Hrest.
      repeat match goal with Hz : sleep_of _ = 0 |- _ => rewrite Hz; clear Hz end.
      simpl negb. cbv iota. lia.
Qed.

End SequentialPauses.

Lemma tidy_no_sleep config hs target bar (pause : nat -> Prop)
    (evs : list event) :
  (forall ms, ~ pause ms) ->
  Forall (tidy config hs target bar pause) evs -> sleep_of evs = 0.
Proof.
  intros Hp. induction 1 as [|e evs He Hall IH]; [reflexivity|].
  rewrite sleep_of_cons, IH. destruct e; simpl in *; try reflexivity.
  now apply Hp in He.
Qed.

Lemma run_no_pause {A : Type} config hs target bar (srv : server) (p : prog A)
    (w : world) :
  every (tidy config hs target bar never) p -> slept (snd (run srv p w)) = slept w.
Proof.
  intros H. rewrite replay_trace, slept_replay.
  rewrite (every_sleep_zero config hs target bar p _ _ H (exec_trace srv p w)).
  lia.
Qed.

Lemma seq_prologue_no_pause repr json_dumps config (srv : server) (w : world) :
  slept (snd (run srv (UpdateModels.banner config ;;
                       UpdateModels.fetch_models repr json_dumps config) w))
  = slept w.
Proof.
  apply (run_no_pause config (UpdateModels.headers config) (target_model config)
           any_use).
  apply every_bind.
  - unfold UpdateModels.banner.
    do 2 (apply every_bind; [apply every_seq_log|]; intros _).
    apply every_seq_log.
  - intros _. apply every_seq_fetch_models.
Qed.

Lemma seq_summary_no_pause repr config (srv : server) (a b : nat) (w : world) :
  slept (snd (run srv (UpdateModels.summary repr config a b) w)) = slept w.
Proof.
  apply (run_no_pause config (UpdateModels.headers config) (target_model config)
           any_use).
  unfold UpdateModels.summary.
  do 2 (apply every_bind; [apply every_seq_log|]; intros _).
  destruct (Nat.ltb _ _); apply every_seq_log.
Qed.

Section RemotePauses.

Variable repr : pyval -> string.
Variable json_dumps : pyval -> string.
Variable config : configuration.

Lemma exec_sequential_loop_pauses (models : list pyval) (c : counters) evs o :
  Forall (fun m => is_dict m = true) models ->
  exec (Remote.sequential_loop repr json_dumps config models c) evs o ->
  sleep_of evs = (if batch_mode config then 0 else 500) * List.length models.
Proof.
  intros Hd. revert c evs.
  induction Hd as [|m models Hm Hd IH]; intros c evs H.
  - simpl in H. inversion H; subst. destruct (batch_mode config); reflexivity.
  - destruct m as [| | | | |d]; try discriminate.
    cbn [Remote.sequential_loop py_get bind] in H.
    apply (exec_bind_returns (fun e => sleep_of e = 0)) in H.
    2:{ intros e1 o1 H1. split.
        - eapply (every_sleep_zero _ _ _ any_use); [|exact H1].
          apply every_try_except.
          + apply every_bind; [now apply every_remote_worker|]. intros success.
            unfold Batch.tally. destruct (truthy success); [exact I|].
            cbn [py_get bind]. destruct (py_eq _ _); exact I.
          + intros e. unfold Batch.on_exception.
            apply every_bind; [apply every_log|]. intros _. exact I.
        - apply exec_try_except_inv in H1.
          destruct H1 as [[H1 _]|(e' & e3 & e4 & H1 & _ & _)];
            apply exec_worker_then_tally in H1; destruct H1 as (v & Hv & _);
            [eauto|discriminate]. }
    destruct H as (c' & e1 & e2 & -> & H1 & _ & H).
    rewrite sleep_of_app, H1. cbn [List.length].
    destruct (batch_mode config); cbn [negb bind] in H.
    + apply IH in H. rewrite H. lia.
    + inversion H; subst; clear H.
      match goal with
      | Hr : exec (Remote.sequential_loop _ _ _ models _) _ _ |- _ =>
          apply IH in Hr; rewrite sleep_of_cons, Hr
      end.
      lia.
Qed.

End RemotePauses.

(** * Records that are not mappings *)

Section NotMappings.

Variable repr : pyval -> string.
Variable json_dumps : pyval -> string.
Variable config : configuration.

Lemma py_get_not_dict (model : pyval) (k : string) (default : pyval) :
  is_dict model = false ->
  exists msg, py_get model k default = Raise (AttributeError msg).
Proof. destruct model; simpl; intros H; try discriminate; eauto. Qed.

Lemma exec_collect_not_dict target worker (fs : list (pyval * outcome pyval))
    (c : counters) evs o :
  worker_sound target worker ->
  Exists (fun mo => is_dict (fst mo) = false) fs ->
  Forall (fun mo => exists evs, exec (worker (fst mo)) evs (snd mo)) fs ->
  exec (Batch.collect repr config target fs c) evs o ->
  exists msg, o = Raised (AttributeError msg).
Proof.
  intros Hw Hex Hall. revert c evs.
  induction Hall as [|[m o1] fs Hm Hall IH]; intros c evs H.
  - inversion Hex.
  - destruct (is_dict m) eqn:Hd.
    + destruct m as [| | | | |d]; try discriminate.
      destruct Hm as (wevs & Hwk). cbn [fst snd] in Hwk.
      destruct (Hw d wevs o1 Hwk) as (v & -> & _).
      rewrite collect_cons_returned in H.
      apply (IH ltac:(inversion Hex; subst; [simpl in *; congruence|assumption])
               _ _ H).
    + destruct (py_get_not_dict m "name" (PStr "unknown") Hd) as (msg & Hg).
      cbn [Batch.collect] in H. rewrite Hg in H. cbn [bind] in H.
      inversion H; subst. eauto.
Qed.

Lemma exec_update_loop_not_dict (models : list pyval) (n : nat) evs o :
  Exists (fun m => is_dict m = false) models ->
  exec (UpdateModels.update_loop repr json_dumps config models n) evs o ->
  exists msg, o = Raised (AttributeError msg).
Proof.
  intros Hex. revert n evs.
  induction models as [|m models IH]; intros n evs H; [inversion Hex|].
  destruct (is_dict m) eqn:Hd.
  - assert (Hrest : Exists (fun m => is_dict m = false) models)
      by (inversion Hex; subst; [congruence|assumption]).
    destruct m as [| | | | |d]; try discriminate.
    destruct (has_invalid_id (PDict d)) eqn:Hid.
    + cbn [UpdateModels.update_loop py_get bind] in H. simpl in Hid.
      rewrite Hid in H. unfold UpdateModels.log in H. cbn [bind] in H.
      inversion H; subst. eauto.
    + destruct (exec_update_loop_dispatch _ _ _ d models n evs o Hid H)
        as (e1 & e2 & result & _ & _ & He). eauto.
  - destruct (py_get_not_dict m "id" (PStr "unknown") Hd) as (msg & Hg).
    cbn [UpdateModels.update_loop] in H. rewrite Hg in H. cbn [bind] in H.
    inversion H; subst. eauto.
Qed.

Lemma exec_sequential_loop_not_dict (models : list pyval) (c : counters) evs o :
  Exists (fun m => is_dict m = false) models ->
  exec (Remote.sequential_loop repr json_dumps config models c) evs o ->
  exists msg, o = Raised (AttributeError msg).
Proof.
  intros Hex. revert c evs.
  induction models as [|m models IH]; intros c evs H; [inversion Hex|].
  destruct (is_dict m) eqn:Hd.
  - assert (Hrest : Exists (fun m => is_dict m = false) models)
      by (inversion Hex; subst; [congruence|assumption]).
    destruct m as [| | | | |d]; try discriminate.
    cbn [Remote.sequential_loop py_get bind] in H.
    apply exec_bind_inv in H.
    destruct H as [(c1 & e1 & e2 & H1 & H2 & ->)|[(code & H1 & ?)|(e & H1 & ?)]];
      apply exec_try_except_inv in H1;
      destruct H1 as [[H1 _]|(e' & e3 & e4 & H1 & _ & _)];
      apply exec_worker_then_tally in H1;
      destruct H1 as (v & Hv & _); try discriminate.
    apply exec_bind_inv in H2.
    destruct H2 as [(u & e5 & e6 & _ & H2 & ->)|[(code & H2 & ?)|(e & H2 & ?)]].
    + eauto.
    + destruct (negb (batch_mode config)); exec_inv.
    + destruct (negb (batch_mode config)); exec_inv.
  - destruct (py_get_not_dict m "name" (PStr "unknown") Hd) as (msg & Hg).
    cbn [Remote.sequential_loop] in H. rewrite Hg in H. cbn [bind] in H.
    inversion H; subst. eauto.
Qed.

End NotMappings.

Lemma thread_pool_not_dict repr config target worker (srv : server)
    (sched : list nat) (models : list pyval) (w : world)
    (r : outcome counters * world) :
  worker_sound target worker ->
  (0 < max_workers config)%Z ->
  Exists (fun m => is_dict m = false) models ->
  Batch.thread_pool repr config target worker srv sched models w = Some r ->
  exists msg, fst r = Raised (AttributeError msg).
Proof.
  intros Hw Hpos Hex. unfold Batch.thread_pool.
  assert (Hz : (max_workers config <=? 0)%Z = false) by (apply Z.leb_gt; exact Hpos).
  rewrite Hz. set (st := pool_run srv _ sched _).
  destruct (drained st) eqn:Hdr; [|discriminate].
  intros H. apply some_eq_inv in H. subst r.
  assert (Hok : pool_ok (map worker models) st)
    by (apply pool_run_ok, pool_ok_init).
  destruct (as_completed_spec worker models st Hok Hdr) as [Hperm Hall].
  eapply (exec_collect_not_dict repr config target worker _ _ _ _ Hw);
    [|exact Hall|apply exec_trace].
  apply Exists_exists. apply Exists_exists in Hex. destruct Hex as (m & Hin & Hm).
  apply (Permutation_in _ (Permutation_sym Hperm)) in Hin.
  apply in_map_iff in Hin. destruct Hin as (mo & <- & Hin). eauto.
Qed.

(** * Discovery in the batch scripts *)

Lemma trace_bind {A B : Type} (srv : server) (p : prog A) (f : A -> prog B)
    (w : world) :
  trace srv (bind p f) w
  = trace srv p w
    ++ match run srv p w with
       | (Returned a, w') => trace srv (f a) w'
       | _ => []
       end.
Proof.
  revert w. induction p as [a|rq k IH|lv msg k IH|ev k IH|ms k IH|code|e];
    intros w; simpl; try reflexivity; try (now rewrite IH).
Qed.

Lemma exec_fetch_response config hs evs o :
  exec (Batch.fetch_response config hs) evs o ->
  exists r1 xs2,
    exchanges_of evs = (listing_request config hs "/models", r1) :: xs2
    /\ ((truthy (returned r1) && is_list (returned r1) = true
         /\ xs2 = [] /\ o = Returned (returned r1))
        \/ (truthy (returned r1) && is_list (returned r1) = false
            /\ stops_at_first code_recognised
                 (map (listing_request config hs) Batch.alternatives) xs2
            /\ o = Returned (last_response (returned r1) xs2))).
Proof.
  unfold Batch.fetch_response, Batch.log. cbn [bind]. intros H.
  exec_step.
  match goal with Hb : exec (bind _ _) _ _ |- _ => rename Hb into H end.
  apply exec_bind_inv in H.
  destruct H as [(resp & l2 & k2 & H2 & H & ->)|[(? & H2 & _)|(? & H2 & _)]];
    apply exec_make_api_call_get in H2; destruct H2 as (r1 & Hx & Hl2 & _);
    try discriminate.
  injection Hx as ->.
  exists r1, (exchanges_of k2). split.
  { trace_simpl. now rewrite Hl2. }
  destruct (truthy (returned r1) && is_list (returned r1)); cbn [negb] in H.
  - left. inversion H; subst. auto.
  - right.
    apply (exec_try_alternatives config hs Batch.alternatives (returned r1)) in H.
    destruct H as [Hs ->]. auto.
Qed.

Lemma stops_at_first_length (recognised : reply -> Prop) (requests : list request)
    (xs : list (request * reply)) :
  stops_at_first recognised requests xs -> List.length xs <= List.length requests.
Proof.
  intros (Hm & _). apply (f_equal (@List.length request)) in Hm.
  rewrite length_map, length_firstn in Hm. lia.
Qed.

Lemma final_cons_cons {A : Type} (x : A) (l : list A) :
  final (x :: l) = match final l with Some y => Some y | None => Some x end.
Proof.
  destruct l as [|y l]; [reflexivity|].
  rewrite final_cons. destruct (final_nonempty y l) as (z & ->). reflexivity.
Qed.

Lemma final_nil_inv {A : Type} (l : list A) : final l = None -> l = [].
Proof.
  destruct l as [|x l]; [reflexivity|].
  destruct (final_nonempty x l) as (z & ->). discriminate.
Qed.

(** What the extraction makes of an answer that discovery does not
    recognise: nothing. *)
Lemma unrecognised_empty (v : pyval) :
  looks_like_models v = false -> py_len (Batch.extract_models v) = Ret 0.
Proof.
  unfold looks_like_models.
  destruct v as [|b|n|s|xs|d]; simpl; try reflexivity.
  - destruct xs; [reflexivity|discriminate].
  - destruct d as [|kv d]; [reflexivity|]. cbn [andb]. unfold models_or_data, get_default, dict_mem.
    destruct (dict_get "models" (kv :: d)); [discriminate|].
    destruct (dict_get "data" (kv :: d)); [discriminate|]. reflexivity.
Qed.

(** * What a pool has done *)

Lemma task_step_event {A : Type} (srv : server) (p p' : prog A) (w w' : world) :
  task_step srv p w = Some (p', w') ->
  exists e,
    w' = replay_event w e /\ answered_by srv e
    /\ forall evs o, exec p' evs o -> exec p (e :: evs) o.
Proof.
  destruct p; simpl; intros H; try discriminate; injection H as <- <-.
  - exists (EvHttp rq (srv (sent w) rq)). split; [reflexivity|].
    split; [exists (sent w); reflexivity|]. intros evs o H. now apply exec_http.
  - exists (EvPrint lv msg). split; [reflexivity|]. split; [exact I|].
    intros evs o H. now apply exec_print.
  - exists (EvBar ev). split; [reflexivity|]. split; [exact I|].
    intros evs o H. now apply exec_bar.
  - exists (EvSleep ms). split; [reflexivity|]. split; [exact I|].
    intros evs o H. now apply exec_sleep.
Qed.

Lemma concat_set_nth {A : Type} (i : nat) (t : list A) (x : A)
    (trs : list (list A)) :
  nth_error trs i = Some t ->
  Permutation (List.concat (set_nth i (t ++ [x]) trs)) (List.concat trs ++ [x]).
Proof.
  revert i. induction trs as [|t0 trs IH]; intros [|i] H; simpl in *;
    try discriminate.
  - injection H as ->. rewrite <- !app_assoc. apply Permutation_app_head.
    apply Permutation_cons_append.
  - rewrite <- app_assoc. apply Permutation_app_head. now apply IH.
Qed.

Lemma concat_map_nil {A B : Type} (l : list A) :
  List.concat (map (fun _ => @nil B) l) = [].
Proof. induction l; simpl; auto. Qed.

Lemma pool_log_init (srv : server) (init : list (prog pyval)) (w : world) :
  pool_log srv init w {| tasks := init; finished := []; pworld := w |}
    (map (fun _ => []) init) [].
Proof.
  constructor; simpl.
  - apply length_map.
  - reflexivity.
  - now rewrite concat_map_nil.
  - constructor.
  - intros i p p0 t evs o H1 H2 H3 H. rewrite H1 in H2. injection H2 as <-.
    rewrite nth_error_map, H1 in H3. injection H3 as <-. exact H.
Qed.

Lemma pool_step_log (srv : server) (workers : nat) (init : list (prog pyval))
    (w0 : world) (st : pool) (i : nat) (trs : list (list event))
    (hist : list event) :
  pool_ok init st -> pool_log srv init w0 st trs hist ->
  exists trs' hist', pool_log srv init w0 (pool_step srv workers st i) trs' hist'.
Proof.
  intros Hok [Hlen Hw Hperm Hans Hexec]. unfold pool_step.
  destruct (may_run workers i st);
    [|exists trs, hist; constructor; assumption].
  destruct (nth_error (tasks st) i) as [p|] eqn:Hp;
    [|exists trs, hist; constructor; assumption].
  destruct (task_step srv p (pworld st)) as [[p' w']|] eqn:Hs.
  - destruct (task_step_event srv p p' _ _ Hs) as (e & -> & Hae & Hstep).
    destruct (nth_error trs i) as [t|] eqn:Ht.
    2:{ apply nth_error_None in Ht.
        assert (i < List.length (tasks st))
          by (apply nth_error_Some; congruence).
        rewrite (ok_length _ _ Hok) in *. lia. }
    exists (set_nth i (t ++ [e]) trs), (hist ++ [e]). constructor; simpl.
    + now rewrite set_nth_length.
    + rewrite replay_app, <- Hw. reflexivity.
    + eapply Permutation_trans; [apply Permutation_app_tail; exact Hperm|].
      apply Permutation_sym, concat_set_nth. exact Ht.
    + apply Forall_app. split; [exact Hans|]. constructor; [exact Hae|constructor].
    + intros j q q0 t' evs o Hq Hq0 Ht' Hex.
      destruct (Nat.eq_dec i j) as [<-|Hne].
      * rewrite (nth_error_set_nth_same i p' p _ Hp) in Hq. injection Hq as <-.
        rewrite (nth_error_set_nth_same i (t ++ [e]) t _ Ht) in Ht'.
        injection Ht' as <-.
        rewrite <- app_assoc. simpl. eapply Hexec; eauto.
      * rewrite (nth_error_set_nth_other i j _ _ Hne) in Hq.
        rewrite (nth_error_set_nth_other i j _ _ Hne) in Ht'. eauto.
  - exists trs, hist. constructor; simpl; assumption.
Qed.

Lemma pool_run_log (srv : server) (workers : nat) (init : list (prog pyval))
    (w0 : world) (sched : list nat) (st : pool) (trs : list (list event))
    (hist : list event) :
  pool_ok init st -> pool_log srv init w0 st trs hist ->
  exists trs' hist', pool_log srv init w0 (pool_run srv workers sched st) trs' hist'.
Proof.
  revert st trs hist. induction sched as [|i sched IH]; intros st trs hist Hok Hlog.
  - exists trs, hist. exact Hlog.
  - change (pool_run srv workers (i :: sched) st)
      with (pool_run srv workers sched (pool_step srv workers st i)).
    destruct (pool_step_log srv workers init w0 st i trs hist Hok Hlog)
      as (trs1 & hist1 & H1).
    eapply IH; [apply pool_step_ok; exact Hok|exact H1].
Qed.

Lemma Forall2_nth_error {A B : Type} (R : A -> B -> Prop) (l : list A)
    (l' : list B) :
  List.length l = List.length l' ->
  (forall i x y, nth_error l i = Some x -> nth_error l' i = Some y -> R x y) ->
  Forall2 R l l'.
Proof.
  revert l'. induction l as [|x l IH]; intros [|y l'] Hlen H; try discriminate.
  - constructor.
  - constructor.
    + apply (H 0); reflexivity.
    + apply IH; [simpl in Hlen; lia|]. intros i. apply (H (S i)).
Qed.

(** Once every future is done, each task has a complete execution, made
    of answers of the server. *)
Lemma pool_drained_traces (srv : server) (init : list (prog pyval)) (w0 : world)
    (st : pool) (trs : list (list event)) (hist : list event) :
  pool_ok init st -> pool_log srv init w0 st trs hist -> drained st = true ->
  Forall2 (fun p0 t => exists o, exec p0 t o /\ Forall (answered_by srv) t)
    init trs.
Proof.
  intros Hok [Hlen Hw Hperm Hans Hexec] Hd.
  apply Forall2_nth_error; [now symmetry|].
  intros i p0 t Hp0 Ht.
  assert (Hi : i < List.length init) by (apply nth_error_Some; congruence).
  assert (Hfin : In i (finished st)).
  { apply (Permutation_in _ (Permutation_sym (drained_permutation _ _ Hok Hd))).
    apply in_seq. lia. }
  destruct (nth_error (tasks st) i) as [p|] eqn:Hp.
  2:{ apply nth_error_None in Hp. rewrite (ok_length _ _ Hok) in Hp. lia. }
  destruct (outcome_of p) as [o|] eqn:Ho;
    [|exfalso; exact (ok_done _ _ Hok i p Hfin Hp Ho)].
  exists o. split.
  - rewrite <- (app_nil_r t). eapply Hexec; eauto. now apply outcome_of_exec.
  - apply Forall_forall. intros e He.
    apply (proj1 (Forall_forall _ _) Hans).
    apply (Permutation_in _ (Permutation_sym Hperm)).
    apply in_concat. exists t. split; [|exact He].
    eapply nth_error_In; eauto.
Qed.

(** * Counters of a run against a server without memory *)

Lemma exec_answered_run {A : Type} (srv : server) (p : prog A) evs o :
  stateless srv -> exec p evs o -> Forall (answered_by srv) evs ->
  forall w, fst (run srv p w) = o.
Proof.
  intros Hs He. induction He; intros Ha w; simpl; try reflexivity;
    inversion Ha as [|e0 l0 H0 Hrest]; subst; auto.
  destruct H0 as (h & ->). rewrite (Hs (sent w) h). apply IHHe. exact Hrest.
Qed.

Lemma as_completed_answered (srv : server) (worker : pyval -> prog pyval)
    (models : list pyval) (w0 : world) (st : pool) (trs : list (list event))
    (hist : list event) :
  pool_ok (map worker models) st ->
  pool_log srv (map worker models) w0 st trs hist ->
  Forall (fun mo => exists t, exec (worker (fst mo)) t (snd mo)
                              /\ Forall (answered_by srv) t)
         (as_completed models st).
Proof.
  intros Hok [Hlen Hw Hperm Hans Hexec].
  apply Forall_forall. intros [m o] Hin. unfold as_completed in Hin.
  apply in_flat_map in Hin. destruct Hin as (i & Hi & Hin).
  unfold future_of in Hin.
  destruct (nth_error models i) as [m'|] eqn:Hm; [|destruct Hin].
  destruct (nth_error (tasks st) i) as [p|] eqn:Hp; [|destruct Hin].
  destruct (outcome_of p) as [o'|] eqn:Ho; [|destruct Hin].
  destruct Hin as [Hin|[]]. injection Hin as <- <-.
  destruct (nth_error trs i) as [t|] eqn:Ht.
  2:{ apply nth_error_None in Ht. rewrite Hlen, length_map in Ht.
      assert (i < List.length models) by (apply nth_error_Some; congruence). lia. }
  exists t. cbn [fst snd]. split.
  - rewrite <- (app_nil_r t). eapply Hexec; eauto.
    + now apply map_nth_error.
    + now apply outcome_of_exec.
  - apply Forall_forall. intros e He.
    apply (proj1 (Forall_forall _ _) Hans).
    apply (Permutation_in _ (Permutation_sym Hperm)).
    apply in_concat. exists t. split; [|exact He]. eapply nth_error_In; eauto.
Qed.

Lemma count_is_verdict (v : verdict) (verdict_of : pyval -> verdict) (m : pyval)
    (c : counters) :
  verdict_of m = v ->
  successful_updates (bump v c)
    = successful_updates c + (if is_verdict (verdict_of m) Updated then 1 else 0)
  /\ failed_updates (bump v c)
     = failed_updates c + (if is_verdict (verdict_of m) Failed then 1 else 0)
  /\ skipped_updates (bump v c)
     = skipped_updates c + (if is_verdict (verdict_of m) Skipped then 1 else 0).
Proof. intros ->. destruct v; simpl; lia. Qed.

Section Alone.

Variable repr : pyval -> string.
Variable config : configuration.
Variable target : string.
Variable worker : pyval -> prog pyval.
Variable srv : server.
Hypothesis worker_ok : worker_sound target worker.
Hypothesis no_memory : stateless srv.

Let verdict_of := verdict_alone srv worker target.

Lemma exec_collect_alone (fs : list (pyval * outcome pyval)) (c c' : counters) evs :
  Forall (fun mo => exists t, exec (worker (fst mo)) t (snd mo)
                              /\ Forall (answered_by srv) t) fs ->
  exec (Batch.collect repr config target fs c) evs (Returned c') ->
  successful_updates c'
    = successful_updates c
      + count (fun m => is_verdict (verdict_of m) Updated) (map fst fs)
  /\ failed_updates c'
     = failed_updates c
       + count (fun m => is_verdict (verdict_of m) Failed) (map fst fs)
  /\ skipped_updates c'
     = skipped_updates c
       + count (fun m => is_verdict (verdict_of m) Skipped) (map fst fs).
Proof.
  intros Hall. revert c evs.
  induction Hall as [|[m o1] fs Hm Hall IH]; intros c evs H.
  - simpl in H. inversion H; subst. unfold count. simpl. lia.
  - destruct Hm as (t & Ht & Hans). cbn [fst snd] in Ht.
    destruct m as [| | | | |d];
      try (cbn [Batch.collect py_get bind] in H; inversion H; fail).
    destruct (worker_ok d t o1 Ht) as (v & -> & _).
    rewrite collect_cons_returned in H.
    destruct (IH _ _ H) as (I1 & I2 & I3).
    assert (Hv : verdict_of (PDict d) = classify target (PDict d) v).
    { unfold verdict_of, verdict_alone.
      now rewrite (exec_answered_run srv _ _ _ no_memory Ht Hans world0). }
    destruct (count_is_verdict _ verdict_of (PDict d) c Hv) as (J1 & J2 & J3).
    cbn [map fst]. rewrite !count_cons. lia.
Qed.

End Alone.

Section AloneSequential.

Variable repr : pyval -> string.
Variable json_dumps : pyval -> string.
Variable config : configuration.
Variable srv : server.
Hypothesis no_memory : stateless srv.

Let target := target_model config.
Let usm := Remote.update_single_model repr json_dumps config.
Let verdict_of := verdict_alone srv usm target.

Lemma exec_sequential_loop_alone (models : list pyval) (c c' : counters) evs :
  Forall (answered_by srv) evs ->
  exec (Remote.sequential_loop repr json_dumps config models c) evs (Returned c') ->
  successful_updates c'
    = successful_updates c
      + count (fun m => is_verdict (verdict_of m) Updated) models
  /\ failed_updates c'
     = failed_updates c + count (fun m => is_verdict (verdict_of m) Failed) models
  /\ skipped_updates c'
     = skipped_updates c + count (fun m => is_verdict (verdict_of m) Skipped) models.
Proof.
  revert c evs. induction models as [|m models IH]; intros c evs Hans H.
  - simpl in H. inversion H; subst. unfold count. simpl. lia.
  - destruct m as [| | | | |d];
      try (cbn [Remote.sequential_loop py_get bind] in H; inversion H; fail).
    cbn [Remote.sequential_loop py_get bind] in H.
    apply exec_bind_inv in H.
    destruct H as [(c1 & e1 & e2 & H1 & H2 & ->)|[(code & _ & ?)|(e & _ & ?)]];
      try discriminate.
    apply Forall_app in Hans. destruct Hans as [Ha1 Ha2].
    apply exec_try_except_inv in H1.
    destruct H1 as [[H1 _]|(e & e3 & e4 & H1 & _ & _)];
      [|apply exec_worker_then_tally in H1; destruct H1 as (v & Hv & _);
        discriminate].
    apply exec_bind_inv in H1.
    destruct H1 as [(v & t & e4 & Ht & H1 & ->)|[(code & _ & ?)|(e & _ & ?)]];
      try discriminate.
    rewrite tally_dict in H1. inversion H1; subst. clear H1.
    apply Forall_app in Ha1. destruct Ha1 as [Hat _].
    apply exec_bind_inv in H2.
    destruct H2 as [(u & e5 & e6 & _ & H2 & ->)|[(code & _ & ?)|(e & _ & ?)]];
      try discriminate.
    apply Forall_app in Ha2. destruct Ha2 as [_ Ha6].
    destruct (IH _ _ Ha6 H2) as (I1 & I2 & I3).
    assert (Hv : verdict_of (PDict d) = classify target (PDict d) v).
    { unfold verdict_of, verdict_alone. fold usm in Ht.
      now rewrite (exec_answered_run srv _ _ _ no_memory Ht Hat world0). }
    destruct (count_is_verdict _ verdict_of (PDict d) c Hv) as (J1 & J2 & J3).
    rewrite !count_cons. fold target in I1, I2, I3. lia.
Qed.

End AloneSequential.

Lemma counters_eq (c c' : counters) :
  successful_updates c = successful_updates c' ->
  failed_updates c = failed_updates c' ->
  skipped_updates c = skipped_updates c' ->
  c = c'.
Proof. destruct c, c'; simpl; congruence. Qed.

Lemma thread_pool_alone repr config target worker (srv : server)
    (sched : list nat) (models : list pyval) (w w' : world) (c : counters) :
  worker_sound target worker -> stateless srv ->
  Batch.thread_pool repr config target worker srv sched models w
    = Some (Returned c, w') ->
  c = counters_of (verdict_alone srv worker target) models.
Proof.
  intros Hw Hs. unfold Batch.thread_pool.
  destruct (max_workers config <=? 0)%Z; [discriminate|].
  set (st := pool_run srv _ sched _).
  destruct (drained st) eqn:Hd; [|discriminate].
  intros H. apply some_eq_inv in H.
  assert (Hok : pool_ok (map worker models) st)
    by (apply pool_run_ok, pool_ok_init).
  destruct (pool_run_log srv (Z.to_nat (max_workers config)) (map worker models) w
              sched _ _ _ (pool_ok_init _ w) (pool_log_init srv _ w))
    as (trs & hist & Hlog).
  fold st in Hlog.
  pose proof (as_completed_answered srv worker models w st trs hist Hok Hlog)
    as Hall.
  destruct (as_completed_spec worker models st Hok Hd) as [Hperm _].
  destruct (run_exec srv (Batch.collect repr config target
                            (as_completed models st) no_updates) (pworld st))
    as (evs & He & _).
  rewrite H in He. simpl in He.
  destruct (exec_collect_alone repr config target worker srv Hw Hs _ _ _ _ Hall He)
    as (I1 & I2 & I3).
  rewrite (count_permutation _ _ _ Hperm) in I1.
  rewrite (count_permutation _ _ _ Hperm) in I2.
  rewrite (count_permutation _ _ _ Hperm) in I3.
  apply counters_eq; simpl; simpl in I1, I2, I3; assumption.
Qed.

Lemma batch_update_models_alone (s : batch_script) repr json_dumps config
    (srv : server) (sched : list nat) (w w' : world) (c : counters) :
  stateless srv ->
  batch_update_models s repr json_dumps config srv sched w = Some (Returned c, w') ->
  exists models w1,
    run srv (batch_prologue s repr config) w = (Returned models, w1) /\
    c = counters_of
          (verdict_alone srv (batch_worker s repr json_dumps config)
             (batch_target s config)) models.
Proof.
  intros Hs.
  destruct s; cbn [batch_update_models batch_prologue batch_target batch_worker].
  - unfold Remote.update_models.
    destruct (run srv (Remote.prologue repr config) w) as [[models|code|e] w1];
      try discriminate.
    intros H. exists models, w1. split; [reflexivity|].
    destruct (batch_mode config).
    + match type of H with
      | match ?tp with _ => _ end = _ => destruct tp as [r|] eqn:Htp; [|discriminate]
      end.
      apply and_then_summary in H. destruct H as (w2 & ->).
      eapply thread_pool_alone; [|exact Hs|exact Htp]. apply remote_worker_sound.
    + apply and_then_summary in H. destruct H as (w2 & H).
      rewrite run_bind in H. unfold Remote.log, Batch.log in H. simpl in H.
      match type of H with
      | run srv ?p ?w0 = _ =>
          pose proof (exec_trace srv p w0) as He;
          pose proof (trace_answered srv p w0) as Ha
      end.
      rewrite H in He. simpl in He.
      destruct (exec_sequential_loop_alone _ _ _ _ Hs _ _ _ _ Ha He)
        as (I1 & I2 & I3).
      apply counters_eq; simpl; simpl in I1, I2, I3; assumption.
  - unfold Serverside.update_models.
    destruct (run srv (Serverside.prologue repr config) w) as [[models|code|e] w1];
      try discriminate.
    intros H. exists models, w1. split; [reflexivity|].
    match type of H with
    | match ?tp with _ => _ end = _ => destruct tp as [r|] eqn:Htp; [|discriminate]
    end.
    apply and_then_summary in H. destruct H as (w2 & ->).
    eapply thread_pool_alone; [|exact Hs|exact Htp]. apply serverside_worker_sound.
Qed.

(** * The progress bar of the batch scripts *)

Lemma bar_replay (evs : list event) (w : world) :
  Forall moves_only evs ->
  bar_total (replay evs w) = bar_total w
  /\ bar_n (replay evs w) = bar_n w + bar_advance evs
  /\ bar_closed (replay evs w) = bar_closed w.
Proof.
  intros H. revert w. induction H as [|e evs He Hall IH]; intros w.
  - rewrite bar_advance_nil. simpl. repeat split; lia.
  - change (replay (e :: evs) w) with (replay evs (replay_event w e)).
    destruct (IH (replay_event w e)) as (I1 & I2 & I3).
    rewrite I1, I2, I3, bar_advance_cons.
    destruct e as [rq r|lv msg|[n|n|]|ms]; simpl in He; try contradiction;
      simpl; repeat split; lia.
Qed.

Lemma bar_advance_permutation (evs evs' : list event) :
  Permutation evs evs' -> bar_advance evs = bar_advance evs'.
Proof.
  induction 1 as [|e l l' Hp IH|e e' l|l l' l'' H1 IH1 H2 IH2].
  - reflexivity.
  - rewrite !bar_advance_cons, IH. reflexivity.
  - rewrite !bar_advance_cons. lia.
  - congruence.
Qed.

Lemma tidy_moves_only config hs target (bar : bar_event -> Prop)
    (pause : nat -> Prop) (evs : list event) :
  (forall ev, bar ev -> exists n, ev = BarUpdate n) ->
  Forall (tidy config hs target bar pause) evs -> Forall moves_only evs.
Proof.
  intros Hbar H. induction H as [|e evs He Hall IH]; constructor; [|exact IH].
  destruct e as [rq r|lv msg|ev|ms]; simpl; auto.
  simpl in He. destruct (Hbar ev He) as (n & ->). exact I.
Qed.

Lemma one_step_moves (ev : bar_event) : one_step ev -> exists n, ev = BarUpdate n.
Proof. intros ->. eauto. Qed.

Lemma no_use_moves (ev : bar_event) : no_use ev -> exists n, ev = BarUpdate n.
Proof. intros []. Qed.

Lemma chars_length (s : string) : List.length (chars s) = String.length s.
Proof. induction s as [|c s IH]; simpl; congruence. Qed.

Lemma py_len_iter (v : pyval) (w w' : world) (srv : server) (n : nat) :
  run srv (py_len v) w = (Returned n, w') ->
  List.length (py_iter v) = n /\ w' = w.
Proof.
  destruct v; simpl; intros H; try discriminate; injection H as <- <-;
    split; auto using chars_length, length_map.
Qed.

(** The records are handed over with a new bar, as long as they are many. *)
Lemma run_fetch_models_bar repr config hs (srv : server) (w w1 : world)
    (models : list pyval) :
  run srv (Batch.fetch_models repr config hs) w = (Returned models, w1) ->
  bar_total w1 = List.length models /\ bar_n w1 = 0 /\ bar_closed w1 = false.
Proof.
  unfold Batch.fetch_models. rewrite run_bind.
  destruct (run srv (Batch.fetch_response config hs) w) as [[response|code|e] w2];
    cbn [and_then]; try discriminate.
  rewrite run_bind.
  destruct (run srv (py_len (Batch.extract_models response)) w2)
    as [[n|code|e] w3] eqn:Hlen; cbn [and_then]; try discriminate.
  apply py_len_iter in Hlen. destruct Hlen as (Hn & ->).
  destruct (Nat.eqb n 0).
  - unfold Batch.log. simpl. discriminate.
  - unfold Batch.log. simpl. intros H. injection H as <- <-. simpl. auto.
Qed.

Lemma run_prologue_bar (s : batch_script) repr config (srv : server)
    (w w1 : world) (models : list pyval) :
  run srv (batch_prologue s repr config) w = (Returned models, w1) ->
  bar_total w1 = List.length models /\ bar_n w1 = 0 /\ bar_closed w1 = false.
Proof.
  destruct s; cbn [batch_prologue];
    [unfold Remote.prologue|unfold Serverside.prologue];
    rewrite run_bind;
    match goal with
    | |- context [run srv ?b w] => destruct (run srv b w) as [[[]|code|e] wb]
    end; cbn [and_then]; try discriminate; apply run_fetch_models_bar.
Qed.

(** * The effects of the batch scripts, record by record *)

Lemma every_aside_log config (lv : level) (msg : string) :
  every aside (Batch.log config lv msg).
Proof. unfold Batch.log. destruct lv; try destruct (debug config); simpl; auto. Qed.

Lemma every_aside_collect repr config target (fs : list (pyval * outcome pyval))
    (c : counters) :
  every aside (Batch.collect repr config target fs c).
Proof.
  revert c. induction fs as [|[m o] fs IH]; intros c; [exact I|].
  cbn [Batch.collect]. apply every_bind; [destruct m; exact I|]. intros model_name.
  apply every_bind; [|intros c'; apply IH].
  apply every_try_except.
  - apply every_bind; [destruct o; exact I|]. intros success. unfold Batch.tally.
    destruct (truthy success); [exact I|].
    apply every_bind; [destruct m; exact I|].
    intros b. destruct (py_eq _ _); exact I.
  - intros e. unfold Batch.on_exception.
    apply every_bind; [apply every_aside_log|]. intros _. exact I.
Qed.

Lemma Forall2_map_left {A B C : Type} (R : B -> C -> Prop) (f : A -> B)
    (l : list A) (l' : list C) :
  Forall2 R (map f l) l' -> Forall2 (fun a c => R (f a) c) l l'.
Proof.
  revert l'. induction l as [|a l IH]; intros l' H; inversion H; subst;
    constructor; auto.
Qed.

Lemma Forall2_weaken {A B : Type} (R R' : A -> B -> Prop) (l : list A)
    (l' : list B) :
  (forall a b, R a b -> R' a b) -> Forall2 R l l' -> Forall2 R' l l'.
Proof. intros H. induction 1; constructor; auto. Qed.

(** The pool: what happened is an interleaving of one complete run of the
    worker for each record, followed by lines of the console. *)
Lemma thread_pool_traces repr config target worker (srv : server)
    (sched : list nat) (models : list pyval) (w w' : world) (c : counters) :
  worker_sound target worker ->
  Batch.thread_pool repr config target worker srv sched models w
    = Some (Returned c, w') ->
  exists body trs extras,
    w' = replay body w
    /\ Permutation body (List.concat trs ++ extras)
    /\ Forall aside extras
    /\ Forall2 (fun m t => exists o, exec (worker m) t o) models trs
    /\ Forall (fun m => is_dict m = true) models.
Proof.
  intros Hw. unfold Batch.thread_pool.
  destruct (max_workers config <=? 0)%Z; [discriminate|].
  set (st := pool_run srv _ sched _).
  destruct (drained st) eqn:Hd; [|discriminate].
  intros H. apply some_eq_inv in H.
  assert (Hok : pool_ok (map worker models) st)
    by (apply pool_run_ok, pool_ok_init).
  destruct (pool_run_log srv (Z.to_nat (max_workers config)) (map worker models) w
              sched _ _ _ (pool_ok_init _ w) (pool_log_init srv _ w))
    as (trs & hist & Hlog).
  fold st in Hlog.
  pose proof (pool_drained_traces _ _ _ _ _ _ Hok Hlog Hd) as Htr.
  destruct Hlog as [_ Hworld Hperm _ _].
  destruct (as_completed_spec worker models st Hok Hd) as [Hp Hall].
  set (collect := Batch.collect repr config target (as_completed models st)
                    no_updates) in *.
  pose proof (exec_trace srv collect (pworld st)) as He.
  pose proof (replay_trace srv collect (pworld st)) as Hr.
  rewrite H in He, Hr. cbn [fst snd] in He, Hr.
  destruct (exec_collect repr config target worker Hw _ _ _ _ Hall He)
    as (Hdict & _).
  exists (hist ++ trace srv collect (pworld st)), trs, (trace srv collect (pworld st)).
  split; [now rewrite replay_app, <- Hworld|].
  split; [now apply Permutation_app_tail|].
  split; [apply every_run, every_aside_collect|].
  split.
  - apply Forall2_map_left in Htr.
    eapply Forall2_weaken; [|exact Htr]. intros m t (o & Ho & _). eauto.
  - eapply Permutation_Forall; [exact Hp|exact Hdict].
Qed.

Lemma interleave_head {A : Type} (t x a b rest : list A) :
  Permutation rest (a ++ b) ->
  Permutation ((t ++ x) ++ rest) ((t ++ a) ++ (x ++ b)).
Proof.
  intros H. rewrite <- !app_assoc. apply Permutation_app_head.
  rewrite H. rewrite !app_assoc. apply Permutation_app_tail.
  apply Permutation_app_comm.
Qed.

(** The sequential mode of [update-remotely]: the same, in order. *)
Lemma exec_sequential_loop_traces repr json_dumps config (models : list pyval)
    (c c' : counters) evs :
  exec (Remote.sequential_loop repr json_dumps config models c) evs (Returned c') ->
  exists trs extras,
    Permutation evs (List.concat trs ++ extras)
    /\ Forall aside extras
    /\ Forall2 (fun m t =>
                  exists o, exec (Remote.update_single_model repr json_dumps
                                    config m) t o) models trs.
Proof.
  revert c evs. induction models as [|m models IH]; intros c evs H.
  - simpl in H. inversion H; subst. exists [], []. repeat constructor.
  - destruct m as [| | | | |d];
      try (cbn [Remote.sequential_loop py_get bind] in H; inversion H; fail).
    cbn [Remote.sequential_loop py_get bind] in H.
    apply exec_bind_inv in H.
    destruct H as [(c1 & e1 & e2 & H1 & H2 & ->)|[(code & _ & ?)|(e & _ & ?)]];
      try discriminate.
    apply exec_try_except_inv in H1.
    destruct H1 as [[H1 _]|(e & e3 & e4 & H1 & _ & _)];
      [|apply exec_worker_then_tally in H1; destruct H1 as (v & Hv & _);
        discriminate].
    apply exec_bind_inv in H1.
    destruct H1 as [(v & t & e4 & Ht & H1 & ->)|[(code & _ & ?)|(e & _ & ?)]];
      try discriminate.
    rewrite tally_dict in H1. inversion H1; subst. clear H1.
    apply exec_bind_inv in H2.
    destruct H2 as [(u & e5 & e6 & H5 & H2 & ->)|[(code & _ & ?)|(e & _ & ?)]];
      try discriminate.
    destruct (IH _ _ H2) as (trs & extras & Hp & Ha & Hf).
    exists (t :: trs), (e5 ++ extras). split; [|split].
    + rewrite app_nil_r, (app_assoc t e5 e6). cbn [List.concat].
      now apply interleave_head.
    + apply Forall_app. split; [|exact Ha].
      destruct (negb (batch_mode config)); inversion H5; subst.
      * match goal with Hk : exec (Ret tt) _ _ |- _ => inversion Hk; subst end.
        repeat constructor.
      * constructor.
    + constructor; [eauto|exact Hf].
Qed.

Lemma batch_run_traces (s : batch_script) repr json_dumps config (srv : server)
    (sched : list nat) (w w' : world) (c : counters) :
  batch_update_models s repr json_dumps config srv sched w = Some (Returned c, w') ->
  exists models w1 body trs extras,
    run srv (batch_prologue s repr config) w = (Returned models, w1)
    /\ run srv (Batch.summary repr config (batch_target s config) c)
         (replay body w1) = (Returned c, w')
    /\ Permutation body (List.concat trs ++ extras)
    /\ Forall aside extras
    /\ Forall2 (fun m t =>
                  exists o, exec (batch_worker s repr json_dumps config m) t o)
         models trs
    /\ Forall (fun m => is_dict m = true) models.
Proof.
  destruct s; cbn [batch_update_models batch_prologue batch_target batch_worker].
  - unfold Remote.update_models.
    destruct (run srv (Remote.prologue repr config) w) as [[models|code|e] w1];
      try discriminate.
    intros H. exists models, w1.
    destruct (batch_mode config).
    + match type of H with
      | match ?tp with _ => _ end = _ => destruct tp as [r|] eqn:Htp; [|discriminate]
      end.
      apply and_then_summary_world in H. destruct H as (w2 & -> & Hsum).
      match type of Htp with
      | Batch.thread_pool _ _ _ _ _ _ _ (snd (run srv ?p w1)) = _ =>
          pose proof (replay_trace srv p w1) as Hlog;
          pose proof (every_run aside srv p w1 (every_aside_log config _ _)) as Hal;
          set (line := trace srv p w1) in *
      end.
      rewrite Hlog in Htp.
      destruct (thread_pool_traces _ _ _ _ _ _ _ _ _ _
                  (remote_worker_sound repr json_dumps config) Htp)
        as (body & trs & extras & -> & Hp & Ha & Hf & Hd).
      exists (line ++ body), trs, (line ++ extras).
      split; [reflexivity|]. rewrite replay_app.
      split; [exact Hsum|]. split; [|split; [|split; assumption]].
      * rewrite Hp. apply Permutation_app_swap_app.
      * apply Forall_app. split; assumption.
    + apply and_then_summary_world in H. destruct H as (w2 & Hr & Hsum).
      rewrite run_bind in Hr.
      change (run srv (Remote.log config INFO "Using sequential processing") w1)
        with (Returned tt, do_print INFO "Using sequential processing" w1) in Hr.
      cbn [and_then] in Hr.
      set (loop := Remote.sequential_loop repr json_dumps config models no_updates)
        in Hr.
      set (wl := do_print INFO "Using sequential processing" w1) in Hr.
      pose proof (exec_trace srv loop wl) as He.
      pose proof (replay_trace srv loop wl) as Hw.
      rewrite Hr in He, Hw. cbn [fst snd] in He, Hw.
      destruct (exec_sequential_loop_traces _ _ _ _ _ _ _ He)
        as (trs & extras & Hp & Ha & Hf).
      destruct (exec_sequential_loop _ _ _ _ _ _ _ He) as (Hd & _).
      exists (EvPrint INFO "Using sequential processing" :: trace srv loop wl),
        trs, (EvPrint INFO "Using sequential processing" :: extras).
      split; [reflexivity|].
      split; [change (replay (?e :: ?evs) w1) with (replay evs wl);
              rewrite <- Hw; exact Hsum|].
      split; [|split; [|split; assumption]].
      * rewrite Hp. apply Permutation_middle.
      * constructor; [exact I|exact Ha].
  - unfold Serverside.update_models.
    destruct (run srv (Serverside.prologue repr config) w) as [[models|code|e] w1];
      try discriminate.
    intros H. exists models, w1.
    match type of H with
    | match ?tp with _ => _ end = _ => destruct tp as [r|] eqn:Htp; [|discriminate]
    end.
    apply and_then_summary_world in H. destruct H as (w2 & -> & Hsum).
    destruct (thread_pool_traces _ _ _ _ _ _ _ _ _ _
                (serverside_worker_sound repr config Serverside.hardcoded_target)
                Htp)
      as (body & trs & extras & -> & Hp & Ha & Hf & Hd).
    exists body, trs, extras. repeat split; assumption.
Qed.

Lemma aside_quiet (evs : list event) :
  Forall aside evs ->
  bar_advance evs = 0 /\ exchanges_of evs = [] /\ Forall moves_only evs.
Proof.
  induction 1 as [|e evs He Hall (I1 & I2 & I3)].
  - repeat split. constructor.
  - rewrite bar_advance_cons, exchanges_of_cons, I1, I2.
    destruct e; simpl in He; try contradiction; repeat split; auto;
      constructor; simpl; auto.
Qed.

Lemma dispatch_trace_posts config hs (update_payload : dict) (model_id : pyval)
    (xs : list (request * reply)) (result : pyval) :
  dispatch_trace config hs update_payload model_id xs result ->
  1 <= List.length (map fst xs) <= 2
  /\ Forall (fun rq => rq_verb rq = POST) (map fst xs).
Proof.
  intros (r1 & [(_ & -> & _)|(_ & r2 & -> & _)]); simpl; split; try lia;
    repeat constructor.
Qed.

(** One record in a batch script: the bar moves by one; the server hears
    of the record only if it needs an update, and then once or twice. *)
Lemma batch_worker_trace (s : batch_script) repr json_dumps config (d : dict)
    (t : list event) (o : outcome pyval) :
  exec (batch_worker s repr json_dumps config (PDict d)) t o ->
  bar_advance t = 1
  /\ Forall moves_only t
  /\ Forall (fun rq => rq_verb rq = POST) (requests_of t)
  /\ (if needs_update (batch_target s config) (PDict d)
      then 1 <= List.length (requests_of t) <= 2
      else requests_of t = []).
Proof.
  intros H.
  assert (Hm : Forall moves_only t).
  { eapply tidy_moves_only; [exact one_step_moves|].
    eapply every_exec; [|exact H].
    apply (every_batch_worker s repr json_dumps config one_step never).
    reflexivity. }
  unfold needs_update. cbn [has_invalid_id at_target].
  destruct (invalid_id (get_default "id" (PStr "unknown") d)) eqn:Hid.
  - assert (Ht : t = [EvBar (BarUpdate 1)]).
    { destruct s; cbn [batch_worker] in H;
        [rewrite remote_worker_invalid in H by exact Hid
        |rewrite serverside_worker_invalid in H by exact Hid];
        exec_inv; reflexivity. }
    subst t. repeat split; auto; constructor.
  - destruct (py_eq (get_default "base_model_id" (PStr "unknown") d)
                (PStr (batch_target s config))) eqn:Hat.
    + assert (Ht : t = [EvBar (BarUpdate 1)]).
      { destruct s; cbn [batch_worker batch_target] in H, Hat;
          [rewrite remote_worker_at_target in H by assumption
          |rewrite serverside_worker_at_target in H by assumption];
          exec_inv; reflexivity. }
      subst t. repeat split; auto; constructor.
    + assert (Hx : exists hs payload model_id result,
                 dispatch_trace config hs payload model_id (exchanges_of t) result
                 /\ bar_advance t = 1).
      { destruct s; cbn [batch_worker batch_target] in H, Hat.
        - destruct (remote_worker_dispatch _ _ _ _ _ _ Hid Hat H)
            as (result & _ & Hdt & Hb). eauto 8.
        - destruct (serverside_worker_dispatch _ _ _ _ _ _ Hid Hat H)
            as (result & _ & Hdt & Hb). eauto 8. }
      destruct Hx as (hs & payload & model_id & result & Hdt & Hb).
      apply dispatch_trace_posts in Hdt. destruct Hdt as (Hlen & Hpost).
      cbn [negb andb]. unfold requests_of. auto.
Qed.

Lemma requests_of_permutation (evs evs' : list event) :
  Permutation evs evs' -> Permutation (requests_of evs) (requests_of evs').
Proof.
  intros H. unfold requests_of, exchanges_of.
  apply Permutation_map. now apply Permutation_flat_map.
Qed.

Lemma batch_traces_sum (s : batch_script) repr json_dumps config
    (models : list pyval) (trs : list (list event)) :
  Forall (fun m => is_dict m = true) models ->
  Forall2 (fun m t => exists o, exec (batch_worker s repr json_dumps config m) t o)
    models trs ->
  bar_advance (List.concat trs) = List.length models
  /\ Forall moves_only (List.concat trs)
  /\ Forall (fun rq => rq_verb rq = POST) (requests_of (List.concat trs))
  /\ count (needs_update (batch_target s config)) models
     <= List.length (requests_of (List.concat trs))
     <= 2 * count (needs_update (batch_target s config)) models.
Proof.
  intros Hd H. induction H as [|m t models trs (o & Ht) Hrest IH].
  - simpl. repeat split; try constructor; unfold count; simpl; lia.
  - inversion Hd as [|m' ms Hm Hds]; subst.
    destruct m as [| | | | |d]; try discriminate.
    destruct (IH Hds) as (I1 & I2 & I3 & I4).
    destruct (batch_worker_trace _ _ _ _ _ _ _ Ht) as (B1 & B2 & B3 & B4).
    cbn [List.concat List.length].
    rewrite bar_advance_app, requests_of_app, length_app, count_cons.
    split; [lia|]. split; [now apply Forall_app|].
    split; [now apply Forall_app|].
    destruct (needs_update (batch_target s config) (PDict d)).
    + lia.
    + rewrite B4. simpl. lia.
Qed.

(** * The count of [update-models.py] *)

Lemma exec_update_loop_bound repr json_dumps config (models : list pyval)
    (n n' : nat) evs :
  Forall (fun m => is_dict m = true) models ->
  exec (UpdateModels.update_loop repr json_dumps config models n) evs (Returned n') ->
  n <= n' <= n + count (fun m => negb (has_invalid_id m)) models.
Proof.
  intros Hd. revert n evs. induction Hd as [|m models Hm Hd IH]; intros n evs H.
  - simpl in H. inversion H; subst. unfold count. simpl. lia.
  - destruct m as [| | | | |d]; try discriminate.
    rewrite count_cons.
    destruct (has_invalid_id (PDict d)) eqn:Hid.
    + cbn [UpdateModels.update_loop py_get bind] in H. simpl in Hid.
      rewrite Hid in H. unfold UpdateModels.log in H. cbn [bind] in H.
      inversion H; subst.
      match goal with Hr : exec _ _ (Returned n') |- _ => apply IH in Hr end.
      simpl. lia.
    + destruct (exec_update_loop_dispatch _ _ _ d models n evs _ Hid H)
        as (e1 & e2 & result & _ & _ & He).
      apply IH in He. simpl. destruct (truthy result); lia.
Qed.

Lemma count_below {A : Type} (f : A -> bool) (l : list A) :
  Exists (fun x => f x = false) l -> count f l < List.length l.
Proof.
  assert (Hle : forall l', count f l' <= List.length l').
  { intros l'. unfold count. apply filter_length_le. }
  induction 1 as [x l Hx|x l Hex IH]; rewrite count_cons; cbn [List.length].
  - rewrite Hx. specialize (Hle l). lia.
  - destruct (f x); lia.
Qed.

Lemma seq_summary_warns repr config (srv : server) (a b : nat) (w : world) :
  (a <? b)%nat = true ->
  exists before,
    console (snd (run srv (UpdateModels.summary repr config a b) w))
    = before
      ++ [(WARNING,
           "Some models could not be updated. Please check the logs above for details")].
Proof.
  intros Hlt. unfold UpdateModels.summary. rewrite Hlt.
  unfold UpdateModels.log. cbn [bind run snd do_print console].
  eexists. reflexivity.
Qed.

(** * Runs that end on an exception *)

Lemma batch_run_not_dict (s : batch_script) repr json_dumps config (srv : server)
    (sched : list nat) (w w1 w' : world) (models : list pyval)
    (o : outcome counters) :
  Exists (fun m => is_dict m = false) models ->
  run srv (batch_prologue s repr config) w = (Returned models, w1) ->
  (0 < max_workers config)%Z \/ (s = RemoteScript /\ batch_mode config = false) ->
  batch_update_models s repr json_dumps config srv sched w = Some (o, w') ->
  exists msg, o = Raised (AttributeError msg).
Proof.
  intros Hex Hrun Hpos.
  assert (Hpool : forall target worker w0 r,
             (0 < max_workers config)%Z ->
             worker_sound target worker ->
             Batch.thread_pool repr config target worker srv sched models w0
               = Some r ->
             Some (and_then r (fun c w2 =>
                     run srv (Batch.summary repr config target c) w2))
               = Some (o, w') ->
             exists msg, o = Raised (AttributeError msg)).
  { intros target worker w0 r Hp Hw Htp H.
    destruct (thread_pool_not_dict _ _ _ _ _ _ _ _ _ Hw Hp Hex Htp)
      as (msg & Hr).
    destruct r as [o0 w2]. cbn [fst] in Hr. subst o0. cbn [and_then] in H.
    apply some_eq_inv in H. exists msg. congruence. }
  destruct s; cbn [batch_update_models batch_prologue] in *.
  - unfold Remote.update_models. rewrite Hrun.
    destruct (batch_mode config).
    + match goal with
      | |- match ?tp with _ => _ end = _ -> _ =>
          destruct tp as [r|] eqn:Htp; [|discriminate]
      end.
      eapply Hpool; [|apply remote_worker_sound|exact Htp].
      destruct Hpos as [Hp|[_ Hb]]; [exact Hp|discriminate].
    + rewrite run_bind.
      change (run srv (Remote.log config INFO "Using sequential processing") w1)
        with (Returned tt, do_print INFO "Using sequential processing" w1).
      cbn [and_then].
      set (loop := Remote.sequential_loop repr json_dumps config models
                     no_updates).
      pose proof (exec_trace srv loop
                    (do_print INFO "Using sequential processing" w1)) as He.
      destruct (run srv loop (do_print INFO "Using sequential processing" w1))
        as [o2 w2].
      cbn [fst] in He.
      destruct (exec_sequential_loop_not_dict _ _ _ _ _ _ _ Hex He) as (msg & ->).
      cbn [and_then]. intros H. apply some_eq_inv in H. exists msg. congruence.
  - unfold Serverside.update_models. rewrite Hrun.
    match goal with
    | |- match ?tp with _ => _ end = _ -> _ =>
        destruct tp as [r|] eqn:Htp; [|discriminate]
    end.
    eapply Hpool; [|apply serverside_worker_sound|exact Htp].
    destruct Hpos as [Hp|[Hs _]]; [exact Hp|discriminate].
Qed.

Lemma seq_run_not_dict repr json_dumps config (srv : server) (w w1 : world)
    (models : list pyval) :
  Exists (fun m => is_dict m = false) models ->
  run srv (UpdateModels.banner config ;;
           UpdateModels.fetch_models repr json_dumps config) w
    = (Returned models, w1) ->
  exists msg,
    fst (run srv (UpdateModels.update_models repr json_dumps config) w)
    = Raised (AttributeError msg).
Proof.
  intros Hex Hrun. unfold UpdateModels.update_models.
  rewrite run_bind in Hrun. rewrite run_bind.
  destruct (run srv (UpdateModels.banner config) w) as [[[]|code|e] wb];
    cbn [and_then] in *; try discriminate.
  rewrite run_bind, Hrun. cbn [and_then]. rewrite run_bind.
  pose proof (exec_trace srv (UpdateModels.update_loop repr json_dumps config
                                models 0) w1) as He.
  destruct (run srv (UpdateModels.update_loop repr json_dumps config models 0) w1)
    as [o2 w2].
  cbn [fst] in He.
  destruct (exec_update_loop_not_dict _ _ _ _ _ _ _ Hex He) as (msg & ->).
  cbn [and_then fst]. eauto.
Qed.

Lemma batch_run_no_workers (s : batch_script) repr json_dumps config
    (srv : server) (sched : list nat) (w w1 : world) (models : list pyval) :
  (max_workers config <= 0)%Z ->
  s = ServersideScript \/ batch_mode config = true ->
  run srv (batch_prologue s repr config) w = (Returned models, w1) ->
  exists w',
    batch_update_models s repr json_dumps config srv sched w
    = Some (Raised (ValueError "max_workers must be greater than 0"), w').
Proof.
  intros Hz Hs Hrun. apply Z.leb_le in Hz.
  destruct s; cbn [batch_update_models batch_prologue] in *.
  - destruct Hs as [Hs|Hb]; [discriminate|].
    unfold Remote.update_models. rewrite Hrun, Hb.
    unfold Batch.thread_pool. rewrite Hz. cbn [and_then]. eauto.
  - unfold Serverside.update_models. rewrite Hrun.
    unfold Batch.thread_pool. rewrite Hz. cbn [and_then]. eauto.
Qed.

(** * The counters, record by record *)

Section Records.

Variable repr : pyval -> string.
Variable config : configuration.
Variable target : string.
Variable worker : pyval -> prog pyval.
Variable srv : server.
Hypothesis worker_ok : worker_sound target worker.

Let ran (r : record_run) : Prop :=
  exec (worker (rr_model r)) (rr_trace r) (Returned (rr_success r))
  /\ Forall (answered_by srv) (rr_trace r).

Lemma bump_tally (v : verdict) (c : counters) (vs : list verdict) (c' : counters) :
  successful_updates c'
    = successful_updates (bump v c) + count (fun v => is_verdict v Updated) vs ->
  failed_updates c'
    = failed_updates (bump v c) + count (fun v => is_verdict v Failed) vs ->
  skipped_updates c'
    = skipped_updates (bump v c) + count (fun v => is_verdict v Skipped) vs ->
  successful_updates c'
    = successful_updates c + count (fun v => is_verdict v Updated) (v :: vs)
  /\ failed_updates c'
     = failed_updates c + count (fun v => is_verdict v Failed) (v :: vs)
  /\ skipped_updates c'
     = skipped_updates c + count (fun v => is_verdict v Skipped) (v :: vs).
Proof. rewrite !count_cons. destruct v; simpl; lia. Qed.

Lemma exec_collect_records (fs : list (pyval * outcome pyval)) (c c' : counters)
    evs :
  Forall (fun mo => exists t, exec (worker (fst mo)) t (snd mo)
                              /\ Forall (answered_by srv) t) fs ->
  exec (Batch.collect repr config target fs c) evs (Returned c') ->
  exists rs,
    map rr_model rs = map fst fs
    /\ Forall ran rs
    /\ successful_updates c'
       = successful_updates c
         + count (fun v => is_verdict v Updated) (map (rr_verdict target) rs)
    /\ failed_updates c'
       = failed_updates c
         + count (fun v => is_verdict v Failed) (map (rr_verdict target) rs)
    /\ skipped_updates c'
       = skipped_updates c
         + count (fun v => is_verdict v Skipped) (map (rr_verdict target) rs).
Proof.
  intros Hall. revert c evs.
  induction Hall as [|[m o1] fs Hm Hall IH]; intros c evs H.
  - simpl in H. inversion H; subst. exists []. unfold count. simpl.
    repeat split; auto; lia.
  - destruct Hm as (t & Ht & Hans). cbn [fst snd] in Ht.
    destruct m as [| | | | |d];
      try (cbn [Batch.collect py_get bind] in H; inversion H; fail).
    destruct (worker_ok d t o1 Ht) as (v & -> & _).
    rewrite collect_cons_returned in H.
    destruct (IH _ _ H) as (rs & Hmap & Hran & I1 & I2 & I3).
    exists (mk_record_run (PDict d) t v :: rs).
    split; [cbn [map rr_model fst]; now rewrite Hmap|].
    split; [constructor; [split; assumption|exact Hran]|].
    cbn [map]. apply bump_tally; assumption.
Qed.

End Records.

Lemma exec_sequential_loop_records repr json_dumps config (srv : server)
    (models : list pyval) (c c' : counters) evs :
  Forall (answered_by srv) evs ->
  exec (Remote.sequential_loop repr json_dumps config models c) evs (Returned c') ->
  exists rs,
    map rr_model rs = models
    /\ Forall (fun r =>
                 exec (Remote.update_single_model repr json_dumps config
                         (rr_model r)) (rr_trace r) (Returned (rr_success r))
                 /\ Forall (answered_by srv) (rr_trace r)) rs
    /\ successful_updates c'
       = successful_updates c
         + count (fun v => is_verdict v Updated)
             (map (rr_verdict (target_model config)) rs)
    /\ failed_updates c'
       = failed_updates c
         + count (fun v => is_verdict v Failed)
             (map (rr_verdict (target_model config)) rs)
    /\ skipped_updates c'
       = skipped_updates c
         + count (fun v => is_verdict v Skipped)
             (map (rr_verdict (target_model config)) rs).
Proof.
  revert c evs. induction models as [|m models IH]; intros c evs Hans H.
  - simpl in H. inversion H; subst. exists []. unfold count. simpl.
    repeat split; auto; lia.
  - destruct m as [| | | | |d];
      try (cbn [Remote.sequential_loop py_get bind] in H; inversion H; fail).
    cbn [Remote.sequential_loop py_get bind] in H.
    apply exec_bind_inv in H.
    destruct H as [(c1 & e1 & e2 & H1 & H2 & ->)|[(code & _ & ?)|(e & _ & ?)]];
      try discriminate.
    apply Forall_app in Hans. destruct Hans as [Ha1 Ha2].
    apply exec_try_except_inv in H1.
    destruct H1 as [[H1 _]|(e & e3 & e4 & H1 & _ & _)];
      [|apply exec_worker_then_tally in H1; destruct H1 as (v & Hv & _);
        discriminate].
    apply exec_bind_inv in H1.
    destruct H1 as [(v & t & e4 & Ht & H1 & ->)|[(code & _ & ?)|(e & _ & ?)]];
      try discriminate.
    rewrite tally_dict in H1. inversion H1; subst. clear H1.
    apply Forall_app in Ha1. destruct Ha1 as [Hat _].
    apply exec_bind_inv in H2.
    destruct H2 as [(u & e5 & e6 & _ & H2 & ->)|[(code & _ & ?)|(e & _ & ?)]];
      try discriminate.
    apply Forall_app in Ha2. destruct Ha2 as [_ Ha6].
    destruct (IH _ _ Ha6 H2) as (rs & Hmap & Hran & I1 & I2 & I3).
    exists (mk_record_run (PDict d) t v :: rs).
    split; [cbn [map rr_model]; now rewrite Hmap|].
    split; [constructor; [split; assumption|exact Hran]|].
    cbn [map]. apply bump_tally; assumption.
Qed.

Lemma tally_from_nothing (c : counters) (vs : list verdict) :
  successful_updates c
    = successful_updates no_updates + count (fun v => is_verdict v Updated) vs ->
  failed_updates c
    = failed_updates no_updates + count (fun v => is_verdict v Failed) vs ->
  skipped_updates c
    = skipped_updates no_updates + count (fun v => is_verdict v Skipped) vs ->
  c = tally_of vs.
Proof. intros H1 H2 H3. apply counters_eq; simpl in *; assumption. Qed.

Lemma thread_pool_records repr config target worker (srv : server)
    (sched : list nat) (models : list pyval) (w w' : world) (c : counters) :
  worker_sound target worker ->
  Batch.thread_pool repr config target worker srv sched models w
    = Some (Returned c, w') ->
  exists rs,
    runs_of srv worker models rs /\ c = tally_of (map (rr_verdict target) rs).
Proof.
  intros Hw. unfold Batch.thread_pool.
  destruct (max_workers config <=? 0)%Z; [discriminate|].
  set (st := pool_run srv _ sched _).
  destruct (drained st) eqn:Hd; [|discriminate].
  intros H. apply some_eq_inv in H.
  assert (Hok : pool_ok (map worker models) st)
    by (apply pool_run_ok, pool_ok_init).
  destruct (pool_run_log srv (Z.to_nat (max_workers config)) (map worker models) w
              sched _ _ _ (pool_ok_init _ w) (pool_log_init srv _ w))
    as (trs & hist & Hlog).
  fold st in Hlog.
  pose proof (as_completed_answered srv worker models w st trs hist Hok Hlog)
    as Hall.
  destruct (as_completed_spec worker models st Hok Hd) as [Hperm _].
  destruct (run_exec srv (Batch.collect repr config target
                            (as_completed models st) no_updates) (pworld st))
    as (evs & He & _).
  rewrite H in He. simpl in He.
  destruct (exec_collect_records repr config target worker srv Hw _ _ _ _ Hall He)
    as (rs & Hmap & Hran & I1 & I2 & I3).
  exists rs. split; [split; [now rewrite Hmap|exact Hran]|].
  now apply tally_from_nothing.
Qed.

(** A batch run that returns: its counters are the tally of the verdicts
    on the fetched records, each from a complete run of the worker. *)
Lemma batch_run_records (s : batch_script) repr json_dumps config (srv : server)
    (sched : list nat) (w w' : world) (c : counters) :
  batch_update_models s repr json_dumps config srv sched w = Some (Returned c, w') ->
  exists models w1 rs,
    run srv (batch_prologue s repr config) w = (Returned models, w1)
    /\ runs_of srv (batch_worker s repr json_dumps config) models rs
    /\ c = tally_of (map (rr_verdict (batch_target s config)) rs).
Proof.
  destruct s; cbn [batch_update_models batch_prologue batch_target batch_worker].
  - unfold Remote.update_models.
    destruct (run srv (Remote.prologue repr config) w) as [[models|code|e] w1];
      try discriminate.
    intros H. exists models, w1.
    destruct (batch_mode config).
    + match type of H with
      | match ?tp with _ => _ end = _ => destruct tp as [r|] eqn:Htp; [|discriminate]
      end.
      apply and_then_summary in H. destruct H as (w2 & ->).
      destruct (thread_pool_records _ _ _ _ _ _ _ _ _ _
                  (remote_worker_sound repr json_dumps config) Htp) as (rs & Hr & Hc).
      exists rs. auto.
    + apply and_then_summary in H. destruct H as (w2 & H).
      rewrite run_bind in H. unfold Remote.log, Batch.log in H. simpl in H.
      match type of H with
      | run srv ?p ?w0 = _ =>
          pose proof (exec_trace srv p w0) as He;
          pose proof (trace_answered srv p w0) as Ha
      end.
      rewrite H in He. simpl in He.
      destruct (exec_sequential_loop_records _ _ _ _ _ _ _ _ Ha He)
        as (rs & Hmap & Hran & I1 & I2 & I3).
      exists rs. split; [reflexivity|].
      split; [split; [now rewrite Hmap|exact Hran]|].
      now apply tally_from_nothing.
  - unfold Serverside.update_models.
    destruct (run srv (Serverside.prologue repr config) w) as [[models|code|e] w1];
      try discriminate.
    intros H. exists models, w1.
    match type of H with
    | match ?tp with _ => _ end = _ => destruct tp as [r|] eqn:Htp; [|discriminate]
    end.
    apply and_then_summary in H. destruct H as (w2 & ->).
    destruct (thread_pool_records _ _ _ _ _ _ _ _ _ _
                (serverside_worker_sound repr config Serverside.hardcoded_target)
                Htp) as (rs & Hr & Hc).
    exists rs. auto.
Qed.

(** * The claims *)

Lemma count_split {A : Type} (f g : A -> bool) (l : list A) :
  count f l = count (fun x => f x && g x) l + count (fun x => f x && negb (g x)) l.
Proof.
  unfold count. induction l as [|x l IH]; simpl; [reflexivity|].
  destruct (f x), (g x); simpl; lia.
Qed.

(** C9. In the batch scripts, a run that reaches the summary has counted
    every fetched record once: the three counters add up to the number of
    fetched records, the records without a usable id among them (they are
    counted as skipped or as failed). *)
Theorem C9_counters_add_up (s : batch_script) (repr json_dumps : pyval -> string)
    (config : configuration) (srv : server) (sched : list nat) (w : world)
    (c : counters) :
  result (batch_update_models s repr json_dumps config srv sched w)
    = Some (Returned c) ->
  exists models w1,
    run srv (batch_prologue s repr config) w = (Returned models, w1) /\
    successful_updates c + skipped_updates c + failed_updates c
      = List.length models /\
    count has_invalid_id models <= skipped_updates c + failed_updates c.
Proof.
  unfold result. intros H.
  destruct (batch_update_models s repr json_dumps config srv sched w)
    as [[o w']|] eqn:Hrun; [|discriminate].
  simpl in H. injection H as ->.
  destruct (batch_update_models_counts s _ _ _ _ _ _ _ _ Hrun)
    as (models & w1 & Hp & _ & Ht & Hs & _ & Hf).
  exists models, w1. split; [exact Hp|]. split; [exact Ht|].
  rewrite (count_split has_invalid_id (at_target (batch_target s config))).
  lia.
Qed.

Lemma C9_witness :
  exists models w1,
    run (listing_server three_records ["b"])
        (batch_prologue RemoteScript sample_repr sample_config) world0
      = (Returned models, w1) /\
    2 + 0 + 1 = List.length models /\
    count has_invalid_id models <= 0 + 1.
Proof.
  apply (C9_counters_add_up RemoteScript sample_repr sample_repr sample_config
           (listing_server three_records ["b"]) (round_robin 3 5) world0
           {| successful_updates := 2; failed_updates := 1; skipped_updates := 0 |}).
  vm_compute. reflexivity.
Defined.

Lemma py_eq_str (v : pyval) (s : string) :
  py_eq v (PStr s) = true <-> v = PStr s.
Proof.
  destruct v; simpl; split; intros H; try discriminate.
  - apply String.eqb_eq in H. now subst.
  - injection H as ->. apply String.eqb_refl.
Qed.

Lemma has_invalid_id_iff (d : dict) :
  has_invalid_id (PDict d) = true <->
  dict_get "id" d = None \/ dict_get "id" d = Some (PStr "unknown")
  \/ dict_get "id" d = Some PNone.
Proof.
  unfold has_invalid_id, invalid_id, get_default.
  destruct (dict_get "id" d) as [v|].
  - rewrite orb_true_iff, py_eq_str. split.
    + intros [->|H]; auto. destruct v; try discriminate. auto.
    + intros [H|[H|H]]; try discriminate; injection H as ->; auto.
  - split; auto.
Qed.

Lemma batch_worker_sound (s : batch_script) repr json_dumps config :
  worker_sound (batch_target s config) (batch_worker s repr json_dumps config).
Proof.
  destruct s; [apply remote_worker_sound|apply serverside_worker_sound].
Qed.


Lemma batch_worker_returns_dict (s : batch_script) repr json_dumps config
    (m : pyval) t v :
  exec (batch_worker s repr json_dumps config m) t (Returned v) ->
  exists d, m = PDict d.
Proof.
  intros H. destruct (is_dict m) eqn:Hd.
  - destruct m; try discriminate. eauto.
  - assert (Hr : exists e, batch_worker s repr json_dumps config m = Raise e).
    { destruct s; cbn [batch_worker];
        [now apply remote_worker_not_dict|now apply serverside_worker_not_dict]. }
    destruct Hr as (e & Hr). rewrite Hr in H. inversion H.
Qed.

(** What the collecting loop makes of one record, from what the worker
    did for it. *)
Lemma run_verdict (s : batch_script) repr json_dumps config (r : record_run) :
  exec (batch_worker s repr json_dumps config (rr_model r)) (rr_trace r)
       (Returned (rr_success r)) ->
  (has_invalid_id (rr_model r) = true ->
   exchanges_of (rr_trace r) = [] /\ bar_advance (rr_trace r) = 1 /\
   rr_verdict (batch_target s config) r
   = if at_target (batch_target s config) (rr_model r) then Skipped else Failed)
  /\ (rr_verdict (batch_target s config) r = Skipped <->
      has_invalid_id (rr_model r) = true
      /\ at_target (batch_target s config) (rr_model r) = true)
  /\ (has_invalid_id (rr_model r) = false ->
      at_target (batch_target s config) (rr_model r) = true ->
      rr_verdict (batch_target s config) r = Updated).
Proof.
  destruct r as [m t v]. cbn [rr_model rr_trace rr_success]. intros H.
  destruct (batch_worker_returns_dict _ _ _ _ _ _ _ H) as (d & ->).
  destruct (batch_worker_sound s repr json_dumps config d t _ H)
    as (v' & Hv & Hinv & Hat).
  injection Hv as <-. unfold rr_verdict, classify. cbn [rr_model rr_success].
  split; [|split].
  - intros Hid. rewrite (Hinv Hid). cbn [truthy]. split; [|split; [|reflexivity]].
    + assert (Hw : batch_worker s repr json_dumps config (PDict d)
                   = Bar (BarUpdate 1) (Ret (PBool false))).
      { destruct s; cbn [batch_worker];
          [apply remote_worker_invalid|apply serverside_worker_invalid];
          exact Hid. }
      rewrite Hw in H. exec_inv. reflexivity.
    + assert (Hw : batch_worker s repr json_dumps config (PDict d)
                   = Bar (BarUpdate 1) (Ret (PBool false))).
      { destruct s; cbn [batch_worker];
          [apply remote_worker_invalid|apply serverside_worker_invalid];
          exact Hid. }
      rewrite Hw in H. exec_inv. reflexivity.
  - destruct (has_invalid_id (PDict d)) eqn:Hid.
    + rewrite (Hinv eq_refl). cbn [truthy].
      destruct (at_target (batch_target s config) (PDict d)); split;
        try tauto; try discriminate. intros [_ ?]. discriminate.
    + destruct (at_target (batch_target s config) (PDict d)) eqn:Ha.
      * rewrite (Hat eq_refl eq_refl). cbn [truthy]. split; [discriminate|].
        intros [? _]. discriminate.
      * destruct (truthy v); split; try discriminate; intros [? _]; discriminate.
  - intros Hid Ha. rewrite (Hat Hid Ha). reflexivity.
Qed.
(** C10. In the batch scripts a record is counted as skipped iff its id is
    missing in the sense of the scripts (the key is absent, or its value is
    null or 'unknown': the test is [model_id == 'unknown' or model_id is
    None]) and its base model equals the target; a record with a usable id
    that is already at the target is counted as successfully updated, and
    no record with a usable id is ever counted as skipped.  The counters of
    a run that returns are the tally of these verdicts over the fetched
    records, whatever the schedule of the workers. *)
Theorem C10_skipped_records (s : batch_script) (repr json_dumps : pyval -> string)
    (config : configuration) (srv : server) (sched : list nat) (w : world)
    (c : counters) :
  result (batch_update_models s repr json_dumps config srv sched w)
    = Some (Returned c) ->
  (exists models w1 rs,
     run srv (batch_prologue s repr config) w = (Returned models, w1) /\
     runs_of srv (batch_worker s repr json_dumps config) models rs /\
     c = tally_of (map (rr_verdict (batch_target s config)) rs) /\
     Forall (fun r =>
               (rr_verdict (batch_target s config) r = Skipped <->
                has_invalid_id (rr_model r) = true
                /\ at_target (batch_target s config) (rr_model r) = true)
               /\ (has_invalid_id (rr_model r) = false ->
                   at_target (batch_target s config) (rr_model r) = true ->
                   rr_verdict (batch_target s config) r = Updated)) rs /\
     skipped_updates c =
       count (fun m => has_invalid_id m && at_target (batch_target s config) m)
             models /\
     count (fun m => negb (has_invalid_id m) && at_target (batch_target s config) m)
           models <= successful_updates c)
  /\ (forall d,
        has_invalid_id (PDict d) = true <->
        dict_get "id" d = None \/ dict_get "id" d = Some (PStr "unknown")
        \/ dict_get "id" d = Some PNone)
  /\ (forall d evs v,
        has_invalid_id (PDict d) = false ->
        exec (batch_worker s repr json_dumps config (PDict d)) evs (Returned v) ->
        classify (batch_target s config) (PDict d) v <> Skipped /\
        (at_target (batch_target s config) (PDict d) = true ->
         classify (batch_target s config) (PDict d) v = Updated)).
Proof.
  unfold result. intros H.
  destruct (batch_update_models s repr json_dumps config srv sched w)
    as [[o w']|] eqn:Hrun; [|discriminate].
  simpl in H. injection H as ->.
  destruct (batch_update_models_counts s _ _ _ _ _ _ _ _ Hrun)
    as (models & w1 & Hp & _ & _ & Hs & Hu & _).
  destruct (batch_run_records s _ _ _ _ _ _ _ _ Hrun)
    as (models' & w1' & rs & Hp' & Hruns & Hc).
  rewrite Hp in Hp'. injection Hp' as <- <-.
  split; [|split].
  - exists models, w1, rs. repeat split; auto.
    + apply Hruns.
    + apply Hruns.
    + destruct Hruns as [_ Hran].
      eapply Forall_impl; [|exact Hran]. intros r [Hr _].
      destruct (run_verdict s repr json_dumps config r Hr) as (_ & H2 & H3). auto.
  - apply has_invalid_id_iff.
  - intros d evs v Hvalid He.
    destruct (batch_worker_sound s repr json_dumps config d evs _ He)
      as (v' & Hv & _ & Hat).
    injection Hv as <-. unfold classify.
    destruct (at_target (batch_target s config) (PDict d)) eqn:Ha.
    + rewrite (Hat Hvalid eq_refl). simpl. split; [discriminate|reflexivity].
    + destruct (truthy v); split; discriminate.
Qed.

(** C10, witness: a server that lists a record whose id is null and which
    is at the target, one with a usable id at the target, and one that
    needs an update which the server refuses: one skipped, one updated,
    one failed. *)
Lemma C10_witness :
  let srv :=
    listing_server
      (PList [null_id_record; at_target_record; record_of "c" "Gamma" "gpt-4o"])
      [] in
  (exists models w1 rs,
     run srv (batch_prologue RemoteScript sample_repr sample_config) world0
       = (Returned models, w1) /\
     runs_of srv (batch_worker RemoteScript sample_repr sample_repr sample_config)
       models rs /\
     {| successful_updates := 1; failed_updates := 1; skipped_updates := 1 |}
       = tally_of (map (rr_verdict "phi-4") rs) /\
     Forall (fun r =>
               (rr_verdict "phi-4" r = Skipped <->
                has_invalid_id (rr_model r) = true
                /\ at_target "phi-4" (rr_model r) = true)
               /\ (has_invalid_id (rr_model r) = false ->
                   at_target "phi-4" (rr_model r) = true ->
                   rr_verdict "phi-4" r = Updated)) rs /\
     1 = count (fun m => has_invalid_id m && at_target "phi-4" m) models /\
     count (fun m => negb (has_invalid_id m) && at_target "phi-4" m) models <= 1)
  /\ (forall d,
        has_invalid_id (PDict d) = true <->
        dict_get "id" d = None \/ dict_get "id" d = Some (PStr "unknown")
        \/ dict_get "id" d = Some PNone)
  /\ (forall d evs v,
        has_invalid_id (PDict d) = false ->
        exec (batch_worker RemoteScript sample_repr sample_repr sample_config
                (PDict d)) evs (Returned v) ->
        classify "phi-4" (PDict d) v <> Skipped /\
        (at_target "phi-4" (PDict d) = true ->
         classify "phi-4" (PDict d) v = Updated)).
Proof.
  intros srv.
  apply (C10_skipped_records RemoteScript sample_repr sample_repr sample_config
           srv (round_robin 3 8) world0
           {| successful_updates := 1; failed_updates := 1; skipped_updates := 1 |}).
  vm_compute. reflexivity.
Defined.
(** C2, the code at a failing input: one fetched record, with a usable id
    and already at the target.  The batch script issues no update for it
    but counts it as successfully updated, not as skipped; the sequential
    script posts the update to both paths. *)
Theorem C2_at_target_counted_as_updated :
  let srv := listing_server (PList [at_target_record]) [] in
  (exists w,
     Remote.update_models sample_repr sample_repr sample_config srv [0; 0] world0
       = Some (Returned {| successful_updates := 1; failed_updates := 0;
                           skipped_updates := 0 |}, w) /\
     map rq_verb (sent w) = [GET] /\
     In (INFO, "Skipped (already using target model): <int> models") (console w))
  /\ map rq_verb
       (sent (snd (run srv (UpdateModels.update_models sample_repr sample_repr
                              sample_config) world0)))
     = [GET; POST; POST].
Proof.
  split.
  - eexists. split; [vm_compute; reflexivity|]. split; [reflexivity|].
    simpl. tauto.
  - vm_compute. reflexivity.
Qed.

(** C3 (as amended). A record whose id is missing, null or 'unknown'
    causes no request and moves the progress bar by one.  The batch scripts
    do count it: the counters of a run that returns are the tally of the
    verdicts on all the fetched records, and the verdict on such a record
    is skipped when its base model equals the target and failed otherwise.
    [update-models.py] logs a warning and goes on with the next record,
    its counter as it was. *)
Theorem C3_record_without_id (s : batch_script) (repr json_dumps : pyval -> string)
    (config : configuration) :
  (forall d,
     has_invalid_id (PDict d) = true ->
     (forall evs o,
        exec (batch_worker s repr json_dumps config (PDict d)) evs o ->
        exchanges_of evs = [] /\ bar_advance evs = 1 /\ o = Returned (PBool false))
     /\ (forall rest c,
           Batch.collect repr config (batch_target s config)
             ((PDict d, Returned (PBool false)) :: rest) c
           = Batch.collect repr config (batch_target s config) rest
               (bump (if at_target (batch_target s config) (PDict d)
                      then Skipped else Failed) c))
     /\ (forall rest n,
           UpdateModels.update_loop repr json_dumps config (PDict d :: rest) n
           = Print WARNING
               ("Skipping model with missing ID. Model data: "
                ++ json_dumps (PDict d))%string
               (UpdateModels.update_loop repr json_dumps config rest n)))
  /\ (forall srv sched w c w',
        batch_update_models s repr json_dumps config srv sched w
          = Some (Returned c, w') ->
        exists models w1 rs,
          run srv (batch_prologue s repr config) w = (Returned models, w1) /\
          runs_of srv (batch_worker s repr json_dumps config) models rs /\
          c = tally_of (map (rr_verdict (batch_target s config)) rs) /\
          Forall (fun r =>
                    has_invalid_id (rr_model r) = true ->
                    exchanges_of (rr_trace r) = [] /\
                    bar_advance (rr_trace r) = 1 /\
                    rr_verdict (batch_target s config) r
                    = if at_target (batch_target s config) (rr_model r)
                      then Skipped else Failed) rs /\
          total c = List.length models /\
          skipped_updates c =
            count (fun m => has_invalid_id m
                            && at_target (batch_target s config) m) models /\
          count (fun m => has_invalid_id m
                          && negb (at_target (batch_target s config) m)) models
            <= failed_updates c).
Proof.
  split.
  - intros d Hid.
    assert (Hw : batch_worker s repr json_dumps config (PDict d)
                 = Bar (BarUpdate 1) (Ret (PBool false))).
    { destruct s; simpl;
        [apply remote_worker_invalid|apply serverside_worker_invalid]; exact Hid. }
    split; [|split].
    + intros evs o H. rewrite Hw in H. exec_inv. trace_simpl. auto.
    + intros rest c. rewrite collect_cons_returned. reflexivity.
    + intros rest n. cbn [UpdateModels.update_loop py_get bind].
      simpl in Hid. rewrite Hid. reflexivity.
  - intros srv sched w c w' Hrun.
    destruct (batch_update_models_counts s _ _ _ _ _ _ _ _ Hrun)
      as (models & w1 & Hp & _ & Ht & Hs & _ & Hf).
    destruct (batch_run_records s _ _ _ _ _ _ _ _ Hrun)
      as (models' & w1' & rs & Hp' & Hruns & Hc).
    rewrite Hp in Hp'. injection Hp' as <- <-.
    exists models, w1, rs. repeat split; auto; try apply Hruns.
    destruct Hruns as [_ Hran].
    eapply Forall_impl; [|exact Hran]. intros r [Hr _].
    destruct (run_verdict s repr json_dumps config r Hr) as (H1 & _). exact H1.
Qed.

(** C3, witness: a record without id and a record whose id is null, the
    second at the target: no request but the listing, one failed and one
    skipped. *)
Lemma C3_witness :
  let srv := listing_server (PList [no_id_record; null_id_record]) [] in
  (forall evs o,
     exec (batch_worker RemoteScript sample_repr sample_repr sample_config
             no_id_record) evs o ->
     exchanges_of evs = [] /\ bar_advance evs = 1 /\ o = Returned (PBool false))
  /\ exists models w1 rs,
       run srv (batch_prologue RemoteScript sample_repr sample_config) world0
         = (Returned models, w1) /\
       runs_of srv (batch_worker RemoteScript sample_repr sample_repr sample_config)
         models rs /\
       {| successful_updates := 0; failed_updates := 1; skipped_updates := 1 |}
         = tally_of (map (rr_verdict "phi-4") rs) /\
       Forall (fun r =>
                 has_invalid_id (rr_model r) = true ->
                 exchanges_of (rr_trace r) = [] /\
                 bar_advance (rr_trace r) = 1 /\
                 rr_verdict "phi-4" r
                 = if at_target "phi-4" (rr_model r) then Skipped else Failed) rs /\
       2 = List.length models /\
       1 = count (fun m => has_invalid_id m && at_target "phi-4" m) models /\
       count (fun m => has_invalid_id m && negb (at_target "phi-4" m)) models <= 1.
Proof.
  intros srv.
  destruct (C3_record_without_id RemoteScript sample_repr sample_repr sample_config)
    as [H1 H2].
  split.
  - apply (H1 [ ("name", PStr "Nameless"); ("base_model_id", PStr "gpt-4o") ]).
    reflexivity.
  - apply (H2 srv (round_robin 2 3) world0
             {| successful_updates := 0; failed_updates := 1; skipped_updates := 1 |}
             (world_of (batch_update_models RemoteScript sample_repr sample_repr
                          sample_config srv (round_robin 2 3) world0))).
    vm_compute. reflexivity.
Defined.

(** C3, counterexample: the only fetched record has no id, and the totals
    of the run count one record, as failed. *)
Lemma C3_counterexample : ~ C3_as_stated.
Proof.
  intros [_ H].
  destruct (H RemoteScript sample_repr sample_repr sample_config
              (listing_server (PList [no_id_record]) []) [0; 0] world0
              {| successful_updates := 0; failed_updates := 1;
                 skipped_updates := 0 |})
    as (models & w1 & Hrun & Hcount).
  - vm_compute. reflexivity.
  - vm_compute in Hrun. injection Hrun as <- _.
    vm_compute in Hcount. discriminate.
Qed.
(** C1. For a record that is dispatched, every update request carries the
    payload built from it: [base_model_id] is the target, every other key
    of the record is there with its value, and [name], [meta] and [params]
    get their defaults when, and only when, the record lacks them.  This
    holds in the batch scripts (records with a usable id, not at the
    target) and in [update-models.py] (records with a usable id). *)
Theorem C1_payload_preserves_record (repr json_dumps : pyval -> string)
    (config : configuration) (d : dict) :
  has_invalid_id (PDict d) = false ->
  let model_name := get_default "name" (PStr "unknown") d in
  (forall target,
     let update_payload := build_payload repr d model_name target in
     dict_get "base_model_id" update_payload = Some (PStr target) /\
     (forall k v, k <> "base_model_id" -> dict_get k d = Some v ->
                  dict_get k update_payload = Some v) /\
     (forall k, k <> "base_model_id" -> dict_get k d = None ->
                dict_get k update_payload = payload_default repr model_name target k))
  /\ (forall s evs o,
        at_target (batch_target s config) (PDict d) = false ->
        exec (batch_worker s repr json_dumps config (PDict d)) evs o ->
        requests_of evs <> [] /\
        forall rq, In rq (requests_of evs) ->
          rq_json rq =
            Some (PDict (build_payload repr d model_name (batch_target s config))))
  /\ (forall rest n evs o,
        exec (UpdateModels.update_loop repr json_dumps config (PDict d :: rest) n)
             evs o ->
        exists e1 e2 n',
          evs = e1 ++ e2 /\
          requests_of e1 <> [] /\
          (forall rq, In rq (requests_of e1) ->
             rq_json rq =
               Some (PDict (build_payload repr d model_name (target_model config)))) /\
          exec (UpdateModels.update_loop repr json_dumps config rest n') e2 o).
Proof.
  intros Hid model_name. split; [|split].
  - intros target update_payload. unfold update_payload. split; [|split].
    + rewrite build_payload_lookup. reflexivity.
    + intros k v Hk Hv. rewrite build_payload_lookup, Hv.
      apply String.eqb_neq in Hk. rewrite String.eqb_sym in Hk. now rewrite Hk.
    + intros k Hk Hv. rewrite build_payload_lookup, Hv.
      apply String.eqb_neq in Hk. rewrite String.eqb_sym in Hk. now rewrite Hk.
  - intros s evs o Hat H.
    assert (Hd : exists result,
               dispatch_trace config (batch_headers s config)
                 (build_payload repr d model_name (batch_target s config))
                 (get_default "id" (PStr "unknown") d) (exchanges_of evs) result).
    { destruct s; simpl in *.
      - destruct (remote_worker_dispatch _ _ _ d evs o Hid Hat H)
          as (result & _ & Ht & _). eauto.
      - destruct (serverside_worker_dispatch _ _ _ d evs o Hid Hat H)
          as (result & _ & Ht & _). eauto. }
    destruct Hd as (result & Ht).
    apply dispatch_trace_requests in Ht. destruct Ht as [Hne Hall].
    split; [exact Hne|]. intros rq Hrq. now apply Hall.
  - intros rest n evs o H.
    destruct (exec_update_loop_dispatch repr json_dumps config d rest n evs o Hid H)
      as (e1 & e2 & result & -> & Ht & He).
    apply dispatch_trace_requests in Ht. destruct Ht as [Hne Hall].
    exists e1, e2, (if truthy result then S n else n).
    repeat split; auto. intros rq Hrq. now apply Hall.
Qed.

Lemma C1_witness :
  let d := [ ("id", PStr "b"); ("name", PStr "Beta"); ("base_model_id", PStr "gpt-4o");
             ("access_control", PNone) ] in
  let model_name := get_default "name" (PStr "unknown") d in
  (forall target,
     let update_payload := build_payload sample_repr d model_name target in
     dict_get "base_model_id" update_payload = Some (PStr target) /\
     (forall k v, k <> "base_model_id" -> dict_get k d = Some v ->
                  dict_get k update_payload = Some v) /\
     (forall k, k <> "base_model_id" -> dict_get k d = None ->
                dict_get k update_payload
                  = payload_default sample_repr model_name target k))
  /\ (forall s evs o,
        at_target (batch_target s sample_config) (PDict d) = false ->
        exec (batch_worker s sample_repr sample_repr sample_config (PDict d)) evs o ->
        requests_of evs <> [] /\
        forall rq, In rq (requests_of evs) ->
          rq_json rq =
            Some (PDict (build_payload sample_repr d model_name
                           (batch_target s sample_config))))
  /\ (forall rest n evs o,
        exec (UpdateModels.update_loop sample_repr sample_repr sample_config
                (PDict d :: rest) n) evs o ->
        exists e1 e2 n',
          evs = e1 ++ e2 /\
          requests_of e1 <> [] /\
          (forall rq, In rq (requests_of e1) ->
             rq_json rq =
               Some (PDict (build_payload sample_repr d model_name
                              (target_model sample_config)))) /\
          exec (UpdateModels.update_loop sample_repr sample_repr sample_config
                  rest n') e2 o).
Proof.
  apply (C1_payload_preserves_record sample_repr sample_repr sample_config).
  reflexivity.
Defined.

Lemma py_eq_none (v : pyval) : py_eq PNone v = true -> v = PNone.
Proof. destruct v; simpl; intros H; try discriminate; reflexivity. Qed.

Lemma update_check_value (x model_id : pyval) :
  is_none model_id = false ->
  truthy (update_check x model_id) = true <->
  exists d v, x = PDict d /\ dict_get "id" d = Some v /\ py_eq v model_id = true.
Proof.
  intros Hid. unfold update_check. destruct (truthy x) eqn:T.
  - destruct x as [|b|n|s|xs|d]; simpl;
      try (split; [discriminate|intros (d' & v & H & _); discriminate]).
    unfold get_default. destruct (dict_get "id" d) as [v|] eqn:Hg; split.
    + intros H. exists d, v. auto.
    + intros (d' & v' & H & Hg' & Hv). injection H as <-. congruence.
    + intros H. apply py_eq_none in H. subst. discriminate.
    + intros (d' & v' & H & Hg' & _). injection H as <-. congruence.
  - rewrite T. split; [discriminate|].
    intros (d & v & -> & Hg & _). destruct d; simpl in *; discriminate.
Qed.

(** The check of the scripts is the judgement of the specification. *)
Lemma update_check_judged (r : reply) (model_id : pyval) :
  is_none model_id = false ->
  truthy (update_check (returned r) model_id) = true <-> judged_success r model_id.
Proof.
  intros Hid. rewrite (update_check_value _ _ Hid). unfold judged_success. split.
  - intros (d & v & Hr & Hg & Hv).
    destruct r as [err|text [j|]]; simpl in Hr; try discriminate.
    subst j. exists text, d, v. auto.
  - intros (text & d & v & -> & Hg & Hv). exists d, v. auto.
Qed.

Lemma dispatch_judged config hs (update_payload : dict) (model_id : pyval)
    (xs : list (request * reply)) (result : pyval) :
  is_none model_id = false ->
  dispatch_trace config hs update_payload model_id xs result ->
  judged_exchanges config hs update_payload model_id xs (truthy result).
Proof.
  intros Hid (r1 & [(H1 & -> & ->)|(H1 & r2 & -> & ->)]); exists r1.
  - left. split; [now apply update_check_judged|auto].
  - right. split.
    + intros Hj. apply (update_check_judged r1 model_id Hid) in Hj. congruence.
    + exists r2. split; [reflexivity|]. now apply update_check_judged.
Qed.

Lemma valid_id_not_none (d : dict) :
  has_invalid_id (PDict d) = false ->
  is_none (get_default "id" (PStr "unknown") d) = false.
Proof.
  simpl. unfold invalid_id. intros H. apply orb_false_iff in H. tauto.
Qed.

(** C6. For a dispatched record the update is judged a success iff the
    response is a JSON object with an id equal to the record's; when the
    first path fails that check there is one retry, on the second path,
    with the same payload and query.  In a batch run that returns, the
    counters are the tally of the verdicts on all the fetched records, and
    the verdict on a dispatched record is updated when its update was
    judged a success and failed when both attempts failed: a failure is
    counted and the other records are processed all the same.
    [update-models.py] leaves its counter as it was after a failed update,
    and goes on with the remaining records. *)
Theorem C6_update_judged_and_retried (repr json_dumps : pyval -> string)
    (config : configuration) :
  (forall d,
     has_invalid_id (PDict d) = false ->
     let model_id := get_default "id" (PStr "unknown") d in
     let model_name := get_default "name" (PStr "unknown") d in
     (forall s evs o,
        at_target (batch_target s config) (PDict d) = false ->
        exec (batch_worker s repr json_dumps config (PDict d)) evs o ->
        exists success,
          o = Returned success /\
          judged_exchanges config (batch_headers s config)
            (build_payload repr d model_name (batch_target s config)) model_id
            (exchanges_of evs) (truthy success) /\
          (truthy success = false ->
           forall rest c,
             Batch.collect repr config (batch_target s config)
               ((PDict d, Returned success) :: rest) c
             = Batch.collect repr config (batch_target s config) rest
                 (bump Failed c)))
     /\ (forall rest n evs o,
           exec (UpdateModels.update_loop repr json_dumps config (PDict d :: rest) n)
                evs o ->
           exists e1 e2 ok,
             evs = e1 ++ e2 /\
             judged_exchanges config (UpdateModels.headers config)
               (build_payload repr d model_name (target_model config)) model_id
               (exchanges_of e1) ok /\
             exec (UpdateModels.update_loop repr json_dumps config rest
                     (if ok then S n else n)) e2 o))
  /\ (forall s srv sched w c w',
        batch_update_models s repr json_dumps config srv sched w
          = Some (Returned c, w') ->
        exists models w1 rs,
          run srv (batch_prologue s repr config) w = (Returned models, w1) /\
          runs_of srv (batch_worker s repr json_dumps config) models rs /\
          c = tally_of (map (rr_verdict (batch_target s config)) rs) /\
          Forall (fun r =>
                    forall d,
                      rr_model r = PDict d ->
                      has_invalid_id (PDict d) = false ->
                      at_target (batch_target s config) (PDict d) = false ->
                      exists ok,
                        judged_exchanges config (batch_headers s config)
                          (build_payload repr d
                             (get_default "name" (PStr "unknown") d)
                             (batch_target s config))
                          (get_default "id" (PStr "unknown") d)
                          (exchanges_of (rr_trace r)) ok /\
                        rr_verdict (batch_target s config) r
                        = if ok then Updated else Failed) rs).
Proof.
  assert (Hworker : forall d s evs o,
             has_invalid_id (PDict d) = false ->
             at_target (batch_target s config) (PDict d) = false ->
             exec (batch_worker s repr json_dumps config (PDict d)) evs o ->
             exists success,
               o = Returned success /\
               judged_exchanges config (batch_headers s config)
                 (build_payload repr d (get_default "name" (PStr "unknown") d)
                    (batch_target s config))
                 (get_default "id" (PStr "unknown") d)
                 (exchanges_of evs) (truthy success)).
  { intros d s evs o Hid Hat H.
    pose proof (valid_id_not_none d Hid) as Hnone.
    assert (Hd : exists result,
               o = Returned result /\
               dispatch_trace config (batch_headers s config)
                 (build_payload repr d (get_default "name" (PStr "unknown") d)
                    (batch_target s config))
                 (get_default "id" (PStr "unknown") d) (exchanges_of evs) result).
    { destruct s; simpl in *.
      - destruct (remote_worker_dispatch _ _ _ d evs o Hid Hat H)
          as (result & ? & Ht & _). eauto.
      - destruct (serverside_worker_dispatch _ _ _ d evs o Hid Hat H)
          as (result & ? & Ht & _). eauto. }
    destruct Hd as (result & -> & Ht).
    exists result. split; [reflexivity|]. now apply dispatch_judged. }
  split.
  - intros d Hid model_id model_name.
    pose proof (valid_id_not_none d Hid) as Hnone. split.
    + intros s evs o Hat H.
      destruct (Hworker d s evs o Hid Hat H) as (success & -> & Hj).
      exists success. split; [reflexivity|]. split; [exact Hj|].
      intros Hf rest c. rewrite collect_cons_returned.
      unfold classify. now rewrite Hf, Hat.
    + intros rest n evs o H.
      destruct (exec_update_loop_dispatch repr json_dumps config d rest n evs o Hid H)
        as (e1 & e2 & result & -> & Ht & He).
      exists e1, e2, (truthy result). split; [reflexivity|]. split.
      * now apply dispatch_judged.
      * exact He.
  - intros s srv sched w c w' Hrun.
    destruct (batch_run_records s _ _ _ _ _ _ _ _ Hrun)
      as (models & w1 & rs & Hp & Hruns & Hc).
    exists models, w1, rs. repeat split; auto; try apply Hruns.
    destruct Hruns as [_ Hran].
    eapply Forall_impl; [|exact Hran]. intros r [Hr _] d Hm Hid Hat.
    rewrite Hm in Hr.
    destruct (Hworker d s _ _ Hid Hat Hr) as (success & Hs & Hj).
    exists (truthy success). split; [exact Hj|].
    injection Hs as Hs. unfold rr_verdict, classify.
    rewrite Hm, Hs, Hat. destruct (truthy success); reflexivity.
Qed.

(** C6, witness: a record with a usable id that needs an update; and a
    run over three records in which the server accepts the update of one
    record and refuses the other: one updated without a request, one
    updated, one failed. *)
Lemma C6_witness :
  let d := [ ("id", PStr "b"); ("name", PStr "Beta"); ("base_model_id", PStr "gpt-4o");
             ("access_control", PNone) ] in
  let model_id := get_default "id" (PStr "unknown") d in
  let model_name := get_default "name" (PStr "unknown") d in
  ((forall s evs o,
      at_target (batch_target s sample_config) (PDict d) = false ->
      exec (batch_worker s sample_repr sample_repr sample_config (PDict d)) evs o ->
      exists success,
        o = Returned success /\
        judged_exchanges sample_config (batch_headers s sample_config)
          (build_payload sample_repr d model_name (batch_target s sample_config))
          model_id (exchanges_of evs) (truthy success) /\
        (truthy success = false ->
         forall rest c,
           Batch.collect sample_repr sample_config (batch_target s sample_config)
             ((PDict d, Returned success) :: rest) c
           = Batch.collect sample_repr sample_config (batch_target s sample_config)
               rest (bump Failed c)))
   /\ (forall rest n evs o,
         exec (UpdateModels.update_loop sample_repr sample_repr sample_config
                 (PDict d :: rest) n) evs o ->
         exists e1 e2 ok,
           evs = e1 ++ e2 /\
           judged_exchanges sample_config (UpdateModels.headers sample_config)
             (build_payload sample_repr d model_name (target_model sample_config))
             model_id (exchanges_of e1) ok /\
           exec (UpdateModels.update_loop sample_repr sample_repr sample_config rest
                   (if ok then S n else n)) e2 o))
  /\ exists models w1 rs,
       run sample_server (batch_prologue RemoteScript sample_repr sample_config)
         world0 = (Returned models, w1) /\
       runs_of sample_server
         (batch_worker RemoteScript sample_repr sample_repr sample_config)
         models rs /\
       {| successful_updates := 2; failed_updates := 1; skipped_updates := 0 |}
         = tally_of (map (rr_verdict "phi-4") rs) /\
       Forall (fun r =>
                 forall d,
                   rr_model r = PDict d ->
                   has_invalid_id (PDict d) = false ->
                   at_target "phi-4" (PDict d) = false ->
                   exists ok,
                     judged_exchanges sample_config
                       (batch_headers RemoteScript sample_config)
                       (build_payload sample_repr d
                          (get_default "name" (PStr "unknown") d) "phi-4")
                       (get_default "id" (PStr "unknown") d)
                       (exchanges_of (rr_trace r)) ok /\
                     rr_verdict "phi-4" r = if ok then Updated else Failed) rs.
Proof.
  intros d model_id model_name.
  destruct (C6_update_judged_and_retried sample_repr sample_repr sample_config)
    as [H1 H2].
  split.
  - apply (H1 d). reflexivity.
  - apply (H2 RemoteScript sample_server (round_robin 3 8) world0
             {| successful_updates := 2; failed_updates := 1; skipped_updates := 0 |}
             (world_of (sample_batch RemoteScript sample_config))).
    vm_compute. reflexivity.
Defined.










Lemma run_batch_banner (s : batch_script) config (srv : server) (w : world) :
  exists wb, run srv (batch_banner s config) w = (Returned tt, wb)
             /\ sent wb = sent w.
Proof.
  destruct s; simpl;
    unfold Remote.banner, Serverside.banner, Remote.log, Serverside.log, Batch.log;
    simpl; eauto.
Qed.

Lemma run_seq_banner config (srv : server) (w : world) :
  exists wb, run srv (UpdateModels.banner config) w = (Returned tt, wb)
             /\ sent wb = sent w.
Proof. unfold UpdateModels.banner, UpdateModels.log. simpl. eauto. Qed.

Lemma batch_prologue_banner (s : batch_script) repr config :
  batch_prologue s repr config
  = (batch_banner s config ;; Batch.fetch_models repr config (batch_headers s config)).
Proof. destruct s; reflexivity. Qed.

Lemma batch_update_models_exit (s : batch_script) repr json_dumps config
    (srv : server) (sched : list nat) (w w1 : world) (code : Z) :
  run srv (batch_prologue s repr config) w = (Exited code, w1) ->
  batch_update_models s repr json_dumps config srv sched w = Some (Exited code, w1).
Proof.
  destruct s; cbn [batch_update_models batch_prologue];
    unfold Remote.update_models, Serverside.update_models; now intros ->.
Qed.




(** The other half: every listing path of [update-models.py] answers with
    the empty list, and the run logs "Failed to fetch models from any
    endpoint" and never "No models found in the API response". *)
Lemma empty_listing_logged_as_fetch_failure :
  let w := snd (run (listing_server (PList []) [])
                    (UpdateModels.update_models sample_repr sample_repr
                       sample_config) world0) in
  In failed_to_fetch (console w) /\ ~ In no_models_found (console w).
Proof.
  vm_compute. split; [tauto|].
  intros H. repeat (destruct H as [H|H]; [discriminate H|]). exact H.
Qed.

Lemma some_pair_fst {A B : Type} (x : A * B) (a : A) (b : B) :
  Some x = Some (a, b) -> fst x = a.
Proof. intros H. injection H as ->. reflexivity. Qed.

Lemma some_inj {A : Type} (x y : A) : Some x = Some y -> x = y.
Proof. intros H. now injection H. Qed.

Lemma counted_exit repr config target (srv : server)
    (counted : option (outcome counters * world)) (o : outcome counters)
    (w' : world) :
  (forall r, counted = Some r -> exists c, fst r = Returned c) ->
  match counted with
  | Some r =>
      Some (and_then r (fun c w => run srv (Batch.summary repr config target c) w))
  | None => None
  end = Some (o, w') ->
  exit_code o = 0%Z.
Proof.
  intros Hc H. destruct counted as [r|]; [|discriminate].
  destruct (Hc r eq_refl) as (c & Hr).
  pose proof (and_then_summary_returned repr config target srv r c Hr) as Hs.
  apply some_pair_fst in H. rewrite Hs in H. now subst o.
Qed.

Lemma batch_prologue_run (s : batch_script) repr config (srv : server)
    (w w1 : world) (models_response : pyval) (ms : list pyval) :
  run srv (batch_banner s config ;;
           Batch.fetch_response config (batch_headers s config)) w
    = (Returned models_response, w1) ->
  Batch.extract_models models_response = PList ms ->
  exists w2, run srv (batch_prologue s repr config) w = (fetched ms, w2).
Proof.
  intros Hrun Hext. rewrite batch_prologue_banner.
  rewrite run_bind in Hrun. rewrite run_bind.
  destruct (run_batch_banner s config srv w) as (wb & Hb & _).
  rewrite Hb in Hrun. rewrite Hb. cbn [and_then] in Hrun. cbn [and_then].
  unfold Batch.fetch_models. rewrite run_bind, Hrun. cbn [and_then].
  rewrite Hext. unfold Batch.log. destruct ms; simpl; eauto.
Qed.

Lemma batch_prologue_exit_status (s : batch_script) repr config (srv : server)
    (w wp : world) (o : outcome (list pyval)) :
  run srv (batch_prologue s repr config) w = (o, wp) ->
  (exists models, o = Returned models) \/ exit_code o = 1%Z.
Proof.
  rewrite batch_prologue_banner, run_bind.
  destruct (run_batch_banner s config srv w) as (wb & Hb & _).
  rewrite Hb. cbn [and_then]. unfold Batch.fetch_models. rewrite run_bind.
  pose proof (exec_trace srv (Batch.fetch_response config (batch_headers s config))
                wb) as He.
  destruct (run srv (Batch.fetch_response config (batch_headers s config)) wb)
    as [o1 w1].
  cbn [fst] in He. apply exec_fetch_response in He.
  destruct He as (r1 & xs2 & _ & [(_ & _ & ->)|(_ & _ & ->)]); cbn [and_then];
    match goal with
    | |- context [Batch.extract_models ?v] =>
        destruct (Batch.extract_models v) as [|b|n|t|xs|d]
    end;
    cbn [py_len bind run and_then];
    try (intros H; injection H as <- _; right; reflexivity);
    match goal with
    | |- context [Nat.eqb ?n 0] => destruct (Nat.eqb n 0)
    end;
    unfold Batch.log; simpl; intros H; injection H as <- _; eauto.
Qed.

Lemma seq_prologue_exit_status repr json_dumps config (srv : server)
    (w wp : world) (o : outcome (list pyval)) :
  run srv (UpdateModels.banner config ;;
           UpdateModels.fetch_models repr json_dumps config) w = (o, wp) ->
  (exists models, o = Returned models) \/ exit_code o = 1%Z.
Proof.
  rewrite run_bind.
  destruct (run_seq_banner config srv w) as (wb & Hb & _).
  rewrite Hb. cbn [and_then]. unfold UpdateModels.fetch_models. rewrite run_bind.
  pose proof (exec_trace srv (UpdateModels.fetch_loop config UpdateModels.endpoints)
                wb) as He.
  destruct (run srv (UpdateModels.fetch_loop config UpdateModels.endpoints) wb)
    as [o1 w1].
  cbn [fst] in He. apply exec_fetch_loop in He. destruct He as [_ ->].
  cbn [and_then].
  destruct (negb (truthy _)).
  - unfold UpdateModels.log. simpl. intros H. injection H as <- _. now right.
  - rewrite run_bind. unfold UpdateModels.log at 1.
    destruct (debug config); cbn [run and_then];
      (destruct (Nat.eqb _ 0); unfold UpdateModels.log; simpl;
       intros H; injection H as <- _; eauto).
Qed.

Lemma batch_update_models_raised (s : batch_script) repr json_dumps config
    (srv : server) (sched : list nat) (w w1 : world) (e : exn) :
  run srv (batch_prologue s repr config) w = (Raised e, w1) ->
  batch_update_models s repr json_dumps config srv sched w = Some (Raised e, w1).
Proof.
  destruct s; cbn [batch_update_models batch_prologue];
    unfold Remote.update_models, Serverside.update_models; now intros ->.
Qed.

(** C5 (as amended). The scripts exit with status 1 when discovery ends
    with no record (no listing path succeeded, or the collection is empty).
    When records were fetched, the batch scripts exit with status 0,
    whatever the updates did and for every schedule of the workers,
    provided that the records are mappings and that the worker count is
    positive where the pool is used; [update-models.py] does so provided
    that the records are mappings.  Otherwise the run ends on an exception
    that nothing catches, which also gives status 1: [ValueError] for a
    worker count that is not positive, [AttributeError] for a record that
    is not a mapping. *)
Theorem C5_exit_status (s : batch_script) (repr json_dumps : pyval -> string)
    (config : configuration) (srv : server) (w w1 : world)
    (models_response : pyval) (ms : list pyval) :
  (run srv (batch_banner s config ;;
            Batch.fetch_response config (batch_headers s config)) w
     = (Returned models_response, w1) ->
   Batch.extract_models models_response = PList ms ->
   Forall (fun m => is_dict m = true) ms ->
   (0 < max_workers config)%Z \/ (s = RemoteScript /\ batch_mode config = false) ->
   (exists sched,
      batch_update_models s repr json_dumps config srv sched w <> None)
   /\ (forall sched o w',
         batch_update_models s repr json_dumps config srv sched w = Some (o, w') ->
         exit_code o = match ms with [] => 1%Z | _ :: _ => 0%Z end))
  /\
  (run srv (UpdateModels.banner config ;;
            UpdateModels.fetch_loop config UpdateModels.endpoints) w
     = (Returned models_response, w1) ->
   (if truthy models_response then UpdateModels.extract_models models_response
    else []) = ms ->
   Forall (fun m => is_dict m = true) ms ->
   exit_code (fst (run srv (UpdateModels.update_models repr json_dumps config) w))
     = match ms with [] => 1%Z | _ :: _ => 0%Z end)
  /\
  (forall models wp sched o w',
     run srv (batch_prologue s repr config) w = (Returned models, wp) ->
     batch_update_models s repr json_dumps config srv sched w = Some (o, w') ->
     ((max_workers config <= 0)%Z
      /\ (s = ServersideScript \/ batch_mode config = true))
     \/ (((0 < max_workers config)%Z
          \/ (s = RemoteScript /\ batch_mode config = false))
         /\ Exists (fun m => is_dict m = false) models) ->
     exit_code o = 1%Z /\ exists e, o = Raised e)
  /\
  (forall models wp,
     run srv (UpdateModels.banner config ;;
              UpdateModels.fetch_models repr json_dumps config) w
       = (Returned models, wp) ->
     Exists (fun m => is_dict m = false) models ->
     exit_code (fst (run srv (UpdateModels.update_models repr json_dumps config) w))
       = 1%Z)
  /\
  ((forall models wp,
      run srv (batch_prologue s repr config) w <> (Returned models, wp)) ->
   forall sched,
     exists o w',
       batch_update_models s repr json_dumps config srv sched w = Some (o, w')
       /\ exit_code o = 1%Z)
  /\
  ((forall models wp,
      run srv (UpdateModels.banner config ;;
               UpdateModels.fetch_models repr json_dumps config) w
      <> (Returned models, wp)) ->
   exit_code (fst (run srv (UpdateModels.update_models repr json_dumps config) w))
     = 1%Z).
Proof.
  split; [|split; [|split; [|split; [|split]]]].
  - intros Hrun Hext Hd Hw.
    destruct (batch_prologue_run s repr config srv w w1 _ ms Hrun Hext)
      as (w2 & Hp).
    destruct ms as [|m ms'].
    + cbn [fetched] in Hp. split.
      * exists [].
        rewrite (batch_update_models_exit s repr json_dumps config srv [] w w2 1 Hp).
        discriminate.
      * intros sched o w' H.
        rewrite (batch_update_models_exit s repr json_dumps config srv sched
                   w w2 1 Hp) in H.
        injection H as <- _. reflexivity.
    + cbn [fetched] in Hp. destruct s; cbn [batch_update_models batch_prologue] in *.
      * unfold Remote.update_models. rewrite Hp.
        destruct (batch_mode config) eqn:Hb.
        -- assert (Hw' : (0 < max_workers config)%Z)
             by (destruct Hw as [?|[_ ?]]; [assumption|discriminate]).
           clear Hw. rename Hw' into Hw.
           match goal with
           | |- context [Batch.thread_pool ?r ?c ?t ?wk srv _ ?m ?w0] =>
               destruct (thread_pool_total r c t wk
                           (remote_worker_sound repr json_dumps config)
                           srv m w0 Hd Hw) as [(sched & Hs) Hall]
           end.
           split.
           ++ exists sched.
              destruct (Batch.thread_pool _ _ _ _ srv sched _ _);
                [discriminate|contradiction].
           ++ intros sched' o w' H.
              eapply counted_exit; [|exact H]. intros r. apply Hall.
        -- split; [exists []; discriminate|].
           intros sched' o w' H.
           refine (counted_exit repr config _ srv (Some _) o w' _ H).
           intros r Hr. apply some_inj in Hr. subst r.
           rewrite run_bind.
           change (run srv (Remote.log config INFO "Using sequential processing") w2)
             with (Returned tt, do_print INFO "Using sequential processing" w2).
           cbn [and_then].
           eapply exec_sequential_loop_total; [exact Hd|apply exec_trace].
      * unfold Serverside.update_models. rewrite Hp.
        assert (Hw' : (0 < max_workers config)%Z)
          by (destruct Hw as [?|[? _]]; [assumption|discriminate]).
        clear Hw. rename Hw' into Hw.
        match goal with
        | |- context [Batch.thread_pool ?r ?c ?t ?wk srv _ ?m ?w0] =>
            destruct (thread_pool_total r c t wk
                        (serverside_worker_sound repr config t)
                        srv m w0 Hd Hw) as [(sched & Hs) Hall]
        end.
        split.
        -- exists sched.
           destruct (Batch.thread_pool _ _ _ _ srv sched _ _);
             [discriminate|contradiction].
        -- intros sched' o w' H.
           eapply counted_exit; [|exact H]. intros r. apply Hall.
  - intros Hrun Hms Hd. unfold UpdateModels.update_models.
    rewrite run_bind in Hrun. rewrite run_bind.
    destruct (run_seq_banner config srv w) as (wb & Hb & _).
    rewrite Hb in Hrun. rewrite Hb. cbn [and_then] in Hrun. cbn [and_then].
    rewrite run_bind. unfold UpdateModels.fetch_models at 1.
    rewrite run_bind, Hrun. cbn [and_then].
    destruct (truthy models_response) eqn:Ht; cbn [negb].
    + rewrite Hms. destruct ms as [|m ms'].
      * unfold UpdateModels.log. destruct (debug config); reflexivity.
      * assert (Hret : forall w0,
                   exit_code
                     (fst (and_then (Returned (m :: ms'), w0)
                             (fun a w' =>
                                run srv
                                  (successful_updates <-
                                     UpdateModels.update_loop repr json_dumps
                                       config a 0 ;;
                                   UpdateModels.summary repr config
                                     successful_updates (List.length a)) w')))
                   = 0%Z).
        { intros w0. cbn [and_then].
          destruct (run srv _ w0) as [o w'] eqn:Hr.
          pose proof (exec_trace srv
                        (successful_updates <-
                           UpdateModels.update_loop repr json_dumps config
                             (m :: ms') 0 ;;
                         UpdateModels.summary repr config successful_updates
                           (List.length (m :: ms'))) w0) as He.
          rewrite Hr in He. cbn [fst] in He |- *.
          apply exec_bind_inv in He.
          destruct He as [(a & e1 & e2 & H1 & H2 & _)|[(c & H1 & _)|(e & H1 & _)]].
          - apply exec_seq_summary in H2. now subst.
          - apply (exec_update_loop_total _ _ _ _ _ _ _ Hd) in H1.
            destruct H1 as (? & ?). discriminate.
          - apply (exec_update_loop_total _ _ _ _ _ _ _ Hd) in H1.
            destruct H1 as (? & ?). discriminate. }
        unfold UpdateModels.log. destruct (debug config); simpl run; apply Hret.
    + subst ms. reflexivity.
  - intros models wp sched o w' Hrun H [[Hz Hs]|[Hw Hex]].
    + destruct (batch_run_no_workers s repr json_dumps config srv sched w wp models
                  Hz Hs Hrun) as (w2 & H2).
      rewrite H2 in H. apply some_inj in H.
      assert (Ho : o = Raised (ValueError "max_workers must be greater than 0"))
        by congruence.
      subst o. split; [reflexivity|eauto].
    + destruct (batch_run_not_dict s repr json_dumps config srv sched w wp w' models
                  o Hex Hrun Hw H) as (msg & ->).
      split; [reflexivity|eauto].
  - intros models wp Hrun Hex.
    destruct (seq_run_not_dict repr json_dumps config srv w wp models Hex Hrun)
      as (msg & ->).
    reflexivity.
  - intros Hno sched.
    destruct (run srv (batch_prologue s repr config) w) as [o wp] eqn:Hp.
    destruct (batch_prologue_exit_status s repr config srv w wp o Hp)
      as [(models & ->)|Hone].
    + exfalso. exact (Hno models wp eq_refl).
    + destruct o as [models|code|e].
      * exfalso. exact (Hno models wp eq_refl).
      * exists (Exited code), wp. split; [|exact Hone].
        now apply batch_update_models_exit.
      * exists (Raised e), wp. split; [|reflexivity].
        now apply batch_update_models_raised.
  - intros Hno. unfold UpdateModels.update_models.
    destruct (run srv (UpdateModels.banner config ;;
                       UpdateModels.fetch_models repr json_dumps config) w)
      as [o wp] eqn:Hp.
    destruct (seq_prologue_exit_status repr json_dumps config srv w wp o Hp)
      as [(models & ->)|Hone].
    + exfalso. exact (Hno models wp eq_refl).
    + rewrite run_bind in Hp. rewrite run_bind.
      destruct (run_seq_banner config srv w) as (wb & Hb & _).
      rewrite Hb in Hp. rewrite Hb. cbn [and_then] in Hp. cbn [and_then].
      rewrite run_bind, Hp.
      destruct o as [models|code|e]; cbn [and_then fst];
        [exfalso; exact (Hno models wp eq_refl)|exact Hone|reflexivity].
Qed.

(** C5, witness: the server lists three records, all mappings, and accepts
    the update of one of them only; the batch script with five workers and
    the sequential script both leave with status 0.  With a number among
    the records, the batch script leaves with status 1. *)
Lemma C5_witness :
  let srv := listing_server three_records ["b"] in
  let ms := [ record_of "a" "Alpha" "phi-4";
              record_of "b" "Beta" "gpt-4o";
              record_of "c" "Gamma" "gpt-4o" ] in
  let srv' := listing_server (PList [record_of "b" "Beta" "gpt-4o"; PInt 7]) ["b"] in
  ((exists sched,
      batch_update_models RemoteScript sample_repr sample_repr sample_config
        srv sched world0 <> None)
   /\ (forall sched o w',
         batch_update_models RemoteScript sample_repr sample_repr sample_config
           srv sched world0 = Some (o, w') ->
         exit_code o = 0%Z))
  /\ exit_code
       (fst (run srv
               (UpdateModels.update_models sample_repr sample_repr sample_config)
               world0)) = 0%Z
  /\ (forall sched o w',
        batch_update_models RemoteScript sample_repr sample_repr sample_config
          srv' sched world0 = Some (o, w') ->
        exit_code o = 1%Z /\ exists e, o = Raised e).
Proof.
  intros srv ms srv'. split; [|split].
  - apply (proj1 (C5_exit_status RemoteScript sample_repr sample_repr
                    sample_config srv world0
                    (snd (run srv (batch_banner RemoteScript sample_config ;;
                                   Batch.fetch_response sample_config
                                     (batch_headers RemoteScript sample_config))
                              world0))
                    three_records ms)).
    + vm_compute. reflexivity.
    + reflexivity.
    + repeat constructor.
    + left. reflexivity.
  - apply (proj1 (proj2 (C5_exit_status RemoteScript sample_repr sample_repr
                    sample_config srv world0
                    (snd (run srv (UpdateModels.banner sample_config ;;
                                   UpdateModels.fetch_loop sample_config
                                     UpdateModels.endpoints) world0))
                    three_records ms))).
    + vm_compute. reflexivity.
    + reflexivity.
    + repeat constructor.
  - intros sched o w' H.
    apply (proj1 (proj2 (proj2 (C5_exit_status RemoteScript sample_repr sample_repr
                    sample_config srv' world0 world0 PNone [])))
             [record_of "b" "Beta" "gpt-4o"; PInt 7]
             (snd (run srv' (batch_prologue RemoteScript sample_repr sample_config)
                     world0))
             sched o w').
    + vm_compute. reflexivity.
    + exact H.
    + right. split; [left; reflexivity|]. right. left. reflexivity.
Defined.

(** C5, counterexample: the server lists a record and a number; the fetch
    succeeds with two records, and the batch script leaves with status 1,
    on the [AttributeError] of [model.get]. *)
Lemma C5_counterexample : ~ C5_as_stated.
Proof.
  intros H.
  destruct (H RemoteScript sample_repr sample_repr sample_config
              (listing_server (PList [record_of "b" "Beta" "gpt-4o"; PInt 7]) ["b"])
              (round_robin 2 8) world0 1%Z
              (world_of (script_run (BatchScript RemoteScript) sample_repr
                           sample_repr sample_config
                           (listing_server
                              (PList [record_of "b" "Beta" "gpt-4o"; PInt 7]) ["b"])
                           (round_robin 2 8) world0)))
    as [_ H0].
  - vm_compute. reflexivity.
  - assert (E : 1%Z = 0%Z); [|discriminate].
    apply H0. intros w1 Hrun. vm_compute in Hrun. discriminate.
Qed.

(** * Further properties of the scripts *)

(** X1. [make_api_call] returns, whatever the method, the address and
    the answer of the transport (an answer, or a [RequestException]); the
    method is taken to be ASCII text.  A method that is GET or POST in any
    letter case sends one request, to the configured address followed by
    the endpoint, with the script's headers and the query handed over; a
    GET carries no body even when [data] is given, a POST carries [data];
    what is returned is the parsed body, the text of a body that is not
    JSON, or [None] when the transport failed.  Any other method sends
    nothing and returns [None].  The function of [update-models.py] is the
    one of the batch scripts at its own headers. *)
Theorem X1_api_call_returns (config : configuration) (hs : list (string * string))
    (method endpoint : string) (data : option pyval) (params : option dict)
    (srv : server) (w : world) :
  ascii_only method = true ->
  api_call_result config hs method endpoint data params
    (exchanges_of
       (trace srv (Batch.make_api_call config hs method endpoint data params) w))
    (fst (run srv (Batch.make_api_call config hs method endpoint data params) w))
  /\ UpdateModels.make_api_call config method endpoint data params
     = Batch.make_api_call config (UpdateModels.headers config) method endpoint
         data params.
Proof.
  intros _. split; [|apply make_api_call_variants].
  exact (proj1 (exec_api_call config hs method endpoint data params _ _
                  (exec_trace srv _ w))).
Qed.

Lemma X1_witness :
  let hs := Remote.headers sample_config in
  let data := Some (PDict [("id", PStr "b")]) in
  let params := Some [("id", PStr "b")] in
  api_call_result sample_config hs "post" "/models/update" data params
    (exchanges_of
       (trace sample_server
          (Batch.make_api_call sample_config hs "post" "/models/update" data params)
          world0))
    (fst (run sample_server
            (Batch.make_api_call sample_config hs "post" "/models/update" data
               params) world0))
  /\ UpdateModels.make_api_call sample_config "post" "/models/update" data params
     = Batch.make_api_call sample_config (UpdateModels.headers sample_config)
         "post" "/models/update" data params.
Proof.
  intros hs data params.
  apply (X1_api_call_returns sample_config hs "post" "/models/update" data params
           sample_server world0).
  reflexivity.
Defined.

(** X2. What [make_api_call] prints, for a method that is ASCII text and
    answers whose text, when it is not JSON, is ASCII text: with debug
    output on, the line "Executing API call: ..." first; then one ERROR
    line when the method is unsupported or the transport failed, one DEBUG
    line with the first 500 characters of the body when debug output is on
    and the body is not JSON, and nothing otherwise. *)
Theorem X2_api_call_console (config : configuration) (hs : list (string * string))
    (method endpoint : string) (data : option pyval) (params : option dict)
    (srv : server) (w : world) :
  let call := Batch.make_api_call config hs method endpoint data params in
  ascii_only method = true ->
  ascii_replies (exchanges_of (trace srv call w)) = true ->
  console (snd (run srv call w))
  = console w
    ++ api_call_console config method endpoint (exchanges_of (trace srv call w)).
Proof.
  intros call _ _. rewrite replay_trace, console_replay. f_equal.
  exact (proj2 (exec_api_call config hs method endpoint data params _ _
                  (exec_trace srv call w))).
Qed.

Lemma X2_witness :
  let hs := Remote.headers debug_config in
  let call := Batch.make_api_call debug_config hs "get" "/models" None None in
  console (snd (run text_server call world0))
  = console world0
    ++ [ (DEBUG, "Executing API call: get /api/v1/models");
         (DEBUG, "Response is not JSON: Bad Gateway") ].
Proof.
  intros hs call.
  apply (X2_api_call_console debug_config hs "get" "/models" None None text_server
           world0).
  - reflexivity.
  - reflexivity.
Defined.

(** X3. With debug output off, a run of any of the three scripts, under
    any schedule of the workers, adds no line at DEBUG level to the
    console. *)
Theorem X3_no_debug_output (sc : script) (repr json_dumps : pyval -> string)
    (config : configuration) (srv : server) (sched : list nat) (w w' : world)
    (code : Z) :
  debug config = false ->
  script_run sc repr json_dumps config srv sched w = Some (code, w') ->
  exists lines,
    console w' = console w ++ lines
    /\ Forall (fun line => fst line <> DEBUG) lines.
Proof.
  intros Hd Hrun.
  destruct (script_run_tidy sc _ _ _ _ _ _ _ _ Hrun) as (evs & -> & Hall).
  exists (prints_of evs). split; [apply console_replay|].
  clear Hrun. induction Hall as [|e evs He Hall IH]; [constructor|].
  rewrite prints_of_cons. destruct e as [rq r|lv msg|ev|ms]; cbn [app]; auto.
  constructor; [|exact IH]. simpl in *. intros ->.
  specialize (He eq_refl). congruence.
Qed.

Lemma X3_witness :
  exists lines,
    console (end_of (sample_run (BatchScript RemoteScript) sample_config))
      = console world0 ++ lines
    /\ Forall (fun line => fst line <> DEBUG) lines.
Proof.
  apply (X3_no_debug_output (BatchScript RemoteScript) sample_repr sample_repr
           sample_config (listing_server three_records ["b"]) (round_robin 3 8)
           world0 _ 0%Z).
  - reflexivity.
  - vm_compute. reflexivity.
Defined.

(** X4. Every request of a run of any of the three scripts, under any
    schedule, carries the headers of the script and is either a GET on one
    of the four listing paths, without body or query, or a POST on one of
    the two update paths whose body is a record with the target as base
    model and whose query names the id of that record, an id that is
    neither null nor 'unknown'.  The scripts send nothing else. *)
Theorem X4_requests_well_formed (sc : script) (repr json_dumps : pyval -> string)
    (config : configuration) (srv : server) (sched : list nat) (w w' : world)
    (code : Z) :
  script_run sc repr json_dumps config srv sched w = Some (code, w') ->
  exists requests,
    sent w' = sent w ++ requests
    /\ Forall (well_formed config (script_headers sc config)
                 (script_target sc config)) requests.
Proof.
  intros Hrun.
  destruct (script_run_tidy sc _ _ _ _ _ _ _ _ Hrun) as (evs & -> & Hall).
  exists (requests_of evs). split; [apply sent_replay|].
  clear Hrun. unfold requests_of.
  induction Hall as [|e evs He Hall IH]; [constructor|].
  rewrite exchanges_of_cons. destruct e as [rq r|lv msg|ev|ms]; cbn [app map]; auto.
Qed.

Lemma X4_witness :
  exists requests,
    sent (end_of (sample_run (BatchScript ServersideScript) sample_config))
      = sent world0 ++ requests
    /\ Forall (well_formed sample_config
                 (script_headers (BatchScript ServersideScript) sample_config)
                 (script_target (BatchScript ServersideScript) sample_config))
         requests.
Proof.
  apply (X4_requests_well_formed (BatchScript ServersideScript) sample_repr
           sample_repr sample_config (listing_server three_records ["b"])
           (round_robin 3 8) world0 _ 0%Z).
  vm_compute. reflexivity.
Defined.

(** X5. The worker count a batch script starts with: the value of
    [--workers] when it is given and is not 0, the default otherwise (5 in
    [update-remotely], 10 in [serverside-script]); [--workers 0] is falsy
    and is ignored.  So the count is positive unless a negative number is
    asked for. *)
Theorem X5_worker_count (environ : string -> option string)
    (remote : RemoteMain.arguments) (serverside : ServersideMain.arguments) :
  let default_of (arg : option Z) (default : Z) : Z :=
    match arg with
    | Some n => if (n =? 0)%Z then default else n
    | None => default
    end in
  max_workers (RemoteMain.config environ remote)
    = default_of (RemoteMain.arg_workers remote) 5%Z
  /\ max_workers (ServersideMain.config serverside)
     = default_of (ServersideMain.arg_workers serverside) 10%Z
  /\ ((0 < max_workers (RemoteMain.config environ remote))%Z <->
      forall n, RemoteMain.arg_workers remote = Some n -> (0 <= n)%Z)
  /\ ((0 < max_workers (ServersideMain.config serverside))%Z <->
      forall n, ServersideMain.arg_workers serverside = Some n -> (0 <= n)%Z).
Proof.
  intros default_of. split; [reflexivity|]. split; [reflexivity|].
  unfold RemoteMain.config, ServersideMain.config, RemoteMain.DEFAULT_CONFIG,
    ServersideMain.DEFAULT_CONFIG, given_int.
  cbn [max_workers]. split.
  - destruct (RemoteMain.arg_workers remote) as [n|].
    + destruct (Z.eqb_spec n 0) as [->|Hn]; split.
      * intros _ m Hm. injection Hm as <-. lia.
      * intros _. reflexivity.
      * intros H m Hm. injection Hm as <-. lia.
      * intros H. specialize (H n eq_refl). lia.
    + split; [intros _ m Hm; discriminate|reflexivity].
  - destruct (ServersideMain.arg_workers serverside) as [n|].
    + destruct (Z.eqb_spec n 0) as [->|Hn]; split.
      * intros _ m Hm. injection Hm as <-. lia.
      * intros _. reflexivity.
      * intros H m Hm. injection Hm as <-. lia.
      * intros H. specialize (H n eq_refl). lia.
    + split; [intros _ m Hm; discriminate|reflexivity].
Qed.

(** X6. [serverside-script/batch-model-updater.py] reads five keys of its
    configuration: the address, the API path, the API key, the debug flag
    and the worker count.  Two configurations that agree on them give the
    same run; in particular [--no-batch], which only sets [batch_mode],
    changes nothing: the script always uses the worker pool, and always
    the hard-coded target. *)
Theorem X6_serverside_ignores_no_batch (repr : pyval -> string) :
  (forall c c' : configuration,
     openwebui_url c = openwebui_url c' ->
     api_base_path c = api_base_path c' ->
     api_key c = api_key c' ->
     debug c = debug c' ->
     max_workers c = max_workers c' ->
     Serverside.update_models repr c = Serverside.update_models repr c')
  /\ (forall url path key dbg no_batch no_batch' workers,
        ServersideMain.main repr
          (ServersideMain.mk_arguments url path key dbg no_batch workers)
        = ServersideMain.main repr
            (ServersideMain.mk_arguments url path key dbg no_batch' workers)).
Proof.
  assert (H : forall c c' : configuration,
             openwebui_url c = openwebui_url c' ->
             api_base_path c = api_base_path c' ->
             api_key c = api_key c' ->
             debug c = debug c' ->
             max_workers c = max_workers c' ->
             Serverside.update_models repr c = Serverside.update_models repr c').
  { intros c c'. destruct c, c'. simpl. intros -> -> -> -> ->. reflexivity. }
  split; [exact H|].
  intros url path key dbg no_batch no_batch' workers.
  unfold ServersideMain.main. apply H; reflexivity.
Qed.

(** X7. The transformation is idempotent: building the payload of a
    payload, for the same target, gives it back unchanged, whatever name
    is handed over.  A payload is at the target and has the id of the
    record, so a batch worker that is given one returns [True] without a
    request. *)
Theorem X7_payload_idempotent (repr : pyval -> string) (d : dict)
    (model_name model_name' : pyval) (target : string) :
  let payload := build_payload repr d model_name target in
  build_payload repr payload model_name' target = payload
  /\ at_target target (PDict payload) = true
  /\ has_invalid_id (PDict payload) = has_invalid_id (PDict d)
  /\ (has_invalid_id (PDict d) = false ->
      forall s json_dumps config,
        batch_target s config = target ->
        batch_worker s repr json_dumps config (PDict payload)
        = Bar (BarUpdate 1) (Ret (PBool true))).
Proof.
  intros payload.
  assert (Hbase : get_default "base_model_id" (PStr "unknown") payload = PStr target).
  { unfold get_default, payload. now rewrite payload_base. }
  assert (Hid : get_default "id" (PStr "unknown") payload
                = get_default "id" (PStr "unknown") d).
  { unfold get_default, payload. now rewrite payload_id. }
  split; [apply build_payload_again|]. split; [|split].
  - simpl. rewrite Hbase. apply py_eq_same_string.
  - simpl. now rewrite Hid.
  - intros Hvalid s json_dumps config <-. simpl in Hvalid.
    destruct s; cbn [batch_worker batch_target] in *.
    + apply remote_worker_at_target.
      * now rewrite Hid.
      * rewrite Hbase. apply py_eq_same_string.
    + apply serverside_worker_at_target.
      * now rewrite Hid.
      * rewrite Hbase. apply py_eq_same_string.
Qed.

(** X8. A batch run that returns ends with the report: the bar is closed
    and the last five lines of the console are "Model update process
    completed", the three counts, and then the warning "Some models could
    not be updated" when the failed count is positive, the line "All
    applicable models have been successfully updated ..." otherwise, also
    when every record was skipped. *)
Theorem X8_batch_report (s : batch_script) (repr json_dumps : pyval -> string)
    (config : configuration) (srv : server) (sched : list nat) (w w' : world)
    (c : counters) :
  batch_update_models s repr json_dumps config srv sched w = Some (Returned c, w') ->
  bar_closed w' = true
  /\ exists before,
       console w' = before ++ summary_lines repr (batch_target s config) c.
Proof.
  intros H. apply batch_run_summary in H. destruct H as (w1 & H).
  pose proof (run_summary_world repr config (batch_target s config) srv c w1) as Hs.
  rewrite H in Hs. cbn [snd] in Hs. destruct Hs as (Hc & Hb & _).
  split; [exact Hb|]. exists (console w1). exact Hc.
Qed.

Lemma X7_witness :
  let d := [ ("id", PStr "b"); ("base_model_id", PStr "gpt-4o") ] in
  let payload := build_payload sample_repr d (PStr "unknown") "phi-4" in
  build_payload sample_repr payload (PStr "Beta") "phi-4" = payload
  /\ at_target "phi-4" (PDict payload) = true
  /\ has_invalid_id (PDict payload) = has_invalid_id (PDict d)
  /\ batch_worker RemoteScript sample_repr sample_repr sample_config (PDict payload)
     = Bar (BarUpdate 1) (Ret (PBool true)).
Proof.
  intros d payload.
  destruct (X7_payload_idempotent sample_repr d (PStr "unknown") (PStr "Beta")
              "phi-4") as (H1 & H2 & H3 & H4).
  split; [exact H1|]. split; [exact H2|]. split; [exact H3|].
  apply (H4 eq_refl RemoteScript sample_repr sample_config). reflexivity.
Defined.

Lemma X8_witness :
  bar_closed (world_of (sample_batch RemoteScript sample_config)) = true
  /\ exists before,
       console (world_of (sample_batch RemoteScript sample_config))
       = before ++ summary_lines sample_repr
                     (batch_target RemoteScript sample_config)
                     {| successful_updates := 2; failed_updates := 1;
                        skipped_updates := 0 |}.
Proof.
  apply (X8_batch_report RemoteScript sample_repr sample_repr sample_config
           sample_server (round_robin 3 8) world0).
  vm_compute. reflexivity.
Defined.

(** X9. [update-models.py] pauses one second after every record that it
    dispatches and not at all after a record that it skips for want of an
    id: over records that are mappings, a run pauses for as many seconds
    as there are records with a usable id, whatever the updates did. *)
Theorem X9_one_second_per_update (repr json_dumps : pyval -> string)
    (config : configuration) (srv : server) (w w1 : world) (models : list pyval) :
  run srv (UpdateModels.banner config ;;
           UpdateModels.fetch_models repr json_dumps config) w
    = (Returned models, w1) ->
  Forall (fun m => is_dict m = true) models ->
  slept (snd (run srv (UpdateModels.update_models repr json_dumps config) w))
  = slept w + 1000 * count (fun m => negb (has_invalid_id m)) models.
Proof.
  intros Hrun Hd.
  pose proof (seq_prologue_no_pause repr json_dumps config srv w) as Hpro.
  rewrite Hrun in Hpro. cbn [snd] in Hpro.
  unfold UpdateModels.update_models.
  rewrite run_bind in Hrun. rewrite run_bind.
  destruct (run srv (UpdateModels.banner config) w) as [[[]|code|e] wb];
    cbn [and_then] in *; try discriminate.
  rewrite run_bind, Hrun. cbn [and_then]. rewrite run_bind.
  pose proof (exec_trace srv (UpdateModels.update_loop repr json_dumps config
                                models 0) w1) as He.
  pose proof (replay_trace srv (UpdateModels.update_loop repr json_dumps config
                                  models 0) w1) as Hw.
  destruct (run srv (UpdateModels.update_loop repr json_dumps config models 0) w1)
    as [o2 w2].
  cbn [fst snd] in He, Hw.
  destruct (exec_update_loop_total _ _ _ _ _ _ _ Hd He) as (n' & ->).
  cbn [and_then]. rewrite seq_summary_no_pause, Hw, slept_replay.
  rewrite (exec_update_loop_pauses _ _ _ _ _ _ _ Hd He). lia.
Qed.

Lemma X9_witness :
  slept (snd (run sample_server
                (UpdateModels.update_models sample_repr sample_repr sample_config)
                world0))
  = slept world0 + 1000 * count (fun m => negb (has_invalid_id m)) sample_records.
Proof.
  apply (X9_one_second_per_update sample_repr sample_repr sample_config
           sample_server world0
           (snd (run sample_server
                   (UpdateModels.banner sample_config ;;
                    UpdateModels.fetch_models sample_repr sample_repr
                      sample_config) world0))).
  - vm_compute. reflexivity.
  - repeat constructor.
Defined.

(** X10. A batch run that uses the worker pool never pauses: in
    [serverside-script], and in [update-remotely] unless [--no-batch] is
    given, [time.sleep] is not called, under any schedule. *)
Theorem X10_pool_never_pauses (s : batch_script) (repr json_dumps : pyval -> string)
    (config : configuration) (srv : server) (sched : list nat) (w w' : world)
    (o : outcome counters) :
  s = ServersideScript \/ batch_mode config = true ->
  batch_update_models s repr json_dumps config srv sched w = Some (o, w') ->
  slept w' = slept w.
Proof.
  intros Hs H. apply batch_run_tidy in H. destruct H as (evs & Hw & Hall).
  cbn [snd] in Hw. rewrite Hw, slept_replay.
  rewrite (tidy_no_sleep _ _ _ _ _ evs) with (2 := Hall); [lia|].
  intros ms. destruct s; cbn [batch_pause]; [|tauto].
  destruct Hs as [Hs|Hs]; [discriminate|]. intros [Hb _]. congruence.
Qed.

Lemma X10_witness :
  slept (world_of (sample_batch RemoteScript sample_config)) = slept world0.
Proof.
  apply (X10_pool_never_pauses RemoteScript sample_repr sample_repr sample_config
           sample_server (round_robin 3 8) world0 _
           (Returned {| successful_updates := 2; failed_updates := 1;
                        skipped_updates := 0 |})).
  - right. reflexivity.
  - vm_compute. reflexivity.
Defined.

(** X11. The sequential mode of [update-remotely] pauses half a second
    after every record, also after one that is skipped or fails: over
    records that are mappings, a run pauses for half a second times the
    number of records. *)
Theorem X11_half_second_per_record (repr json_dumps : pyval -> string)
    (config : configuration) (srv : server) (sched : list nat) (w w1 w' : world)
    (models : list pyval) (o : outcome counters) :
  batch_mode config = false ->
  run srv (Remote.prologue repr config) w = (Returned models, w1) ->
  Forall (fun m => is_dict m = true) models ->
  Remote.update_models repr json_dumps config srv sched w = Some (o, w') ->
  slept w' = slept w + 500 * List.length models.
Proof.
  intros Hb Hrun Hd. unfold Remote.update_models. rewrite Hrun, Hb.
  intros H. apply some_eq_inv in H.
  assert (Hpro : slept w1 = slept w).
  { pose proof (run_no_pause config (Remote.headers config) (target_model config)
                  any_use srv (Remote.prologue repr config) w
                  (every_batch_prologue RemoteScript repr config any_use never
                     (fun _ => I))) as Hp.
    now rewrite Hrun in Hp. }
  rewrite run_bind in H.
  change (run srv (Remote.log config INFO "Using sequential processing") w1)
    with (Returned tt, do_print INFO "Using sequential processing" w1) in H.
  cbn [and_then] in H.
  set (loop := Remote.sequential_loop repr json_dumps config models no_updates) in H.
  pose proof (exec_trace srv loop (do_print INFO "Using sequential processing" w1))
    as He.
  pose proof (replay_trace srv loop (do_print INFO "Using sequential processing" w1))
    as Hw.
  destruct (run srv loop (do_print INFO "Using sequential processing" w1))
    as [o2 w2].
  cbn [fst snd] in He, Hw.
  destruct (exec_sequential_loop_total _ _ _ _ _ _ _ Hd He) as (c & ->).
  cbn [and_then] in H.
  pose proof (run_summary_world repr config (target_model config) srv c w2) as Hs.
  rewrite H in Hs. cbn [snd] in Hs. destruct Hs as (_ & _ & _ & Hs & _).
  rewrite Hs, Hw, slept_replay.
  rewrite (exec_sequential_loop_pauses _ _ _ _ _ _ _ Hd He), Hb.
  cbn [slept do_print]. lia.
Qed.

Lemma X11_witness :
  slept (world_of (sample_batch RemoteScript sequential_config))
  = slept world0 + 500 * List.length sample_records.
Proof.
  apply (X11_half_second_per_record sample_repr sample_repr sequential_config
           sample_server (round_robin 3 8) world0
           (snd (run sample_server (Remote.prologue sample_repr sequential_config)
                   world0)) _ sample_records
           (Returned {| successful_updates := 2; failed_updates := 1;
                        skipped_updates := 0 |})).
  - reflexivity.
  - vm_compute. reflexivity.
  - repeat constructor.
  - vm_compute. reflexivity.
Defined.

(** X12. When the fetched collection holds anything that is not a mapping
    (a number, a string, the keys of a mapping the listing put under
    [models]), no script reaches its summary: the run ends on an uncaught
    [AttributeError], exit status 1.  In the batch scripts the workers
    have run by then, under any schedule; [model.get] in the collecting
    loop stands outside the [try]. *)
Theorem X12_non_mapping_record (repr json_dumps : pyval -> string)
    (config : configuration) (srv : server) (w w1 : world) (models : list pyval) :
  Exists (fun m => is_dict m = false) models ->
  (forall s sched o w',
     run srv (batch_prologue s repr config) w = (Returned models, w1) ->
     (0 < max_workers config)%Z ->
     batch_update_models s repr json_dumps config srv sched w = Some (o, w') ->
     exists msg, o = Raised (AttributeError msg))
  /\ (run srv (UpdateModels.banner config ;;
               UpdateModels.fetch_models repr json_dumps config) w
        = (Returned models, w1) ->
      exists msg,
        fst (run srv (UpdateModels.update_models repr json_dumps config) w)
        = Raised (AttributeError msg)).
Proof.
  intros Hex. split.
  - intros s sched o w' Hrun Hpos.
    apply (batch_run_not_dict s repr json_dumps config srv sched w w1 w' models o
             Hex Hrun). now left.
  - intros Hrun. exact (seq_run_not_dict _ _ _ _ _ _ _ Hex Hrun).
Qed.

Lemma X12_witness :
  let listing := PList [record_of "b" "Beta" "gpt-4o"; PInt 7] in
  let srv := listing_server listing ["b"] in
  (exists msg,
     option_map fst
       (batch_update_models RemoteScript sample_repr sample_repr sample_config srv
          (round_robin 2 8) world0)
     = Some (Raised (AttributeError msg)))
  /\ exists msg,
       fst (run srv
              (UpdateModels.update_models sample_repr sample_repr sample_config)
              world0)
       = Raised (AttributeError msg).
Proof.
  intros listing srv.
  assert (Hex : Exists (fun m => is_dict m = false)
                  [record_of "b" "Beta" "gpt-4o"; PInt 7])
    by (right; left; reflexivity).
  split.
  - destruct (batch_update_models RemoteScript sample_repr sample_repr
                sample_config srv (round_robin 2 8) world0)
      as [[o w']|] eqn:Hrun; [|vm_compute in Hrun; discriminate].
    destruct (proj1 (X12_non_mapping_record sample_repr sample_repr sample_config
                       srv world0
                       (snd (run srv (batch_prologue RemoteScript sample_repr
                                        sample_config) world0))
                       _ Hex) RemoteScript (round_robin 2 8) o w')
      as (msg & ->).
    + vm_compute. reflexivity.
    + reflexivity.
    + exact Hrun.
    + exists msg. reflexivity.
  - apply (proj2 (X12_non_mapping_record sample_repr sample_repr sample_config
                    srv world0
                    (snd (run srv (UpdateModels.banner sample_config ;;
                                   UpdateModels.fetch_models sample_repr
                                     sample_repr sample_config) world0))
                    _ Hex)).
    vm_compute. reflexivity.
Defined.

(** X13. Discovery in the batch scripts sends the listing requests in the
    order /models, /models/, /models/list, /v1/models, at least one and at
    most four, and hands on what the last of them got.  The answer on
    /models ends the search only when it is a list that is not empty: a
    mapping there, with or without records, makes the scripts go on. *)
Theorem X13_batch_discovery (config : configuration) (hs : list (string * string))
    (srv : server) (w : world) :
  let xs := exchanges_of (trace srv (Batch.fetch_response config hs) w) in
  map fst xs
    = firstn (List.length xs) (map (listing_request config hs) listing_paths)
  /\ 1 <= List.length xs <= 4
  /\ (exists rq r,
        final xs = Some (rq, r)
        /\ fst (run srv (Batch.fetch_response config hs) w) = Returned (returned r))
  /\ (forall rq r,
        nth_error xs 0 = Some (rq, r) ->
        List.length xs = 1 <-> truthy (returned r) && is_list (returned r) = true).
Proof.
  cbv zeta.
  destruct (exec_fetch_response config hs _ _
              (exec_trace srv (Batch.fetch_response config hs) w))
    as (r1 & xs2 & -> & [(Hacc & -> & ->)|(Hacc & Hs & ->)]).
  - split; [reflexivity|]. split; [simpl; lia|]. split.
    + exists (listing_request config hs "/models"), r1. split; reflexivity.
    + intros rq r H. injection H as <- <-. rewrite Hacc. tauto.
  - pose proof (stops_at_first_length _ _ _ Hs) as Hlen. simpl in Hlen.
    destruct Hs as (Hm & _ & Hend). split; [|split; [|split]].
    + cbn [map List.length fst]. rewrite Hm. reflexivity.
    + cbn [List.length]. lia.
    + rewrite final_cons_cons. unfold last_response.
      destruct (final xs2) as [[rq r]|]; eauto.
    + intros rq r H. injection H as <- <-. rewrite Hacc. cbn [List.length].
      split; [|discriminate]. intros H1.
      destruct xs2 as [|x xs2]; [|discriminate].
      destruct Hend as (rq & r & Hf & _); [simpl; lia|discriminate].
Qed.

(** X14. When the last listing answer is not one that discovery
    recognises, the batch scripts have tried the four paths and stop with
    status 1, whatever the paths before answered: an answer that was put
    aside on /models, for one a mapping that holds the records, is not
    looked at again. *)
Theorem X14_listing_put_aside (repr : pyval -> string) (config : configuration)
    (hs : list (string * string)) (srv : server) (w : world) :
  let xs := exchanges_of (trace srv (Batch.fetch_response config hs) w) in
  (forall rq r, final xs = Some (rq, r) -> looks_like_models (returned r) = false) ->
  List.length xs = 4
  /\ fst (run srv (Batch.fetch_models repr config hs) w) = Exited 1.
Proof.
  cbv zeta. intros Hlast.
  pose proof (exec_trace srv (Batch.fetch_response config hs) w) as He.
  destruct (exec_fetch_response config hs _ _ He)
    as (r1 & xs2 & Hx & [(Hacc & -> & Ho)|(Hacc & Hs & Ho)]); rewrite Hx in *.
  - specialize (Hlast _ _ eq_refl). unfold looks_like_models in Hlast.
    destruct (returned r1); cbn [is_list] in Hacc;
      try (rewrite andb_false_r in Hacc; discriminate).
    rewrite Hacc in Hlast. discriminate.
  - pose proof (stops_at_first_length _ _ _ Hs) as Hlen. simpl in Hlen.
    rewrite final_cons_cons in Hlast.
    assert (Hv : looks_like_models (last_response (returned r1) xs2) = false).
    { unfold last_response. destruct (final xs2) as [[rq r]|] eqn:Hf.
      - exact (Hlast rq r eq_refl).
      - exact (Hlast _ r1 eq_refl). }
    split.
    + cbn [List.length]. destruct Hs as (_ & _ & Hend).
      destruct (Nat.eq_dec (List.length xs2) 3) as [->|Hne]; [reflexivity|].
      destruct Hend as (rq & r & Hf & Hr); [simpl; lia|].
      apply looks_like_models_recognised in Hr.
      rewrite Hf in Hlast. specialize (Hlast _ _ eq_refl). congruence.
    + unfold Batch.fetch_models. rewrite run_bind.
      destruct (run srv (Batch.fetch_response config hs) w) as [o1 w1].
      cbn [fst] in Ho. subst o1. cbn [and_then].
      rewrite (unrecognised_empty _ Hv). reflexivity.
Qed.

Lemma X14_witness :
  let srv := only_at (url_of sample_config "/models")
               (PDict [("data", PList sample_records)]) in
  (List.length
     (exchanges_of
        (trace srv (Batch.fetch_response sample_config
                      (Remote.headers sample_config)) world0)) = 4
   /\ fst (run srv (Batch.fetch_models sample_repr sample_config
                      (Remote.headers sample_config)) world0) = Exited 1)
  /\ fst (run srv (UpdateModels.fetch_models sample_repr sample_repr sample_config)
            world0)
     = Returned sample_records.
Proof.
  intros srv. split.
  - apply (X14_listing_put_aside sample_repr sample_config
             (Remote.headers sample_config) srv world0).
    intros rq r H. vm_compute in H. injection H as <- <-. reflexivity.
  - vm_compute. reflexivity.
Defined.

(** X15. Against a server whose answers depend on the request alone, the
    counters of a batch run that returns depend neither on the order in
    which the pool ran the workers nor on the mode: they are the tally of
    the verdicts that the records get when each is updated on its own. *)
Theorem X15_counters_without_memory (s : batch_script)
    (repr json_dumps : pyval -> string) (config : configuration) (srv : server)
    (sched : list nat) (w w' : world) (c : counters) :
  stateless srv ->
  batch_update_models s repr json_dumps config srv sched w = Some (Returned c, w') ->
  exists models w1,
    run srv (batch_prologue s repr config) w = (Returned models, w1) /\
    c = counters_of
          (verdict_alone srv (batch_worker s repr json_dumps config)
             (batch_target s config)) models.
Proof. intros Hs H. exact (batch_update_models_alone _ _ _ _ _ _ _ _ _ Hs H). Qed.

Lemma X15_witness :
  exists models w1,
    run sample_server (batch_prologue RemoteScript sample_repr sample_config) world0
      = (Returned models, w1) /\
    {| successful_updates := 2; failed_updates := 1; skipped_updates := 0 |}
      = counters_of
          (verdict_alone sample_server
             (batch_worker RemoteScript sample_repr sample_repr sample_config)
             (batch_target RemoteScript sample_config)) models.
Proof.
  apply (X15_counters_without_memory RemoteScript sample_repr sample_repr
           sample_config sample_server (round_robin 3 8) world0
           (world_of (sample_batch RemoteScript sample_config))).
  - intros h h' rq. reflexivity.
  - vm_compute. reflexivity.
Defined.

(** X16. In a batch run that returns, under any schedule and in either
    mode, everything sent after the listing is a POST, and the server
    hears of a record only if the record has a usable id and a base model
    other than the target: there are at least as many of these requests
    as such records and at most twice as many. *)
Theorem X16_updates_sent (s : batch_script) (repr json_dumps : pyval -> string)
    (config : configuration) (srv : server) (sched : list nat) (w w' : world)
    (c : counters) :
  batch_update_models s repr json_dumps config srv sched w = Some (Returned c, w') ->
  exists models w1 posts,
    run srv (batch_prologue s repr config) w = (Returned models, w1)
    /\ sent w' = sent w1 ++ posts
    /\ Forall (fun rq => rq_verb rq = POST) posts
    /\ count (needs_update (batch_target s config)) models <= List.length posts
       <= 2 * count (needs_update (batch_target s config)) models.
Proof.
  intros H. apply batch_run_traces in H.
  destruct H as (models & w1 & body & trs & extras & Hpro & Hsum & Hp & Ha & Hf & Hd).
  exists models, w1, (requests_of body). split; [exact Hpro|].
  pose proof (run_summary_world repr config (batch_target s config) srv c
                (replay body w1)) as Hs.
  rewrite Hsum in Hs. cbn [snd] in Hs. destruct Hs as (_ & _ & Hsent & _).
  destruct (batch_traces_sum s repr json_dumps config models trs Hd Hf)
    as (_ & _ & Hpost & Hlen).
  destruct (aside_quiet extras Ha) as (_ & Hx & _).
  apply requests_of_permutation in Hp.
  rewrite requests_of_app in Hp. unfold requests_of at 3 in Hp.
  rewrite Hx, app_nil_r in Hp.
  split; [now rewrite Hsent, sent_replay|].
  split.
  - eapply Permutation_Forall; [apply Permutation_sym; exact Hp|exact Hpost].
  - now rewrite (Permutation_length Hp).
Qed.

Lemma X16_witness :
  exists models w1 posts,
    run sample_server (batch_prologue RemoteScript sample_repr sample_config) world0
      = (Returned models, w1)
    /\ sent (world_of (sample_batch RemoteScript sample_config)) = sent w1 ++ posts
    /\ Forall (fun rq => rq_verb rq = POST) posts
    /\ count (needs_update (batch_target RemoteScript sample_config)) models
       <= List.length posts
       <= 2 * count (needs_update (batch_target RemoteScript sample_config)) models.
Proof.
  apply (X16_updates_sent RemoteScript sample_repr sample_repr sample_config
           sample_server (round_robin 3 8) world0 _
           {| successful_updates := 2; failed_updates := 1; skipped_updates := 0 |}).
  vm_compute. reflexivity.
Defined.

(** X17. A batch run that returns leaves the progress bar complete: its
    total is the number of records fetched, its position has reached the
    total, one step for each record whatever became of it, and the bar is
    closed. *)
Theorem X17_bar_complete (s : batch_script) (repr json_dumps : pyval -> string)
    (config : configuration) (srv : server) (sched : list nat) (w w' : world)
    (c : counters) :
  batch_update_models s repr json_dumps config srv sched w = Some (Returned c, w') ->
  exists models w1,
    run srv (batch_prologue s repr config) w = (Returned models, w1)
    /\ bar_total w' = List.length models
    /\ bar_n w' = List.length models
    /\ bar_closed w' = true.
Proof.
  intros H. apply batch_run_traces in H.
  destruct H as (models & w1 & body & trs & extras & Hpro & Hsum & Hp & Ha & Hf & Hd).
  exists models, w1. split; [exact Hpro|].
  pose proof (run_summary_world repr config (batch_target s config) srv c
                (replay body w1)) as Hs.
  rewrite Hsum in Hs. cbn [snd] in Hs.
  destruct Hs as (_ & Hclosed & _ & _ & Hn & Htotal).
  destruct (run_prologue_bar s repr config srv w w1 models Hpro) as (P1 & P2 & _).
  destruct (batch_traces_sum s repr json_dumps config models trs Hd Hf)
    as (Hadv & Hmoves & _).
  destruct (aside_quiet extras Ha) as (Hx & _ & Hxm).
  assert (Hbody : Forall moves_only body).
  { eapply Permutation_Forall; [apply Permutation_sym; exact Hp|].
    apply Forall_app. split; assumption. }
  destruct (bar_replay body w1 Hbody) as (B1 & B2 & _).
  rewrite (bar_advance_permutation _ _ Hp), bar_advance_app, Hadv, Hx in B2.
  rewrite Htotal, Hn, B1, B2, P1, P2. repeat split; [lia|exact Hclosed].
Qed.

Lemma X17_witness :
  exists models w1,
    run sample_server (batch_prologue ServersideScript sample_repr sample_config)
      world0 = (Returned models, w1)
    /\ bar_total (world_of (sample_batch ServersideScript sample_config))
       = List.length models
    /\ bar_n (world_of (sample_batch ServersideScript sample_config))
       = List.length models
    /\ bar_closed (world_of (sample_batch ServersideScript sample_config)) = true.
Proof.
  apply (X17_bar_complete ServersideScript sample_repr sample_repr sample_config
           sample_server (round_robin 3 8) world0 _
           {| successful_updates := 1; failed_updates := 2; skipped_updates := 0 |}).
  vm_compute. reflexivity.
Defined.

(** X18. With a worker count that is not positive (a negative
    [--workers]), a batch run that uses the pool fetches the records and
    then fails with the pool's [ValueError], under any schedule: no update
    is sent, the progress bar stays at zero and is not closed, and no
    summary is printed. *)
Theorem X18_no_workers (s : batch_script) (repr json_dumps : pyval -> string)
    (config : configuration) (srv : server) (sched : list nat) (w w1 : world)
    (models : list pyval) :
  (max_workers config <= 0)%Z ->
  s = ServersideScript \/ batch_mode config = true ->
  run srv (batch_prologue s repr config) w = (Returned models, w1) ->
  exists w',
    batch_update_models s repr json_dumps config srv sched w
      = Some (Raised (ValueError "max_workers must be greater than 0"), w')
    /\ sent w' = sent w1
    /\ bar_n w' = 0 /\ bar_closed w' = false
    /\ exists line, console w' = console w1 ++ line /\ List.length line <= 1.
Proof.
  intros Hz Hs Hrun.
  destruct (run_prologue_bar s repr config srv w w1 models Hrun) as (_ & Hn & Hc).
  apply Z.leb_le in Hz.
  destruct s; cbn [batch_update_models batch_prologue] in *.
  - destruct Hs as [Hs|Hb]; [discriminate|].
    unfold Remote.update_models. rewrite Hrun, Hb.
    unfold Batch.thread_pool. rewrite Hz. cbn [and_then].
    eexists. split; [reflexivity|].
    unfold Remote.log, Batch.log. cbn [run snd do_print sent bar_n bar_closed console].
    repeat split; auto. eexists. split; [reflexivity|]. simpl. lia.
  - unfold Serverside.update_models. rewrite Hrun.
    unfold Batch.thread_pool. rewrite Hz. cbn [and_then].
    exists w1. repeat split; auto. exists []. rewrite app_nil_r. split; auto.
Qed.

Lemma X18_witness :
  let config :=
    ServersideMain.config
      {| ServersideMain.arg_url := None; ServersideMain.arg_api_path := None;
         ServersideMain.arg_api_key := None; ServersideMain.arg_debug := false;
         ServersideMain.arg_no_batch := false;
         ServersideMain.arg_workers := Some (-2)%Z |} in
  exists w',
    batch_update_models ServersideScript sample_repr sample_repr config
      sample_server (round_robin 3 8) world0
      = Some (Raised (ValueError "max_workers must be greater than 0"), w')
    /\ sent w'
       = sent (snd (run sample_server
                      (batch_prologue ServersideScript sample_repr config) world0))
    /\ bar_n w' = 0 /\ bar_closed w' = false
    /\ exists line,
         console w'
         = console (snd (run sample_server
                           (batch_prologue ServersideScript sample_repr config)
                           world0)) ++ line
         /\ List.length line <= 1.
Proof.
  intros config.
  apply (X18_no_workers ServersideScript sample_repr sample_repr config
           sample_server (round_robin 3 8) world0 _ sample_records).
  - vm_compute. discriminate.
  - left. reflexivity.
  - vm_compute. reflexivity.
Defined.

(** X19. In [update-models.py] a record without a usable id is never
    counted as updated, so a run over mapping records of which one has no
    usable id ends, whatever the server answered, with the warning "Some
    models could not be updated. Please check the logs above for
    details". *)
Theorem X19_missing_id_warns (repr json_dumps : pyval -> string)
    (config : configuration) (srv : server) (w w1 : world) (models : list pyval) :
  run srv (UpdateModels.banner config ;;
           UpdateModels.fetch_models repr json_dumps config) w
    = (Returned models, w1) ->
  Forall (fun m => is_dict m = true) models ->
  Exists (fun m => has_invalid_id m = true) models ->
  exists before,
    console (snd (run srv (UpdateModels.update_models repr json_dumps config) w))
    = before
      ++ [(WARNING,
           "Some models could not be updated. Please check the logs above for details")].
Proof.
  intros Hrun Hd Hex.
  unfold UpdateModels.update_models.
  rewrite run_bind in Hrun. rewrite run_bind.
  destruct (run srv (UpdateModels.banner config) w) as [[[]|code|e] wb];
    cbn [and_then] in *; try discriminate.
  rewrite run_bind, Hrun. cbn [and_then]. rewrite run_bind.
  pose proof (exec_trace srv (UpdateModels.update_loop repr json_dumps config
                                models 0) w1) as He.
  destruct (run srv (UpdateModels.update_loop repr json_dumps config models 0) w1)
    as [o2 w2].
  cbn [fst] in He.
  destruct (exec_update_loop_total _ _ _ _ _ _ _ Hd He) as (n' & ->).
  apply (exec_update_loop_bound _ _ _ _ _ _ _ Hd) in He.
  assert (Hlt : (n' <? List.length models)%nat = true).
  { apply Nat.ltb_lt.
    assert (count (fun m => negb (has_invalid_id m)) models < List.length models).
    { apply count_below. eapply Exists_impl; [|exact Hex].
      intros m Hm. simpl. now rewrite Hm. }
    lia. }
  cbn [and_then]. exact (seq_summary_warns repr config srv _ _ w2 Hlt).
Qed.

Lemma X19_witness :
  let srv :=
    listing_server (PList [record_of "a" "Alpha" "gpt-4o"; null_id_record]) ["a"] in
  exists before,
    console (snd (run srv
                    (UpdateModels.update_models sample_repr sample_repr
                       sample_config) world0))
    = before
      ++ [(WARNING,
           "Some models could not be updated. Please check the logs above for details")].
Proof.
  intros srv.
  apply (X19_missing_id_warns sample_repr sample_repr sample_config srv world0
           (snd (run srv (UpdateModels.banner sample_config ;;
                          UpdateModels.fetch_models sample_repr sample_repr
                            sample_config) world0))
           [record_of "a" "Alpha" "gpt-4o"; null_id_record]).
  - vm_compute. reflexivity.
  - repeat constructor.
  - right. left. reflexivity.
Defined.
